(** * Altfolio: access policy, aggregation and investment service

    A shallow embedding of the server side of Altfolio
    (models/Investment.js, middleware/auth.js, routes/investments.js and
    routes/dashboard.js) together with the properties its specification
    states about them.

    Conventions of the embedding.
    - A JavaScript number that holds an amount is an exact rational
      ([Q]); the rounding of IEEE doubles is not modelled.  The operator
      [/] is the one place where a finite number can leave the finite
      range, so it is modelled by [JS.div], which has no finite result
      ([None]) on a zero divisor.
    - A string is the sequence of its code units, each below 256 (an
      [ascii]); the white space among these is U+0009 to U+000D, U+0020
      and U+00A0.  The text fields of a body hold strings and its
      amounts numbers, as the client sends them.
    - A date is its time value in milliseconds ([Z]).
    - An ObjectId is a natural number ([N]), and a new document gets an
      id that is not in use.  Where a request carries a text that the
      code reads as an id or as a date, the model keeps of the text what
      the libraries that read it make of it: whether the validator
      accepts it, and the value Mongoose casts it to, if any
      ([Param.t], [Owner.t], [DateString.t]).  A cast that fails throws,
      and the [catch] of the handler answers 500.
    - A collection is the list of its documents in natural order; a sort
      of a query or of a pipeline is a merge sort on the sort key.
    - Every handler is entered after [authenticateToken]: its first
      argument is [req.user].  [populate] only decorates the owners of
      a reply and is left out.
    - How an update treats a path whose value is [undefined] depends on
      the version of the driver; the handlers that update take the
      choice as their first argument ([omitUndefined]). *)

From Stdlib Require Import List Bool Arith ZArith NArith QArith Qround Lqa Lia.
From Stdlib Require Import String Ascii DecimalString.
From Stdlib Require Import Sorting Permutation Orders Mergesort.
Import ListNotations.

Set Implicit Arguments.

Definition ObjectId := N.
Definition Date := Z.

(** ** Ids and dates as a request carries them *)

(** A route parameter [:id], or an id in the body of a simulation: a text
    that Mongoose casts to an ObjectId, or one on which the cast throws
    a CastError.  An ObjectId written where a parameter is expected
    stands for a text that casts to it. *)
Module Param.

Inductive t :=
| id (i : N)
| uncastable.

End Param.

Coercion Param.id : N >-> Param.t.

(** An element of [owners] in a body.  [hex id] is the text that
    [id.toString()] gives, 24 hexadecimal digits in lower case.  Any
    other value is kept by what [isMongoId] says of it and what the cast
    to ObjectId makes of it: the same digits in upper case are accepted
    by both and are not the text of [toString()]. *)
Module Owner.

Inductive t :=
| hex (id : ObjectId)
| other (isMongoId : bool) (cast : option ObjectId).

Definition isMongoId (o : t) : bool :=
  match o with
  | hex _ => true
  | other b _ => b
  end.

Definition cast (o : t) : option ObjectId :=
  match o with
  | hex id => Some id
  | other _ c => c
  end.

(** The cast of every element, as a query or a document does it:
    [None] when one of them throws. *)
Fixpoint castAll (owners : list t) : option (list ObjectId) :=
  match owners with
  | [] => Some []
  | o :: owners' =>
      match cast o, castAll owners' with
      | Some id, Some ids => Some (id :: ids)
      | _, _ => None
      end
  end.

(** [owners.includes(id.toString())], a comparison of texts. *)
Definition includes (owners : list t) (id : ObjectId) : bool :=
  existsb (fun o => match o with
                    | hex id' => N.eqb id' id
                    | other _ _ => false
                    end) owners.

End Owner.

(** The [investmentDate] of a body, by what [isISO8601] says of it and
    by the date that Mongoose casts it to, if any.  A week date such as
    2024-W01-1 is accepted by the first and refused by the second.  A
    value that [isISO8601] accepts is a text that is not empty, so it is
    truthy. *)
Module DateString.

Record t := mk
  { isISO8601 : bool;
    cast : option Date }.

(** A calendar date and time in ISO 8601 that denotes [d]. *)
Definition iso (d : Date) : t :=
  {| isISO8601 := true; cast := Some d |}.

End DateString.

(** ** The fragment of JavaScript the handlers rely on *)

Module JS.

(** [a / b].  A zero divisor gives [Infinity] or [NaN] in JavaScript;
    neither is a finite number, which [None] stands for. *)
Definition div (a b : Q) : option Q :=
  if Qeq_bool b 0 then None else Some (a / b)%Q.

(** [x * k] on a possibly non-finite [x]. *)
Definition times (x : option Q) (k : Q) : option Q :=
  match x with
  | Some q => Some (q * k)%Q
  | None => None
  end.

(** [a > b] on numbers. *)
Definition gt (a b : Q) : bool := negb (Qle_bool a b).

(** [Array.prototype.includes] on an array of ids. *)
Definition includes (l : list ObjectId) (x : ObjectId) : bool :=
  existsb (N.eqb x) l.

(** The white space that [trim] and [\s] strip, among the code units
    below 256. *)
Definition is_space (c : ascii) : bool :=
  let n := nat_of_ascii c in
  ((9 <=? n) && (n <=? 13)) || (n =? 32) || (n =? 160).

Fixpoint trim_start (s : string) : string :=
  match s with
  | String c s' => if is_space c then trim_start s' else s
  | EmptyString => EmptyString
  end.

Fixpoint trim_end (s : string) : string :=
  match s with
  | String c s' =>
      match trim_end s' with
      | EmptyString => if is_space c then EmptyString else String c EmptyString
      | t => String c t
      end
  | EmptyString => EmptyString
  end.

(** [String.prototype.trim], which is also the [trim] of the validator
    and the setter of the schema. *)
Definition trim (s : string) : string := trim_end (trim_start s).

End JS.

(** ** models/User.js *)

Inductive Role := admin | viewer.

Definition Role_eqb (a b : Role) : bool :=
  match a, b with
  | admin, admin | viewer, viewer => true
  | _, _ => false
  end.

Module User.

Record t := mk
  { _id : ObjectId;
    role : Role;
    isActive : bool }.

End User.

(** ** models/Investment.js *)

Module Investment.

Record t := mk
  { _id : ObjectId;
    assetName : string;
    assetType : string;
    investedAmount : Q;
    currentValue : Q;
    investmentDate : Date;
    owners : list ObjectId;
    description : option string;
    notes : option string;
    isActive : bool;
    createdAt : Date;
    updatedAt : Date }.

(** The [enum] of the [assetType] path. *)
Definition assetTypes : list string :=
  ["Startup"; "Crypto Fund"; "Farmland"; "Collectible"; "Other"]%string.

(** The virtual [roi]. *)
Definition roi (this : t) : option Q :=
  if Qeq_bool (investedAmount this) 0 then Some 0%Q
  else JS.times
         (JS.div (currentValue this - investedAmount this) (investedAmount this))
         100.

(** The virtual [absoluteGain]. *)
Definition absoluteGain (this : t) : Q :=
  (currentValue this - investedAmount this)%Q.

(** A filter document as the handlers build it: [{ isActive: true }],
    with [owners: userId] added for a non-admin. *)
Record Query := mkQuery
  { q_isActive : option bool;
    q_owners : option ObjectId }.

Definition matches (q : Query) (d : t) : bool :=
  match q_isActive q with
  | Some b => Bool.eqb (isActive d) b
  | None => true
  end
  &&
  match q_owners q with
  | Some uid => JS.includes (owners d) uid
  | None => true
  end.

(** [Investment.find(query)] *)
Definition find (q : Query) (coll : list t) : list t :=
  filter (matches q) coll.

(** [Investment.findById(id)] *)
Definition findById (id : ObjectId) (coll : list t) : option t :=
  List.find (fun d => N.eqb (_id d) id) coll.

(** The match stage shared by both aggregations. *)
Definition matchStage (userId : option ObjectId) : Query :=
  {| q_isActive := Some true; q_owners := userId |}.

(** The document of a group stage with [_id: null]. *)
Module Group.
Record t := mk
  { totalInvested : Q;
    totalCurrentValue : Q;
    totalGain : Q;
    investmentCount : nat }.
End Group.

Module Totals.
Record t := mk
  { totalInvested : Q;
    totalCurrentValue : Q;
    totalGain : Q;
    totalRoi : option Q;
    investmentCount : nat }.
End Totals.

(** One [$sum] step of every accumulator of the group stage. *)
Definition group_step (acc : Group.t) (d : t) : Group.t :=
  {| Group.totalInvested := (Group.totalInvested acc + investedAmount d)%Q;
     Group.totalCurrentValue := (Group.totalCurrentValue acc + currentValue d)%Q;
     Group.totalGain := (Group.totalGain acc + (currentValue d - investedAmount d))%Q;
     Group.investmentCount := Group.investmentCount acc + 1 |}.

Definition group_init : Group.t :=
  {| Group.totalInvested := 0; Group.totalCurrentValue := 0;
     Group.totalGain := 0; Group.investmentCount := 0 |}.

(** [{ $group: { _id: null, ... } }]: a single document, and no
    document at all when nothing reaches the stage. *)
Definition group_null (docs : list t) : list Group.t :=
  match docs with
  | [] => []
  | _ => [fold_left group_step docs group_init]
  end.

(** The static [getPortfolioTotals]. *)
Definition getPortfolioTotals (userId : option ObjectId) (coll : list t) : Totals.t :=
  let result := group_null (find (matchStage userId) coll) in
  match result with
  | [] =>
      {| Totals.totalInvested := 0;
         Totals.totalCurrentValue := 0;
         Totals.totalGain := 0;
         Totals.totalRoi := Some 0%Q;
         Totals.investmentCount := 0 |}
  | totals :: _ =>
      {| Totals.totalInvested := Group.totalInvested totals;
         Totals.totalCurrentValue := Group.totalCurrentValue totals;
         Totals.totalGain := Group.totalGain totals;
         Totals.totalRoi :=
           if JS.gt (Group.totalInvested totals) 0
           then JS.times
                  (JS.div (Group.totalGain totals) (Group.totalInvested totals))
                  100
           else Some 0%Q;
         Totals.investmentCount := Group.investmentCount totals |}
  end.

(** An entry of the allocation by asset type. *)
Module Alloc.
Record t := mk
  { _id : string;
    totalInvested : Q;
    totalCurrentValue : Q;
    count : nat }.
End Alloc.

Definition alloc_add (e : Alloc.t) (d : t) : Alloc.t :=
  {| Alloc._id := Alloc._id e;
     Alloc.totalInvested := (Alloc.totalInvested e + investedAmount d)%Q;
     Alloc.totalCurrentValue := (Alloc.totalCurrentValue e + currentValue d)%Q;
     Alloc.count := Alloc.count e + 1 |}.

Definition alloc_empty (ty : string) : Alloc.t :=
  {| Alloc._id := ty; Alloc.totalInvested := 0;
     Alloc.totalCurrentValue := 0; Alloc.count := 0 |}.

(** The accumulators of a group keyed by [assetType], kept in the order
    in which the keys are first met: the entry of the document's type
    is created on first use and then added to. *)
Fixpoint alloc_upsert (d : t) (acc : list Alloc.t) : list Alloc.t :=
  match acc with
  | [] => [alloc_add (alloc_empty (assetType d)) d]
  | e :: acc' =>
      if String.eqb (Alloc._id e) (assetType d)
      then alloc_add e d :: acc'
      else e :: alloc_upsert d acc'
  end.

(** [{ $group: { _id: '$assetType', ... } }] *)
Definition group_by_type (docs : list t) : list Alloc.t :=
  fold_left (fun acc d => alloc_upsert d acc) docs [].

(** [{ $sort: { totalCurrentValue: -1 } }]: the order, and the merge sort
    it parametrises. *)
Definition value_desc_leb (a b : Alloc.t) : bool :=
  Qle_bool (Alloc.totalCurrentValue b) (Alloc.totalCurrentValue a).

Lemma value_desc_leb_total :
  forall a b, value_desc_leb a b = true \/ value_desc_leb b a = true.
Proof.
  intros a b. unfold value_desc_leb. rewrite !Qle_bool_iff.
  destruct (Qlt_le_dec (Alloc.totalCurrentValue a) (Alloc.totalCurrentValue b))
    as [H|H].
  - right. apply Qlt_le_weak, H.
  - left. exact H.
Qed.

Module ByCurrentValueDesc <: TotalLeBool.
Definition t := Alloc.t.
Definition leb := value_desc_leb.
Definition leb_total := value_desc_leb_total.
End ByCurrentValueDesc.

Module AllocSort := Sort ByCurrentValueDesc.

(** The static [getAllocationByType]. *)
Definition getAllocationByType (userId : option ObjectId) (coll : list t)
  : list Alloc.t :=
  AllocSort.sort (group_by_type (find (matchStage userId) coll)).

(** [.sort({ investmentDate: -1 })] on a query. *)
Definition date_desc_leb (a b : t) : bool :=
  (investmentDate b <=? investmentDate a)%Z.

Lemma date_desc_leb_total :
  forall a b, date_desc_leb a b = true \/ date_desc_leb b a = true.
Proof. intros a b. unfold date_desc_leb. rewrite !Z.leb_le. lia. Qed.

Module ByDateDesc <: TotalLeBool.
Definition t := t.
Definition leb := date_desc_leb.
Definition leb_total := date_desc_leb_total.
End ByDateDesc.

Module DateSort := Sort ByDateDesc.

(** The method [canUserModify]. *)
Definition canUserModify (this : t) (userId : ObjectId) (userRole : Role) : bool :=
  match userRole with
  | admin => true
  | viewer => JS.includes (owners this) userId
  end.

(** *** Writing documents *)

(** The setters of the schema ([trim: true]), run when a document is
    built or an update is cast. *)
Definition cast (d : t) : t :=
  {| _id := _id d;
     assetName := JS.trim (assetName d);
     assetType := assetType d;
     investedAmount := investedAmount d;
     currentValue := currentValue d;
     investmentDate := investmentDate d;
     owners := owners d;
     description := option_map JS.trim (description d);
     notes := option_map JS.trim (notes d);
     isActive := isActive d;
     createdAt := createdAt d;
     updatedAt := updatedAt d |}.

Definition maxlength (n : nat) (s : option string) : bool :=
  match s with
  | Some s => String.length s <=? n
  | None => true
  end.

Definition in_range (x : Q) : bool :=
  Qle_bool 0 x && Qle_bool x 1000000000.

(** The validators of the schema, path by path: [required] and
    [maxlength] of [assetName], the [enum] of [assetType], [min] and
    [max] of the amounts, [maxlength] of the free texts. *)
Definition valid_assetName (s : string) : bool :=
  negb (String.length s =? 0) && (String.length s <=? 100).

Definition valid_assetType (s : string) : bool :=
  existsb (String.eqb s) assetTypes.

(** Document validation, as run by [save()]. *)
Definition validate (d : t) : bool :=
  valid_assetName (assetName d)
  && valid_assetType (assetType d)
  && in_range (investedAmount d)
  && in_range (currentValue d)
  && maxlength 500 (description d)
  && maxlength 1000 (notes d).

(** The id given to a new document: one that no document of the
    collection carries. *)
Definition fresh_id (coll : list t) : ObjectId :=
  N.succ (fold_right N.max 0%N (map _id coll)).

(** [new Investment({...})] followed by [save()], at time [now].  The
    value offered for [investmentDate] comes as the cast of the path
    leaves it, [None] when the cast fails; the owners come cast, since
    the query on the users that precedes has cast them.  The result is
    [None] when [save()] throws: on a date that was not cast, and on a
    document that does not pass validation. *)
Definition save (now : Date) (assetName : string) (assetType : string)
           (investedAmount currentValue : Q) (investmentDate : option Date)
           (description notes : option string) (owners : list ObjectId)
           (coll : list t) : option (list t * t) :=
  match investmentDate with
  | None => None
  | Some investmentDate =>
      let investment :=
        cast {| _id := fresh_id coll;
                assetName := assetName;
                assetType := assetType;
                investedAmount := investedAmount;
                currentValue := currentValue;
                investmentDate := investmentDate;
                owners := owners;
                description := description;
                notes := notes;
                isActive := true;
                createdAt := now;
                updatedAt := now |} in
      if validate investment then Some (coll ++ [investment], investment) else None
  end.

(** An update document.  A path is absent ([None]) or carries a value;
    the value of an optional path may itself be [undefined], and the
    value of [investmentDate] comes as the cast of the path leaves it,
    [None] when the cast fails. *)
Module Update.
Record t := mk
  { assetName : option string;
    assetType : option string;
    investedAmount : option Q;
    currentValue : option Q;
    investmentDate : option (option Date);
    description : option (option string);
    notes : option (option string);
    owners : option (list ObjectId);
    isActive : option bool }.
End Update.

Definition set_path {A} (old : A) (new : option A) : A :=
  match new with
  | Some v => v
  | None => old
  end.

(** A value that was cast, on a path that the update carries. *)
Definition cast_value {A} (v : option (option A)) : option A :=
  match v with
  | Some v => v
  | None => None
  end.

(** Whether the cast of the update throws. *)
Definition cast_fails (u : Update.t) : bool :=
  match Update.investmentDate u with
  | Some None => true
  | _ => false
  end.

(** A path whose value is [undefined] is dropped from the update when
    the driver omits undefined values, and written as [null]
    otherwise. *)
Definition set_optional {A} (omitUndefined : bool) (old : option A)
           (new : option (option A)) : option A :=
  match new with
  | Some (Some v) => Some v
  | Some None => if omitUndefined then old else None
  | None => old
  end.

(** The document after a [$set] of the update's paths, each value cast
    by the setter of its path; [timestamps] stamps [updatedAt]. *)
Definition apply_update (omitUndefined : bool) (now : Date) (u : Update.t)
           (d : t) : t :=
  {| _id := _id d;
     assetName := set_path (assetName d) (option_map JS.trim (Update.assetName u));
     assetType := set_path (assetType d) (Update.assetType u);
     investedAmount := set_path (investedAmount d) (Update.investedAmount u);
     currentValue := set_path (currentValue d) (Update.currentValue u);
     investmentDate :=
       set_path (investmentDate d) (cast_value (Update.investmentDate u));
     owners := set_path (owners d) (Update.owners u);
     description :=
       set_optional omitUndefined (description d)
         (option_map (option_map JS.trim) (Update.description u));
     notes :=
       set_optional omitUndefined (notes d)
         (option_map (option_map JS.trim) (Update.notes u));
     isActive := set_path (isActive d) (Update.isActive u);
     createdAt := createdAt d;
     updatedAt := now |}.

Definition on_path {A} (valid : A -> bool) (v : option A) : bool :=
  match v with
  | Some a => valid a
  | None => true
  end.

(** Update validation, as run under [runValidators]: only the paths
    the update carries are checked, on their cast values. *)
Definition validate_update (u : Update.t) : bool :=
  on_path (fun s => valid_assetName (JS.trim s)) (Update.assetName u)
  && on_path valid_assetType (Update.assetType u)
  && on_path in_range (Update.investedAmount u)
  && on_path in_range (Update.currentValue u)
  && on_path (fun v => maxlength 500 (option_map JS.trim v)) (Update.description u)
  && on_path (fun v => maxlength 1000 (option_map JS.trim v)) (Update.notes u).

Fixpoint replace_first (id : ObjectId) (d' : t) (coll : list t) : list t :=
  match coll with
  | [] => []
  | d :: rest =>
      if N.eqb (_id d) id then d' :: rest
      else d :: replace_first id d' rest
  end.

(** [findByIdAndUpdate(id, update, { new: true, runValidators })]:
    the outer [None] is an error thrown (the id or a value of the update
    cannot be cast, or the update does not pass validation), the inner
    one the [null] returned when no document has the id. *)
Definition findByIdAndUpdate (omitUndefined runValidators : bool) (now : Date)
           (id : Param.t) (u : Update.t) (coll : list t)
  : option (list t * option t) :=
  match id with
  | Param.uncastable => None
  | Param.id id =>
      if cast_fails u then None
      else if runValidators && negb (validate_update u) then None
      else
        match findById id coll with
        | None => Some (coll, None)
        | Some d =>
            let d' := apply_update omitUndefined now u d in
            Some (replace_first id d' coll, Some d')
        end
  end.

End Investment.

(** ** Requests, replies and the store *)

(** The failures a handler answers with, named as in the specification;
    [status] is the HTTP status the code sends with each. *)
Inductive Error :=
| NotFound
| Forbidden
| InvestmentCapExceeded
| ValidationError (paths : list string)
| InvalidOwners
| ForbiddenOwnerSet
| ForbiddenOwnerRemoval
| InternalError.

Definition status (e : Error) : nat :=
  match e with
  | NotFound => 404
  | Forbidden | ForbiddenOwnerSet | ForbiddenOwnerRemoval => 403
  | InvestmentCapExceeded | ValidationError _ | InvalidOwners => 400
  | InternalError => 500
  end.

(** A middleware or handler either answers with a failure or goes on. *)
Definition M (A : Type) : Type := (Error + A)%type.

Definition next {A} (a : A) : M A := inr a.
Definition fail {A} (e : Error) : M A := inl e.

Definition bind {A B} (m : M A) (k : A -> M B) : M B :=
  match m with
  | inl e => inl e
  | inr a => k a
  end.

Declare Scope handler_scope.
Delimit Scope handler_scope with handler.
Notation "x <- m ;; k" := (bind m (fun x => k))
  (at level 61, m at next level, right associativity) : handler_scope.
Notation "m ;;; k" := (bind m (fun _ => k))
  (at level 61, right associativity) : handler_scope.
Local Open Scope handler_scope.

Definition succeeds {A} (m : M A) : Prop := exists a, m = inr a.
Definition fails {A} (m : M A) : Prop := exists e, m = inl e.

(** [req.body] of a create or update: every path may be absent;
    [owners] is [None] also when it is not an array. *)
Module Body.

Record t := mk
  { assetName : option string;
    assetType : option string;
    investedAmount : option Q;
    currentValue : option Q;
    investmentDate : option DateString.t;
    description : option string;
    notes : option string;
    owners : option (list Owner.t) }.

End Body.

Record Store := mkStore
  { users : list User.t;
    investments : list Investment.t }.

(** ** middleware/auth.js *)

Module Auth.

(** [canAccessInvestment]: on success the investment is left in
    [req.investment].  On a parameter that cannot be cast [findById]
    throws, and the [catch] answers 500. *)
Definition canAccessInvestment (user : User.t) (investmentId : Param.t)
           (st : Store) : M Investment.t :=
  match investmentId with
  | Param.uncastable => fail InternalError
  | Param.id investmentId =>
      match Investment.findById investmentId (investments st) with
      | None => fail NotFound
      | Some investment =>
          match User.role user with
          | admin => next investment
          | viewer =>
              if negb (JS.includes (Investment.owners investment) (User._id user))
              then fail Forbidden
              else next investment
          end
      end
  end.

(** [validateInvestmentAmount]; an absent [investedAmount] compares
    false with the cap. *)
Definition validateInvestmentAmount (user : User.t) (body : Body.t) : M unit :=
  let over_cap :=
    match Body.investedAmount body with
    | Some investedAmount => JS.gt investedAmount 1000000
    | None => false
    end in
  if negb (Role_eqb (User.role user) admin) && over_cap
  then fail InvestmentCapExceeded
  else next tt.

End Auth.

(** ** routes/investments.js *)

Module Investments.

Definition isLength (min max : nat) (s : string) : bool :=
  (min <=? String.length s) && (String.length s <=? max).

Definition isFloat (min max : Q) (x : Q) : bool :=
  Qle_bool min x && Qle_bool x max.

Definition check (path : string) (ok : bool) : list string :=
  if ok then [] else [path].

(** The sanitizer of the chain: [body('assetName').trim()]. *)
Definition sanitize (body : Body.t) : Body.t :=
  {| Body.assetName := option_map JS.trim (Body.assetName body);
     Body.assetType := Body.assetType body;
     Body.investedAmount := Body.investedAmount body;
     Body.currentValue := Body.currentValue body;
     Body.investmentDate := Body.investmentDate body;
     Body.description := Body.description body;
     Body.notes := Body.notes body;
     Body.owners := Body.owners body |}.

(** The path of the element of [owners] at an index, as the wildcard
    [owners.*] reports it. *)
Definition owner_path (i : nat) : string :=
  ("owners[" ++ NilEmpty.string_of_uint (Nat.to_uint i) ++ "]")%string.

(** [body('owners.*').isMongoId()], element by element from index [i]. *)
Fixpoint check_owners (i : nat) (owners : list Owner.t) : list string :=
  match owners with
  | [] => []
  | o :: owners' =>
      check (owner_path i) (Owner.isMongoId o) ++ check_owners (S i) owners'
  end.

(** [investmentValidation]: the paths that fail, in the order of the
    chain.  An absent path is validated as the empty string unless it
    is [optional()]. *)
Definition investmentValidation (body : Body.t) : list string :=
  check "assetName"
    (match Body.assetName body with
     | Some s => isLength 1 100 (JS.trim s)
     | None => false
     end)
  ++ check "assetType"
    (match Body.assetType body with
     | Some s => existsb (String.eqb s) Investment.assetTypes
     | None => false
     end)
  ++ check "investedAmount"
    (match Body.investedAmount body with
     | Some x => isFloat 0 1000000000 x
     | None => false
     end)
  ++ check "currentValue"
    (match Body.currentValue body with
     | Some x => isFloat 0 1000000000 x
     | None => false
     end)
  ++ check "investmentDate"
    (match Body.investmentDate body with
     | Some s => DateString.isISO8601 s
     | None => true
     end)
  ++ check "description"
    (match Body.description body with
     | Some s => isLength 0 500 s
     | None => true
     end)
  ++ check "notes"
    (match Body.notes body with
     | Some s => isLength 0 1000 s
     | None => true
     end)
  ++ check "owners"
    (match Body.owners body with
     | Some l => 1 <=? List.length l
     | None => false
     end)
  ++ match Body.owners body with
     | Some l => check_owners 0 l
     | None => []
     end.

(** [validationResult(req)] at the head of a handler. *)
Definition validationResult (body : Body.t) : M Body.t :=
  match investmentValidation body with
  | [] => next (sanitize body)
  | errors => fail (ValidationError errors)
  end.

(** Using a value that the body does not carry throws, and the
    handler's [catch] answers 500. *)
Definition defined {A} (x : option A) : M A :=
  match x with
  | Some a => next a
  | None => fail InternalError
  end.

(** [User.find({ _id: { $in: owners }, isActive: true })], on the
    owners as the query has cast them. *)
Definition findOwners (owners : list ObjectId) (us : list User.t) : list User.t :=
  filter (fun u => JS.includes owners (User._id u) && User.isActive u) us.

(** The cast of the owners by that query: it throws on an element that
    cannot be cast. *)
Definition castOwners (owners : list Owner.t) : M (list ObjectId) :=
  match Owner.castAll owners with
  | Some ids => next ids
  | None => fail InternalError
  end.

(** [investmentDate || new Date()], as the cast of the path leaves it:
    a date that passed the chain is truthy. *)
Definition dateOrNow (now : Date) (investmentDate : option DateString.t)
  : option Date :=
  match investmentDate with
  | Some s => DateString.cast s
  | None => Some now
  end.

(** The filter of [GET /]. *)
Definition listQuery (user : User.t) : Investment.Query :=
  {| Investment.q_isActive := Some true;
     Investment.q_owners :=
       match User.role user with
       | admin => None
       | viewer => Some (User._id user)
       end |}.

(** [GET /] *)
Definition get_root (user : User.t) (st : Store) : list Investment.t :=
  Investment.DateSort.sort (Investment.find (listQuery user) (investments st)).

(** [GET /:id] *)
Definition get_by_id (user : User.t) (id : Param.t) (st : Store)
  : M Investment.t :=
  _ <- Auth.canAccessInvestment user id st ;;
  match id with
  | Param.uncastable => fail InternalError
  | Param.id id =>
      match Investment.findById id (investments st) with
      | None => fail NotFound
      | Some investment => next investment
      end
  end.

(** [POST /] at time [now] *)
Definition post_root (now : Date) (user : User.t) (body : Body.t) (st : Store)
  : M (Store * Investment.t) :=
  Auth.validateInvestmentAmount user body ;;;
  body <- validationResult body ;;
  owners <- defined (Body.owners body) ;;
  ids <- castOwners owners ;;
  let ownerUsers := findOwners ids (users st) in
  if negb (List.length ownerUsers =? List.length owners)
  then fail InvalidOwners
  else if negb (Role_eqb (User.role user) admin)
          && negb (Owner.includes owners (User._id user))
  then fail ForbiddenOwnerSet
  else
    assetName <- defined (Body.assetName body) ;;
    assetType <- defined (Body.assetType body) ;;
    investedAmount <- defined (Body.investedAmount body) ;;
    currentValue <- defined (Body.currentValue body) ;;
    let investmentDate := dateOrNow now (Body.investmentDate body) in
    match Investment.save now assetName assetType investedAmount currentValue
            investmentDate (Body.description body) (Body.notes body) ids
            (investments st) with
    | None => fail InternalError
    | Some (coll, investment) =>
        next ({| users := users st; investments := coll |}, investment)
    end.

(** [PUT /:id] at time [now] *)
Definition put_by_id (omitUndefined : bool) (now : Date) (user : User.t)
           (id : Param.t) (body : Body.t) (st : Store)
  : M (Store * option Investment.t) :=
  _ <- Auth.canAccessInvestment user id st ;;
  Auth.validateInvestmentAmount user body ;;;
  body <- validationResult body ;;
  owners <- defined (Body.owners body) ;;
  ids <- castOwners owners ;;
  let ownerUsers := findOwners ids (users st) in
  if negb (List.length ownerUsers =? List.length owners)
  then fail InvalidOwners
  else if negb (Role_eqb (User.role user) admin)
          && negb (Owner.includes owners (User._id user))
  then fail ForbiddenOwnerRemoval
  else
    let update :=
      {| Investment.Update.assetName := Body.assetName body;
         Investment.Update.assetType := Body.assetType body;
         Investment.Update.investedAmount := Body.investedAmount body;
         Investment.Update.currentValue := Body.currentValue body;
         Investment.Update.investmentDate :=
           Some (dateOrNow now (Body.investmentDate body));
         Investment.Update.description := Some (Body.description body);
         Investment.Update.notes := Some (Body.notes body);
         Investment.Update.owners := Some ids;
         Investment.Update.isActive := None |} in
    match Investment.findByIdAndUpdate omitUndefined true now id update
            (investments st) with
    | None => fail InternalError
    | Some (coll, updatedInvestment) =>
        next ({| users := users st; investments := coll |}, updatedInvestment)
    end.

(** The update document of [DELETE /:id]: [{ isActive: false }]. *)
Definition deactivate : Investment.Update.t :=
  {| Investment.Update.assetName := None;
     Investment.Update.assetType := None;
     Investment.Update.investedAmount := None;
     Investment.Update.currentValue := None;
     Investment.Update.investmentDate := None;
     Investment.Update.description := None;
     Investment.Update.notes := None;
     Investment.Update.owners := None;
     Investment.Update.isActive := Some false |}.

(** [DELETE /:id] at time [now] *)
Definition delete_by_id (omitUndefined : bool) (now : Date) (user : User.t)
           (id : Param.t) (st : Store) : M (Store * unit) :=
  _ <- Auth.canAccessInvestment user id st ;;
  match Investment.findByIdAndUpdate omitUndefined false now id deactivate
          (investments st) with
  | None => fail InternalError
  | Some (coll, _) =>
      next ({| users := users st; investments := coll |}, tt)
  end.

(** [GET /portfolio/summary] *)
Definition get_portfolio_summary (user : User.t) (st : Store)
  : Investment.Totals.t * list Investment.Alloc.t :=
  let userId :=
    match User.role user with
    | admin => None
    | viewer => Some (User._id user)
    end in
  let portfolioTotals := Investment.getPortfolioTotals userId (investments st) in
  let allocationByType := Investment.getAllocationByType userId (investments st) in
  (portfolioTotals, allocationByType).

End Investments.

(** ** routes/dashboard.js *)

Module Dashboard.

(** The body of the first [forEach]. *)
Definition summary_step (summary : Investment.Totals.t)
           (investment : Investment.t) : Investment.Totals.t :=
  {| Investment.Totals.totalInvested :=
       (Investment.Totals.totalInvested summary
        + Investment.investedAmount investment)%Q;
     Investment.Totals.totalCurrentValue :=
       (Investment.Totals.totalCurrentValue summary
        + Investment.currentValue investment)%Q;
     Investment.Totals.totalGain :=
       (Investment.Totals.totalGain summary
        + Investment.absoluteGain investment)%Q;
     Investment.Totals.totalRoi := Investment.Totals.totalRoi summary;
     Investment.Totals.investmentCount :=
       Investment.Totals.investmentCount summary |}.

(** The body of the second [forEach]: the object [allocation] is the
    list of its properties in creation order, which is the order in
    which [Object.keys] enumerates them. *)
Fixpoint allocation_step (investment : Investment.t)
         (allocation : list Investment.Alloc.t) : list Investment.Alloc.t :=
  match allocation with
  | [] =>
      [Investment.alloc_add
         (Investment.alloc_empty (Investment.assetType investment)) investment]
  | entry :: allocation' =>
      if String.eqb (Investment.Alloc._id entry) (Investment.assetType investment)
      then Investment.alloc_add entry investment :: allocation'
      else entry :: allocation_step investment allocation'
  end.

Record Data := mkData
  { summary : Investment.Totals.t;
    allocation : list Investment.Alloc.t;
    investments_of : list Investment.t }.

(** [GET /] *)
Definition get_root (user : User.t) (st : Store) : Data :=
  let investments :=
    Investment.find {| Investment.q_isActive := Some true;
                       Investment.q_owners := None |} (investments st) in
  let summary :=
    fold_left summary_step investments
      {| Investment.Totals.totalInvested := 0;
         Investment.Totals.totalCurrentValue := 0;
         Investment.Totals.totalGain := 0;
         Investment.Totals.totalRoi := Some 0%Q;
         Investment.Totals.investmentCount := List.length investments |} in
  let summary :=
    if JS.gt (Investment.Totals.totalInvested summary) 0
    then {| Investment.Totals.totalInvested := Investment.Totals.totalInvested summary;
            Investment.Totals.totalCurrentValue :=
              Investment.Totals.totalCurrentValue summary;
            Investment.Totals.totalGain := Investment.Totals.totalGain summary;
            Investment.Totals.totalRoi :=
              JS.times (JS.div (Investment.Totals.totalGain summary)
                               (Investment.Totals.totalInvested summary)) 100;
            Investment.Totals.investmentCount :=
              Investment.Totals.investmentCount summary |}
    else summary in
  let allocation :=
    fold_left (fun allocation investment => allocation_step investment allocation)
      investments [] in
  {| summary := summary;
     allocation := allocation;
     investments_of := investments |}.

End Dashboard.

(** ** The service as a transition system *)

Inductive Request :=
| ListInvestments
| GetInvestment (id : Param.t)
| CreateInvestment (body : Body.t)
| UpdateInvestment (id : Param.t) (body : Body.t)
| DeleteInvestment (id : Param.t)
| PortfolioSummary
| DashboardAnalytics.

(** A request as it reaches the router: who sends it, and when. *)
Record Call := mkCall
  { at_time : Date;
    actor : User.t;
    request : Request }.

Definition store_after {A} (st : Store) (m : M (Store * A)) : Store :=
  match m with
  | inr (st', _) => st'
  | inl _ => st
  end.

Section Service.

Variable omitUndefined : bool.

(** The store a call leaves behind. *)
Definition step (st : Store) (c : Call) : Store :=
  match request c with
  | CreateInvestment body =>
      store_after st (Investments.post_root (at_time c) (actor c) body st)
  | UpdateInvestment id body =>
      store_after st
        (Investments.put_by_id omitUndefined (at_time c) (actor c) id body st)
  | DeleteInvestment id =>
      store_after st
        (Investments.delete_by_id omitUndefined (at_time c) (actor c) id st)
  | ListInvestments | GetInvestment _ | PortfolioSummary | DashboardAnalytics => st
  end.

Definition run (st : Store) (calls : list Call) : Store :=
  fold_left step calls st.

End Service.

(** * Properties *)

(** ** Derived metrics *)

Definition sumQ (l : list Q) : Q := fold_right Qplus 0%Q l.

Lemma Qeq_bool_false_neq (x y : Q) : ~ x == y -> Qeq_bool x y = false.
Proof.
  intros H. destruct (Qeq_bool x y) eqn:E; [|reflexivity].
  apply Qeq_bool_iff in E. contradiction.
Qed.

Lemma div_nonzero (a b : Q) : ~ b == 0 -> JS.div a b = Some (a / b)%Q.
Proof. intros H. unfold JS.div. now rewrite (Qeq_bool_false_neq H). Qed.

Lemma gt_true_iff (a b : Q) : JS.gt a b = true <-> b < a.
Proof.
  unfold JS.gt. rewrite negb_true_iff. split; intros H.
  - apply Qnot_le_lt. intros L. apply Qle_bool_iff in L. congruence.
  - destruct (Qle_bool a b) eqn:E; [|reflexivity].
    apply Qle_bool_iff in E. exfalso. apply (Qlt_not_le _ _ H E).
Qed.

(** C2.  The virtuals of an investment: [absoluteGain] is
    [currentValue - investedAmount]; [roi] is [0] when [investedAmount]
    is zero and [(currentValue - investedAmount) / investedAmount * 100]
    otherwise; [roi] is always a finite number, that is, the division is
    never carried out on a zero divisor. *)
Theorem roi_absoluteGain_formulas (i : Investment.t) :
  Investment.absoluteGain i
  = (Investment.currentValue i - Investment.investedAmount i)%Q
  /\ (Investment.investedAmount i == 0 -> Investment.roi i = Some 0%Q)
  /\ (~ Investment.investedAmount i == 0 ->
      Investment.roi i
      = Some ((Investment.currentValue i - Investment.investedAmount i)
              / Investment.investedAmount i * 100)%Q
      /\ JS.div (Investment.currentValue i - Investment.investedAmount i)
                (Investment.investedAmount i) <> None)
  /\ Investment.roi i <> None.
Proof.
  unfold Investment.roi, Investment.absoluteGain.
  repeat split.
  - intros H. apply Qeq_bool_iff in H. now rewrite H.
  - rewrite (Qeq_bool_false_neq H), (div_nonzero _ H). reflexivity.
  - rewrite (div_nonzero _ H). discriminate.
  - destruct (Qeq_bool (Investment.investedAmount i) 0) eqn:E; [discriminate|].
    rewrite (div_nonzero _ (Qeq_bool_neq _ _ E)). discriminate.
Qed.

(** ** Portfolio totals *)

Lemma group_fold_spec (l : list Investment.t) (acc : Investment.Group.t) :
  let r := fold_left Investment.group_step l acc in
  Investment.Group.totalInvested r
  == Investment.Group.totalInvested acc + sumQ (map Investment.investedAmount l)
  /\ Investment.Group.totalCurrentValue r
     == Investment.Group.totalCurrentValue acc
        + sumQ (map Investment.currentValue l)
  /\ Investment.Group.totalGain r
     == Investment.Group.totalGain acc + sumQ (map Investment.absoluteGain l)
  /\ Investment.Group.investmentCount r
     = (Investment.Group.investmentCount acc + List.length l)%nat.
Proof.
  revert acc. induction l as [|d l IH]; intros acc; cbn -[Qplus Qminus].
  - repeat split; solve [ring | lia].
  - destruct (IH (Investment.group_step acc d)) as (H1 & H2 & H3 & H4).
    cbn -[Qplus Qminus] in *. rewrite H1, H2, H3, H4.
    unfold Investment.absoluteGain, sumQ in *. repeat split; solve [ring | lia].
Qed.

Lemma sumQ_nonneg (l : list Q) : Forall (fun x => 0 <= x) l -> 0 <= sumQ l.
Proof.
  induction 1 as [|x l Hx _ IH]; cbn -[Qplus].
  - apply Qle_refl.
  - change 0 with (0 + 0). apply Qplus_le_compat; assumption.
Qed.

(** C3.  [getPortfolioTotals] over the active documents the filter
    lets through, all of them within the schema's lower bound on
    [investedAmount]: the three totals are the sums over those
    documents, the count is their number, [totalRoi] is [0] when
    [totalInvested] is zero and [totalGain / totalInvested * 100]
    otherwise, and with no document every field is [0]. *)
Theorem getPortfolioTotals_sums (userId : option ObjectId)
        (coll : list Investment.t) :
  let docs := Investment.find (Investment.matchStage userId) coll in
  let t := Investment.getPortfolioTotals userId coll in
  Forall (fun d => 0 <= Investment.investedAmount d) docs ->
  Investment.Totals.totalInvested t == sumQ (map Investment.investedAmount docs)
  /\ Investment.Totals.totalCurrentValue t
     == sumQ (map Investment.currentValue docs)
  /\ Investment.Totals.totalGain t
     == sumQ (map (fun d => Investment.currentValue d - Investment.investedAmount d)
                  docs)
  /\ Investment.Totals.investmentCount t = List.length docs
  /\ (Investment.Totals.totalInvested t == 0 ->
      Investment.Totals.totalRoi t = Some 0%Q)
  /\ (~ Investment.Totals.totalInvested t == 0 ->
      Investment.Totals.totalRoi t
      = Some (Investment.Totals.totalGain t / Investment.Totals.totalInvested t
              * 100)%Q)
  /\ (docs = [] ->
      t = {| Investment.Totals.totalInvested := 0;
             Investment.Totals.totalCurrentValue := 0;
             Investment.Totals.totalGain := 0;
             Investment.Totals.totalRoi := Some 0%Q;
             Investment.Totals.investmentCount := 0 |}).
Proof.
  intros docs t Hpos. subst t. unfold Investment.getPortfolioTotals.
  change (Investment.find (Investment.matchStage userId) coll) with docs.
  clearbody docs.
  destruct (group_fold_spec docs Investment.group_init) as (H1 & H2 & H3 & H4).
  remember (fold_left Investment.group_step docs Investment.group_init) as r eqn:Er.
  unfold Investment.group_init in H1, H2, H3, H4.
  destruct docs as [|d docs'].
  - cbn. repeat split; try reflexivity; intros H; now elim H.
  - unfold Investment.group_null. rewrite <- Er.
    set (docs := d :: docs') in *.
    cbn [Investment.Group.totalInvested Investment.Group.totalCurrentValue
         Investment.Group.totalGain Investment.Group.investmentCount
         Investment.Totals.totalInvested Investment.Totals.totalCurrentValue
         Investment.Totals.totalGain Investment.Totals.investmentCount
         Investment.Totals.totalRoi] in *.
    assert (Hge : 0 <= Investment.Group.totalInvested r).
    { rewrite H1, Qplus_0_l. apply sumQ_nonneg.
      rewrite Forall_map. exact Hpos. }
    repeat split.
    + rewrite H1. ring.
    + rewrite H2. ring.
    + rewrite H3. unfold Investment.absoluteGain. ring.
    + exact H4.
    + intros Hz. destruct (JS.gt (Investment.Group.totalInvested r) 0) eqn:G;
        [|reflexivity].
      apply gt_true_iff in G. rewrite Hz in G. now apply Qlt_irrefl in G.
    + intros Hnz.
      assert (G : JS.gt (Investment.Group.totalInvested r) 0 = true).
      { apply gt_true_iff. apply Qle_lt_or_eq in Hge. destruct Hge as [L|E].
        - exact L.
        - elim Hnz. symmetry. exact E. }
      rewrite G, (div_nonzero _ Hnz). reflexivity.
    + intros E. unfold docs in E. discriminate E.
Qed.

(** ** Listing *)

Lemma includes_In (l : list ObjectId) (x : ObjectId) :
  JS.includes l x = true <-> In x l.
Proof.
  unfold JS.includes. rewrite existsb_exists. split.
  - intros (y & Hy & E). apply N.eqb_eq in E. now subst.
  - intros H. exists x. split; [exact H | apply N.eqb_refl].
Qed.

Lemma includes_false (l : list ObjectId) (x : ObjectId) :
  JS.includes l x = false <-> ~ In x l.
Proof.
  rewrite <- includes_In. destruct (JS.includes l x); split; intros H.
  - discriminate.
  - now elim H.
  - discriminate.
  - reflexivity.
Qed.

Lemma find_In (q : Investment.Query) (coll : list Investment.t) (d : Investment.t) :
  In d (Investment.find q coll) <-> In d coll /\ Investment.matches q d = true.
Proof. apply filter_In. Qed.

Lemma DateSort_In (l : list Investment.t) (d : Investment.t) :
  In d (Investment.DateSort.sort l) <-> In d l.
Proof.
  split; apply Permutation_in;
    [apply Permutation_sym|]; apply Investment.DateSort.Permuted_sort.
Qed.

(** Descending by [investmentDate]: every document is dated no earlier
    than all the documents after it. *)
Definition date_descending (l : list Investment.t) : Prop :=
  StronglySorted
    (fun a b => (Investment.investmentDate b <= Investment.investmentDate a)%Z) l.

Lemma DateSort_descending (l : list Investment.t) :
  date_descending (Investment.DateSort.sort l).
Proof.
  unfold date_descending.
  assert (T : Transitive (fun a b => is_true (Investment.ByDateDesc.leb a b))).
  { intros a b c. unfold Investment.ByDateDesc.leb, Investment.date_desc_leb, is_true.
    rewrite !Z.leb_le. lia. }
  pose proof (Investment.DateSort.StronglySorted_sort l T) as S.
  induction S as [|a l' _ IH Hall]; constructor.
  - exact IH.
  - eapply Forall_impl; [|exact Hall].
    intros b Hb. now apply Z.leb_le.
Qed.

(** C1.  What [GET /api/investments] returns: to a viewer, only active
    investments that count the viewer among their owners; to every
    actor, a list in descending order of [investmentDate]. *)
Theorem list_viewer_owned_active_and_sorted (user : User.t) (st : Store) :
  (User.role user = viewer ->
   forall d, In d (Investments.get_root user st) ->
             Investment.isActive d = true
             /\ In (User._id user) (Investment.owners d))
  /\ date_descending (Investments.get_root user st).
Proof.
  unfold Investments.get_root. split.
  - intros Hrole d Hd. apply DateSort_In, find_In in Hd. destruct Hd as [_ Hm].
    unfold Investment.matches, Investments.listQuery in Hm. rewrite Hrole in Hm.
    cbn in Hm. apply andb_true_iff in Hm. destruct Hm as [Ha Ho]. split.
    + now apply eqb_prop in Ha.
    + now apply includes_In.
  - apply DateSort_descending.
Qed.

(** X2.  The list is complete as well: it is a rearrangement of the active
    documents the actor may read. *)
Lemma list_complete (user : User.t) (st : Store) :
  Permutation
    (filter (fun d => Investment.isActive d
                      && Investment.canUserModify d (User._id user) (User.role user))
            (investments st))
    (Investments.get_root user st).
Proof.
  unfold Investments.get_root.
  eapply Permutation_trans; [|apply Investment.DateSort.Permuted_sort].
  unfold Investment.find. erewrite filter_ext; [apply Permutation_refl|].
  intros d. unfold Investment.matches, Investments.listQuery, Investment.canUserModify.
  destruct (User.role user); cbn; now destruct (Investment.isActive d).
Qed.

(** ** Existence before authorization *)

Lemma canAccessInvestment_cases (user : User.t) (id : ObjectId) (st : Store) :
  match Auth.canAccessInvestment user id st with
  | inl e =>
      (e = NotFound /\ Investment.findById id (investments st) = None)
      \/ (e = Forbidden
          /\ exists investment,
              Investment.findById id (investments st) = Some investment
              /\ User.role user <> admin
              /\ ~ In (User._id user) (Investment.owners investment))
  | inr investment =>
      Investment.findById id (investments st) = Some investment
      /\ Investment.canUserModify investment (User._id user) (User.role user) = true
  end.
Proof.
  unfold Auth.canAccessInvestment, Investment.canUserModify.
  destruct (Investment.findById id (investments st)) as [investment|]; [|now left].
  destruct (User.role user) eqn:R; [now split|].
  destruct (JS.includes (Investment.owners investment) (User._id user)) eqn:I; cbn.
  - now split.
  - right. split; [reflexivity|]. exists investment.
    repeat split; [discriminate | now apply includes_false].
Qed.

Lemma canAccessInvestment_missing (user : User.t) (id : ObjectId) (st : Store) :
  Investment.findById id (investments st) = None ->
  Auth.canAccessInvestment user id st = fail NotFound.
Proof. intros H. unfold Auth.canAccessInvestment. now rewrite H. Qed.

(** What makes an actor a stranger to an investment. *)
Definition stranger (user : User.t) (id : ObjectId) (st : Store) : Prop :=
  exists investment,
    Investment.findById id (investments st) = Some investment
    /\ User.role user <> admin
    /\ ~ In (User._id user) (Investment.owners investment).

Lemma canAccessInvestment_forbidden (user : User.t) (id : ObjectId) (st : Store) :
  Auth.canAccessInvestment user id st = fail Forbidden -> stranger user id st.
Proof.
  intros H. pose proof (canAccessInvestment_cases user id st) as C.
  rewrite H in C. destruct C as [[E _]|[_ C]]; [discriminate | exact C].
Qed.

Ltac chain_cases :=
  repeat match goal with
         | H : context [match ?x with _ => _ end] |- _ =>
             destruct x eqn:?; cbn in H; try discriminate H
         | H : context [if ?x then _ else _] |- _ =>
             destruct x eqn:?; cbn in H; try discriminate H
         end.

Ltac unpack :=
  repeat match goal with
         | H : inr _ = inr _ |- _ => injection H as H
         | H : inl _ = inl _ |- _ => injection H as H
         | H : Some _ = Some _ |- _ => injection H as H
         | H : (_, _) = (_, _) |- _ => injection H as ? ?
         | H : ?x = _ |- _ => is_var x; subst x
         | H : _ = ?x |- _ => is_var x; subst x
         end.

Lemma canAccessInvestment_stranger (user : User.t) (id : ObjectId) (st : Store) :
  stranger user id st -> Auth.canAccessInvestment user id st = fail Forbidden.
Proof.
  intros (investment & F & R & Hnot). unfold Auth.canAccessInvestment.
  rewrite F. destruct (User.role user); [now elim R|].
  apply includes_false in Hnot. now rewrite Hnot.
Qed.

(** A failure of the access check is the answer of all three handlers
    on [/:id]. *)
Lemma access_failure_answers (omitUndefined : bool) (now : Date) (user : User.t)
      (id : Param.t) (body : Body.t) (st : Store) (e : Error) :
  Auth.canAccessInvestment user id st = fail e ->
  Investments.get_by_id user id st = fail e
  /\ Investments.put_by_id omitUndefined now user id body st = fail e
  /\ Investments.delete_by_id omitUndefined now user id st = fail e.
Proof.
  intros H.
  unfold Investments.get_by_id, Investments.put_by_id, Investments.delete_by_id.
  rewrite H. repeat split.
Qed.

(** The id of an investment that the actor is refused with [Forbidden],
    by any of the three handlers: the refusal comes from the access
    check. *)
Lemma forbidden_is_stranger (omitUndefined : bool) (now : Date) (user : User.t)
      (id : Param.t) (body : Body.t) (st : Store) :
  Investments.get_by_id user id st = fail Forbidden
  \/ Investments.put_by_id omitUndefined now user id body st = fail Forbidden
  \/ Investments.delete_by_id omitUndefined now user id st = fail Forbidden ->
  exists i, id = Param.id i /\ stranger user i st.
Proof.
  intros H. destruct id as [i|].
  - exists i. split; [reflexivity|]. apply canAccessInvestment_forbidden.
    destruct (Auth.canAccessInvestment user i st) as [e|investment] eqn:A.
    + destruct (@access_failure_answers omitUndefined now user i body st e A)
        as (G & P & D).
      rewrite G, P, D in H. destruct H as [H|[H|H]]; now injection H as ->.
    + exfalso.
      unfold Investments.get_by_id, Investments.put_by_id, Investments.delete_by_id,
        Investment.findByIdAndUpdate, Investments.castOwners,
        Auth.validateInvestmentAmount, Investments.validationResult,
        Investments.defined, bind, fail, next in H.
      rewrite A in H. destruct H as [H|[H|H]]; chain_cases; congruence.
  - exfalso. destruct H as [H|[H|H]]; discriminate H.
Qed.

(** C9, amended.  [GET], [PUT] and [DELETE] on [/:id], for an id that is
    a well-formed ObjectId: when no investment has the id the answer is
    [NotFound], whoever asks; when the investment exists and the actor
    is neither an admin nor one of its owners the answer is
    [Forbidden], and [Forbidden] is answered in no other case.  For an
    id that cannot be cast the answer is an internal error. *)
Theorem not_found_precedes_forbidden (omitUndefined : bool) (now : Date)
        (user : User.t) (id : Param.t) (body : Body.t) (st : Store) :
  let answer (e : Error) :=
    Investments.get_by_id user id st = fail e
    /\ Investments.put_by_id omitUndefined now user id body st = fail e
    /\ Investments.delete_by_id omitUndefined now user id st = fail e in
  (forall i, id = Param.id i ->
             Investment.findById i (investments st) = None -> answer NotFound)
  /\ (forall i, id = Param.id i -> stranger user i st -> answer Forbidden)
  /\ (id = Param.uncastable -> answer InternalError)
  /\ (Investments.get_by_id user id st = fail Forbidden ->
      exists i, id = Param.id i /\ stranger user i st)
  /\ (Investments.put_by_id omitUndefined now user id body st = fail Forbidden ->
      exists i, id = Param.id i /\ stranger user i st)
  /\ (Investments.delete_by_id omitUndefined now user id st = fail Forbidden ->
      exists i, id = Param.id i /\ stranger user i st).
Proof.
  intros answer. subst answer. cbv beta.
  split; [|split; [|split; [|split; [|split]]]].
  - intros i -> F. apply access_failure_answers.
    now apply canAccessInvestment_missing.
  - intros i -> S. apply access_failure_answers.
    now apply canAccessInvestment_stranger.
  - intros ->. now apply access_failure_answers.
  - intros H. apply (@forbidden_is_stranger omitUndefined now user id body st). now left.
  - intros H. apply (@forbidden_is_stranger omitUndefined now user id body st).
    right. now left.
  - intros H. apply (@forbidden_is_stranger omitUndefined now user id body st).
    right. now right.
Qed.

(** ** Validation *)

Section Trim.

Definition headed (s : string) : Prop :=
  match s with
  | EmptyString => True
  | String c _ => JS.is_space c = false
  end.

Lemma trim_start_headed (s : string) : headed (JS.trim_start s).
Proof.
  induction s as [|c s IH]; cbn; [exact I|].
  destruct (JS.is_space c) eqn:E; [exact IH | exact E].
Qed.

Lemma trim_start_of_headed (s : string) : headed s -> JS.trim_start s = s.
Proof. destruct s as [|c s]; cbn; [reflexivity|]. now intros ->. Qed.

Lemma trim_end_headed (s : string) : headed s -> headed (JS.trim_end s).
Proof.
  destruct s as [|c s]; cbn; [exact id|]. intros H.
  destruct (JS.trim_end s); [rewrite H|]; exact H.
Qed.

Lemma trim_end_idempotent (s : string) :
  JS.trim_end (JS.trim_end s) = JS.trim_end s.
Proof.
  induction s as [|c s IH]; cbn; [reflexivity|].
  destruct (JS.trim_end s) as [|d t] eqn:E.
  - destruct (JS.is_space c) eqn:Ec; cbn; [reflexivity | now rewrite Ec].
  - cbn [JS.trim_end]. cbn [JS.trim_end] in IH. now rewrite IH.
Qed.

Lemma trim_idempotent (s : string) : JS.trim (JS.trim s) = JS.trim s.
Proof.
  unfold JS.trim.
  rewrite trim_start_of_headed by apply trim_end_headed, trim_start_headed.
  apply trim_end_idempotent.
Qed.

Lemma trim_start_length (s : string) :
  (String.length (JS.trim_start s) <= String.length s)%nat.
Proof.
  induction s as [|c s IH]; cbn; [lia|].
  destruct (JS.is_space c); cbn; lia.
Qed.

Lemma trim_end_length (s : string) :
  (String.length (JS.trim_end s) <= String.length s)%nat.
Proof.
  induction s as [|c s IH]; cbn; [lia|].
  destruct (JS.trim_end s); [destruct (JS.is_space c)|]; cbn in *; lia.
Qed.

Lemma trim_length (s : string) : (String.length (JS.trim s) <= String.length s)%nat.
Proof.
  unfold JS.trim. etransitivity; [apply trim_end_length | apply trim_start_length].
Qed.

End Trim.

Lemma check_nil (path : string) (ok : bool) :
  Investments.check path ok = [] <-> ok = true.
Proof. destruct ok; cbn; split; intros H; congruence. Qed.

Lemma check_owners_nil (i : nat) (owners : list Owner.t) :
  Investments.check_owners i owners = [] <-> forallb Owner.isMongoId owners = true.
Proof.
  revert i. induction owners as [|o owners IH]; intros i; cbn; [tauto|].
  rewrite andb_true_iff, <- (IH (S i)). destruct (Owner.isMongoId o); cbn.
  - tauto.
  - split; [discriminate | intros [H _]; discriminate H].
Qed.

(** A body that passes every rule of the chain. *)
Record passes (body : Body.t) (assetName assetType : string)
       (investedAmount currentValue : Q) (owners : list Owner.t) : Prop :=
  { has_assetName : Body.assetName body = Some assetName;
    has_assetType : Body.assetType body = Some assetType;
    has_investedAmount : Body.investedAmount body = Some investedAmount;
    has_currentValue : Body.currentValue body = Some currentValue;
    has_owners : Body.owners body = Some owners;
    ok_assetName : Investments.isLength 1 100 (JS.trim assetName) = true;
    ok_assetType : Investment.valid_assetType assetType = true;
    ok_investedAmount : Investment.in_range investedAmount = true;
    ok_currentValue : Investment.in_range currentValue = true;
    ok_investmentDate :
      match Body.investmentDate body with
      | Some s => DateString.isISO8601 s
      | None => true
      end = true;
    ok_description : Investment.maxlength 500 (Body.description body) = true;
    ok_notes : Investment.maxlength 1000 (Body.notes body) = true;
    ok_owners : (1 <= List.length owners)%nat;
    ok_owner_ids : forallb Owner.isMongoId owners = true }.

Lemma investmentValidation_passes (body : Body.t) :
  Investments.investmentValidation body = [] ->
  exists assetName assetType investedAmount currentValue owners,
    passes body assetName assetType investedAmount currentValue owners.
Proof.
  unfold Investments.investmentValidation. intros H.
  repeat (apply app_eq_nil in H; destruct H as [?H H]).
  repeat match goal with
         | H : Investments.check _ _ = [] |- _ => apply check_nil in H
         end.
  destruct (Body.assetName body) as [assetName|] eqn:E1; [|discriminate].
  destruct (Body.assetType body) as [assetType|] eqn:E2; [|discriminate].
  destruct (Body.investedAmount body) as [investedAmount|] eqn:E3; [|discriminate].
  destruct (Body.currentValue body) as [currentValue|] eqn:E4; [|discriminate].
  destruct (Body.owners body) as [owners|] eqn:E5; [|discriminate].
  apply check_owners_nil in H.
  exists assetName, assetType, investedAmount, currentValue, owners.
  constructor; try assumption; try reflexivity.
  now apply Nat.leb_le.
Qed.

Lemma passes_investmentValidation (body : Body.t) assetName assetType
      investedAmount currentValue owners :
  passes body assetName assetType investedAmount currentValue owners ->
  Investments.investmentValidation body = [].
Proof.
  intros [E1 E2 E3 E4 E5 H1 H2 H3 H4 Hd H5 H6 H7 H8].
  unfold Investments.investmentValidation.
  rewrite E1, E2, E3, E4, E5, H1, Hd.
  change (existsb (String.eqb assetType) Investment.assetTypes)
    with (Investment.valid_assetType assetType).
  change (Investments.isFloat 0 1000000000 investedAmount)
    with (Investment.in_range investedAmount).
  change (Investments.isFloat 0 1000000000 currentValue)
    with (Investment.in_range currentValue).
  rewrite H2, H3, H4. apply Nat.leb_le in H7. rewrite H7.
  rewrite (proj2 (check_owners_nil 0 owners) H8).
  destruct (Body.description body) as [s|]; destruct (Body.notes body) as [s'|];
    cbn in H5, H6; unfold Investments.isLength; cbn; rewrite ?H5, ?H6; reflexivity.
Qed.

Lemma maxlength_trim (n : nat) (s : option string) :
  Investment.maxlength n s = true ->
  Investment.maxlength n (option_map JS.trim s) = true.
Proof.
  destruct s as [s|]; cbn; [|reflexivity]. rewrite !Nat.leb_le.
  pose proof (trim_length s). lia.
Qed.

Lemma valid_assetName_trim (s : string) :
  Investments.isLength 1 100 (JS.trim s) = true ->
  Investment.valid_assetName (JS.trim (JS.trim s)) = true.
Proof.
  rewrite trim_idempotent. unfold Investments.isLength, Investment.valid_assetName.
  rewrite !andb_true_iff, negb_true_iff, !Nat.leb_le, Nat.eqb_neq. lia.
Qed.

(** ** The owners of a body *)

Lemma castAll_length (owners : list Owner.t) (ids : list ObjectId) :
  Owner.castAll owners = Some ids -> List.length ids = List.length owners.
Proof.
  revert ids. induction owners as [|o owners IH]; cbn; intros ids H.
  - now injection H as <-.
  - destruct (Owner.cast o); [|discriminate].
    destruct (Owner.castAll owners) as [ids'|]; [|discriminate].
    injection H as <-. cbn. now rewrite (IH ids').
Qed.

Lemma castAll_hex (ids : list ObjectId) :
  Owner.castAll (map Owner.hex ids) = Some ids.
Proof. induction ids as [|i ids IH]; cbn; [reflexivity|]. now rewrite IH. Qed.

(** The text of an id among the owners of a body. *)
Lemma Owner_includes_In (owners : list Owner.t) (id : ObjectId) :
  Owner.includes owners id = true <-> In (Owner.hex id) owners.
Proof.
  unfold Owner.includes. rewrite existsb_exists. split.
  - intros ([id'|b c] & Ho & E); [|discriminate].
    apply N.eqb_eq in E. now subst.
  - intros H. exists (Owner.hex id). split; [exact H | apply N.eqb_refl].
Qed.

Lemma Owner_includes_false (owners : list Owner.t) (id : ObjectId) :
  Owner.includes owners id = false <-> ~ In (Owner.hex id) owners.
Proof.
  rewrite <- Owner_includes_In. destruct (Owner.includes owners id); split; intros H.
  - discriminate.
  - now elim H.
  - discriminate.
  - reflexivity.
Qed.

(** An id whose text is among the owners is among the owners as cast. *)
Lemma Owner_includes_cast (owners : list Owner.t) (ids : list ObjectId)
      (id : ObjectId) :
  Owner.castAll owners = Some ids ->
  Owner.includes owners id = true -> In id ids.
Proof.
  revert ids. induction owners as [|o owners IH]; cbn; intros ids H I;
    [discriminate|].
  destruct (Owner.cast o) as [i|] eqn:C; [|discriminate].
  destruct (Owner.castAll owners) as [ids'|]; [|discriminate].
  injection H as <-. apply orb_true_iff in I. destruct I as [I|I].
  - destruct o as [id'|b c]; [|discriminate]. apply N.eqb_eq in I.
    cbn in C. injection C as <-. now left.
  - right. now apply IH.
Qed.

(** ** Creating and updating *)

(** The document [POST /] stores for a body that passes, with its date
    and its owners as cast. *)
Definition created (now : Date) (body : Body.t) (assetName assetType : string)
           (investedAmount currentValue : Q) (investmentDate : Date)
           (owners : list ObjectId) (coll : list Investment.t) : Investment.t :=
  Investment.cast
    {| Investment._id := Investment.fresh_id coll;
       Investment.assetName := JS.trim assetName;
       Investment.assetType := assetType;
       Investment.investedAmount := investedAmount;
       Investment.currentValue := currentValue;
       Investment.investmentDate := investmentDate;
       Investment.owners := owners;
       Investment.description := Body.description body;
       Investment.notes := Body.notes body;
       Investment.isActive := true;
       Investment.createdAt := now;
       Investment.updatedAt := now |}.

Lemma created_valid now body assetName assetType investedAmount currentValue
      owners investmentDate ids coll :
  passes body assetName assetType investedAmount currentValue owners ->
  Investment.validate
    (created now body assetName assetType investedAmount currentValue
             investmentDate ids coll)
  = true.
Proof.
  intros P. unfold Investment.validate, created, Investment.cast.
  cbn [Investment.assetName Investment.assetType Investment.investedAmount
       Investment.currentValue Investment.description Investment.notes].
  rewrite (valid_assetName_trim _ (ok_assetName P)), (ok_assetType P),
    (ok_investedAmount P), (ok_currentValue P),
    (maxlength_trim _ _ (ok_description P)), (maxlength_trim _ _ (ok_notes P)).
  reflexivity.
Qed.

(** The owner rule of create and update: the actor is not an admin, and
    the text of the actor's id is not among the owners of the body. *)
Definition owner_rule (user : User.t) (owners : list Owner.t) : bool :=
  negb (Role_eqb (User.role user) admin)
  && negb (Owner.includes owners (User._id user)).

(** What [POST /] answers once the cap and the chain have passed. *)
Lemma post_root_validated now user body st assetName assetType investedAmount
      currentValue owners :
  passes body assetName assetType investedAmount currentValue owners ->
  Auth.validateInvestmentAmount user body = next tt ->
  Investments.post_root now user body st
  = match Owner.castAll owners with
    | None => fail InternalError
    | Some ids =>
        if negb (List.length (Investments.findOwners ids (users st))
                 =? List.length owners)
        then fail InvalidOwners
        else if owner_rule user owners then fail ForbiddenOwnerSet
        else
          match Investments.dateOrNow now (Body.investmentDate body) with
          | None => fail InternalError
          | Some investmentDate =>
              let investment :=
                created now body assetName assetType investedAmount currentValue
                        investmentDate ids (investments st) in
              next ({| users := users st;
                       investments := investments st ++ [investment] |},
                    investment)
          end
    end.
Proof.
  intros P Hcap. unfold Investments.post_root.
  rewrite Hcap. unfold Investments.validationResult.
  rewrite (passes_investmentValidation P). cbn [bind next].
  unfold Investments.sanitize.
  cbn [Body.owners Body.assetName Body.assetType Body.investedAmount
       Body.currentValue Body.investmentDate Body.description Body.notes].
  rewrite (has_owners P), (has_assetName P), (has_assetType P),
    (has_investedAmount P), (has_currentValue P).
  cbn [Investments.defined bind next option_map]. unfold Investments.castOwners.
  destruct (Owner.castAll owners) as [ids|]; [|reflexivity]. cbn [bind next].
  destruct (negb _); [reflexivity|].
  fold (owner_rule user owners). destruct (owner_rule user owners); [reflexivity|].
  unfold Investment.save.
  destruct (Investments.dateOrNow now (Body.investmentDate body))
    as [investmentDate|]; [|reflexivity].
  fold (created now body assetName assetType investedAmount currentValue
                investmentDate ids (investments st)).
  now rewrite (@created_valid now body assetName assetType investedAmount
                 currentValue owners investmentDate ids (investments st) P).
Qed.

Lemma post_root_accepts now user body st assetName assetType investedAmount
      currentValue owners ids investmentDate :
  passes body assetName assetType investedAmount currentValue owners ->
  Auth.validateInvestmentAmount user body = next tt ->
  Owner.castAll owners = Some ids ->
  List.length (Investments.findOwners ids (users st)) = List.length owners ->
  owner_rule user owners = false ->
  Investments.dateOrNow now (Body.investmentDate body) = Some investmentDate ->
  let investment :=
    created now body assetName assetType investedAmount currentValue
            investmentDate ids (investments st) in
  Investments.post_root now user body st
  = next ({| users := users st; investments := investments st ++ [investment] |},
          investment).
Proof.
  intros P Hcap Hids Hlen Hrule Hdate investment.
  rewrite (@post_root_validated now user body st assetName assetType
             investedAmount currentValue owners P Hcap).
  now rewrite Hids, Hlen, Nat.eqb_refl, Hrule, Hdate.
Qed.

(** The update document [PUT /:id] sends for a body that passes. *)
Definition replacement (body : Body.t) (assetName assetType : string)
           (investedAmount currentValue : Q) (investmentDate : Date)
           (owners : list ObjectId) : Investment.Update.t :=
  {| Investment.Update.assetName := Some (JS.trim assetName);
     Investment.Update.assetType := Some assetType;
     Investment.Update.investedAmount := Some investedAmount;
     Investment.Update.currentValue := Some currentValue;
     Investment.Update.investmentDate := Some (Some investmentDate);
     Investment.Update.description := Some (Body.description body);
     Investment.Update.notes := Some (Body.notes body);
     Investment.Update.owners := Some owners;
     Investment.Update.isActive := None |}.

Lemma replacement_valid body assetName assetType investedAmount currentValue
      owners investmentDate ids :
  passes body assetName assetType investedAmount currentValue owners ->
  Investment.validate_update
    (replacement body assetName assetType investedAmount currentValue
                 investmentDate ids)
  = true.
Proof.
  intros P. unfold Investment.validate_update, replacement.
  cbn [Investment.Update.assetName Investment.Update.assetType
       Investment.Update.investedAmount Investment.Update.currentValue
       Investment.Update.description Investment.Update.notes Investment.on_path].
  rewrite (valid_assetName_trim _ (ok_assetName P)), (ok_assetType P),
    (ok_investedAmount P), (ok_currentValue P),
    (maxlength_trim _ _ (ok_description P)), (maxlength_trim _ _ (ok_notes P)).
  reflexivity.
Qed.

(** What [PUT /:id] answers once the access check, the cap and the
    chain have passed. *)
Lemma put_by_id_validated omitUndefined now user (id : ObjectId) body st stored
      assetName assetType investedAmount currentValue owners :
  Auth.canAccessInvestment user id st = next stored ->
  passes body assetName assetType investedAmount currentValue owners ->
  Auth.validateInvestmentAmount user body = next tt ->
  Investments.put_by_id omitUndefined now user id body st
  = match Owner.castAll owners with
    | None => fail InternalError
    | Some ids =>
        if negb (List.length (Investments.findOwners ids (users st))
                 =? List.length owners)
        then fail InvalidOwners
        else if owner_rule user owners then fail ForbiddenOwnerRemoval
        else
          match Investments.dateOrNow now (Body.investmentDate body) with
          | None => fail InternalError
          | Some investmentDate =>
              let updated :=
                Investment.apply_update omitUndefined now
                  (replacement body assetName assetType investedAmount
                               currentValue investmentDate ids) stored in
              next ({| users := users st;
                       investments :=
                         Investment.replace_first id updated (investments st) |},
                    Some updated)
          end
    end.
Proof.
  intros Hacc P Hcap. unfold Investments.put_by_id.
  rewrite Hacc, Hcap. unfold Investments.validationResult.
  rewrite (passes_investmentValidation P). cbn [bind next].
  unfold Investments.sanitize.
  cbn [Body.owners Body.assetName Body.assetType Body.investedAmount
       Body.currentValue Body.investmentDate Body.description Body.notes].
  rewrite (has_owners P), (has_assetName P), (has_assetType P),
    (has_investedAmount P), (has_currentValue P).
  cbn [Investments.defined bind next option_map]. unfold Investments.castOwners.
  destruct (Owner.castAll owners) as [ids|]; [|reflexivity]. cbn [bind next].
  destruct (negb _); [reflexivity|].
  fold (owner_rule user owners). destruct (owner_rule user owners); [reflexivity|].
  unfold Investment.findByIdAndUpdate, Investment.cast_fails.
  cbn [Investment.Update.investmentDate].
  destruct (Investments.dateOrNow now (Body.investmentDate body))
    as [investmentDate|]; [|reflexivity].
  fold (replacement body assetName assetType investedAmount currentValue
                    investmentDate ids).
  rewrite (@replacement_valid body assetName assetType investedAmount currentValue
             owners investmentDate ids P).
  cbn [negb andb].
  pose proof (canAccessInvestment_cases user id st) as C. rewrite Hacc in C.
  destruct C as [-> _]. reflexivity.
Qed.

Lemma put_by_id_accepts omitUndefined now user (id : ObjectId) body st stored
      assetName assetType investedAmount currentValue owners ids investmentDate :
  Auth.canAccessInvestment user id st = next stored ->
  passes body assetName assetType investedAmount currentValue owners ->
  Auth.validateInvestmentAmount user body = next tt ->
  Owner.castAll owners = Some ids ->
  List.length (Investments.findOwners ids (users st)) = List.length owners ->
  owner_rule user owners = false ->
  Investments.dateOrNow now (Body.investmentDate body) = Some investmentDate ->
  let updated :=
    Investment.apply_update omitUndefined now
      (replacement body assetName assetType investedAmount currentValue
                   investmentDate ids)
      stored in
  Investments.put_by_id omitUndefined now user id body st
  = next ({| users := users st;
             investments := Investment.replace_first id updated (investments st) |},
          Some updated).
Proof.
  intros Hacc P Hcap Hids Hlen Hrule Hdate updated.
  rewrite (@put_by_id_validated omitUndefined now user id body st stored assetName
             assetType investedAmount currentValue owners Hacc P Hcap).
  now rewrite Hids, Hlen, Nat.eqb_refl, Hrule, Hdate.
Qed.

(** ** The investment cap *)

Lemma cap_exceeded (user : User.t) (body : Body.t) (x : Q) :
  User.role user = viewer ->
  Body.investedAmount body = Some x ->
  1000000 < x ->
  Auth.validateInvestmentAmount user body = fail InvestmentCapExceeded.
Proof.
  intros R E H. unfold Auth.validateInvestmentAmount. rewrite R, E.
  apply gt_true_iff in H. now rewrite H.
Qed.

Lemma cap_admin (user : User.t) (body : Body.t) :
  User.role user = admin -> Auth.validateInvestmentAmount user body = next tt.
Proof. intros R. unfold Auth.validateInvestmentAmount. now rewrite R. Qed.

Lemma cap_within (user : User.t) (body : Body.t) (x : Q) :
  Body.investedAmount body = Some x ->
  x <= 1000000 ->
  Auth.validateInvestmentAmount user body = next tt.
Proof.
  intros E H. unfold Auth.validateInvestmentAmount. rewrite E.
  destruct (JS.gt x 1000000) eqn:G.
  - apply gt_true_iff in G. exfalso. apply (Qlt_not_le _ _ G H).
  - now rewrite andb_false_r.
Qed.

Lemma over_bound_rejected (body : Body.t) (x : Q) :
  Body.investedAmount body = Some x ->
  1000000000 < x ->
  exists errors,
    Investments.validationResult body = fail (ValidationError errors)
    /\ In "investedAmount"%string errors.
Proof.
  intros E H.
  assert (Hin : In "investedAmount"%string (Investments.investmentValidation body)).
  { unfold Investments.investmentValidation. rewrite E.
    assert (F : Investments.isFloat 0 1000000000 x = false).
    { unfold Investments.isFloat. apply andb_false_iff. right.
      destruct (Qle_bool x 1000000000) eqn:L; [|reflexivity].
      apply Qle_bool_iff in L. exfalso. apply (Qlt_not_le _ _ H L). }
    rewrite F. rewrite !in_app_iff. right. right. left. now left. }
  unfold Investments.validationResult.
  destruct (Investments.investmentValidation body) as [|e errors]; [easy|].
  now exists (e :: errors).
Qed.

(** The counting argument behind the owner lookup: the users found are
    as many as the ids asked for when the ids are distinct and each is
    the id of an active user. *)
Definition existing_active (us : list User.t) (owners : list ObjectId) : Prop :=
  NoDup owners
  /\ forall o, In o owners ->
               exists u, In u us /\ User._id u = o /\ User.isActive u = true.

Lemma filter_keeps_ids_distinct (keep : User.t -> bool) (us : list User.t) :
  NoDup (map User._id us) -> NoDup (map User._id (filter keep us)).
Proof.
  induction us as [|u us IH]; cbn; [trivial|].
  intros H. inversion H as [|? ? Hn Hd]; subst.
  destruct (keep u); cbn; [constructor|]; auto.
  intros Hin. apply Hn. apply in_map_iff in Hin. destruct Hin as (v & E & Hv).
  apply filter_In in Hv. apply in_map_iff. exists v. tauto.
Qed.

Lemma findOwners_length (us : list User.t) (owners : list ObjectId) :
  NoDup (map User._id us) ->
  existing_active us owners ->
  List.length (Investments.findOwners owners us) = List.length owners.
Proof.
  intros Hus [Hnd Hex].
  rewrite <- (length_map User._id).
  apply Permutation_length, NoDup_Permutation.
  - now apply filter_keeps_ids_distinct.
  - exact Hnd.
  - intros o. unfold Investments.findOwners. rewrite in_map_iff. split.
    + intros (u & E & Hu). apply filter_In in Hu. destruct Hu as [_ Hu].
      apply andb_true_iff in Hu. destruct Hu as [Hu _].
      apply includes_In in Hu. now subst.
    + intros Ho. destruct (Hex o Ho) as (u & Hu & E & Ha).
      exists u. split; [exact E|]. apply filter_In. split; [exact Hu|].
      rewrite Ha, andb_true_r. apply includes_In. now subst.
Qed.

(** ** Sample data: the fixtures of the test suite *)

Module Sample.

Local Open Scope string_scope.

Definition adminUser : User.t :=
  {| User._id := 1%N; User.role := admin; User.isActive := true |}.

Definition viewerUser : User.t :=
  {| User._id := 2%N; User.role := viewer; User.isActive := true |}.

Definition investment (id : ObjectId) (assetName assetType : string)
           (investedAmount currentValue : Q) (investmentDate : Date)
           (owners : list ObjectId) (description : string) : Investment.t :=
  {| Investment._id := id;
     Investment.assetName := assetName;
     Investment.assetType := assetType;
     Investment.investedAmount := investedAmount;
     Investment.currentValue := currentValue;
     Investment.investmentDate := investmentDate;
     Investment.owners := owners;
     Investment.description := Some description;
     Investment.notes := None;
     Investment.isActive := true;
     Investment.createdAt := 1672531200000%Z;
     Investment.updatedAt := 1672531200000%Z |}.

Definition startupA : Investment.t :=
  investment 10%N "Startup A" "Startup" 100000 120000 1672531200000%Z [1%N] "Test startup".

Definition cryptoB : Investment.t :=
  investment 11%N "Crypto Fund B" "Crypto Fund" 50000 45000 1675209600000%Z
             [2%N]
             "Test crypto fund".

Definition farmlandC : Investment.t :=
  investment 12%N "Farmland C" "Farmland" 200000 220000 1677628800000%Z
             [1%N; 2%N]
             "Test farmland".

Definition store : Store :=
  {| users := [adminUser; viewerUser];
     investments := [startupA; cryptoB; farmlandC] |}.

(** A complete body with [investedAmount] just above the cap. *)
Definition overCap : Body.t :=
  {| Body.assetName := Some "Large Investment";
     Body.assetType := Some "Startup";
     Body.investedAmount := Some 1000001%Q;
     Body.currentValue := Some 1100000%Q;
     Body.investmentDate := None;
     Body.description := None;
     Body.notes := None;
     Body.owners := Some [Owner.hex 2%N] |}.

(** The same body with [investedAmount] above the schema's bound. *)
Definition overBound : Body.t :=
  {| Body.assetName := Some "Large Investment";
     Body.assetType := Some "Startup";
     Body.investedAmount := Some 2000000000%Q;
     Body.currentValue := Some 1100000%Q;
     Body.investmentDate := None;
     Body.description := None;
     Body.notes := None;
     Body.owners := Some [Owner.hex 2%N] |}.

(** A viewer's body that names only the admin as owner. *)
Definition notMine : Body.t :=
  {| Body.assetName := Some "Test Investment";
     Body.assetType := Some "Startup";
     Body.investedAmount := Some 100000%Q;
     Body.currentValue := Some 110000%Q;
     Body.investmentDate := None;
     Body.description := Some "Test investment";
     Body.notes := None;
     Body.owners := Some [Owner.hex 1%N] |}.

Definition today : Date := 1680000000000%Z.

(** The body of the test "should update investment as admin". *)
Definition partialUpdate : Body.t :=
  {| Body.assetName := Some "Updated Investment";
     Body.assetType := None;
     Body.investedAmount := None;
     Body.currentValue := Some 120000%Q;
     Body.investmentDate := None;
     Body.description := None;
     Body.notes := None;
     Body.owners := None |}.

End Sample.

Lemma fails_bind_l {A B} (m : M A) (k : A -> M B) : fails m -> fails (bind m k).
Proof. intros [e ->]. now exists e. Qed.

Lemma fails_fail {A} (e : Error) : fails (@fail A e).
Proof. now exists e. Qed.

(** The claim C4 as it stands does not hold of updates: the access
    check runs before the cap.  A viewer who sends 1,000,001 for an id
    that no investment has is answered [NotFound], for the investment
    of somebody else [Forbidden], and for an id that cannot be cast
    with an internal error. *)
Lemma cap_update_behind_access_check :
  User.role Sample.viewerUser = viewer
  /\ Body.investedAmount Sample.overCap = Some 1000001%Q
  /\ Investments.put_by_id true Sample.today Sample.viewerUser 99%N Sample.overCap
       Sample.store
     = fail NotFound
  /\ Investments.put_by_id true Sample.today Sample.viewerUser 10%N Sample.overCap
       Sample.store
     = fail Forbidden
  /\ Investments.put_by_id true Sample.today Sample.viewerUser Param.uncastable
       Sample.overCap Sample.store
     = fail InternalError
  /\ Investments.put_by_id true Sample.today Sample.viewerUser 99%N Sample.overCap
       Sample.store
     <> fail InvestmentCapExceeded.
Proof. repeat split; try reflexivity. discriminate. Qed.

Lemma findOwners_cast_length (us : list User.t) (owners : list Owner.t)
      (ids : list ObjectId) :
  NoDup (map User._id us) ->
  Owner.castAll owners = Some ids ->
  existing_active us ids ->
  List.length (Investments.findOwners ids us) = List.length owners.
Proof.
  intros Hus Hids Hex. rewrite (findOwners_length Hus Hex).
  now apply castAll_length.
Qed.

(** C4, amended.  With [investedAmount] equal to 1,000,001 a viewer's
    create fails with [InvestmentCapExceeded].  A viewer's update fails
    too, and the access check decides how: with an internal error when
    the id cannot be cast, with [NotFound] when no investment has the
    id, with [Forbidden] when the viewer is not an owner of the
    investment, and with [InvestmentCapExceeded] when the viewer is.
    An admin's create succeeds when the body passes the chain, its
    owners are cast to distinct ids of active users and its date, if it
    has one, can be cast; so does an admin's update of an existing
    investment.  With [investedAmount] above 1,000,000,000 create and
    update fail for every actor. *)
Theorem investment_cap (omitUndefined : bool) (now : Date) (user : User.t)
        (id : Param.t) (body : Body.t) (st : Store) (x : Q) :
  Body.investedAmount body = Some x ->
  (User.role user = viewer -> x == 1000001 ->
   Investments.post_root now user body st = fail InvestmentCapExceeded
   /\ (id = Param.uncastable ->
       Investments.put_by_id omitUndefined now user id body st
       = fail InternalError)
   /\ (forall i, id = Param.id i ->
                 Investment.findById i (investments st) = None ->
                 Investments.put_by_id omitUndefined now user id body st
                 = fail NotFound)
   /\ (forall i stored,
         id = Param.id i ->
         Investment.findById i (investments st) = Some stored ->
         ~ In (User._id user) (Investment.owners stored) ->
         Investments.put_by_id omitUndefined now user id body st = fail Forbidden)
   /\ (forall i stored,
         id = Param.id i ->
         Investment.findById i (investments st) = Some stored ->
         In (User._id user) (Investment.owners stored) ->
         Investments.put_by_id omitUndefined now user id body st
         = fail InvestmentCapExceeded))
  /\ (User.role user = admin -> x == 1000001 ->
      forall assetName assetType currentValue owners ids investmentDate,
        passes body assetName assetType x currentValue owners ->
        Owner.castAll owners = Some ids ->
        NoDup (map User._id (users st)) ->
        existing_active (users st) ids ->
        Investments.dateOrNow now (Body.investmentDate body) = Some investmentDate ->
        succeeds (Investments.post_root now user body st)
        /\ forall i stored,
            id = Param.id i ->
            Investment.findById i (investments st) = Some stored ->
            succeeds (Investments.put_by_id omitUndefined now user id body st))
  /\ (1000000000 < x ->
      fails (Investments.post_root now user body st)
      /\ fails (Investments.put_by_id omitUndefined now user id body st)).
Proof.
  intros E. split; [|split].
  - intros R Hx.
    assert (Hcap : Auth.validateInvestmentAmount user body
                   = fail InvestmentCapExceeded).
    { apply (cap_exceeded user body R E). rewrite Hx. reflexivity. }
    split; [|split; [|split; [|split]]].
    + unfold Investments.post_root. now rewrite Hcap.
    + intros ->. reflexivity.
    + intros i -> F. unfold Investments.put_by_id.
      now rewrite (canAccessInvestment_missing user i st F).
    + intros i stored -> F Hnot. unfold Investments.put_by_id.
      rewrite (canAccessInvestment_stranger (user := user) (id := i) (st := st));
        [reflexivity|].
      exists stored. split; [exact F|]. split; [|exact Hnot]. now rewrite R.
    + intros i stored -> F Hin. unfold Investments.put_by_id.
      unfold Auth.canAccessInvestment. rewrite F, R.
      apply includes_In in Hin. rewrite Hin. cbn [negb bind next].
      now rewrite Hcap.
  - intros R Hx assetName assetType currentValue owners ids investmentDate
           P Hids Hus Hex Hdate.
    assert (Hrule : owner_rule user owners = false).
    { unfold owner_rule. now rewrite R. }
    pose proof (@findOwners_cast_length (users st) owners ids Hus Hids Hex) as Hlen.
    split.
    + eexists. eapply post_root_accepts; eauto using cap_admin.
    + intros i stored -> Hfind. eexists.
      eapply put_by_id_accepts; eauto using cap_admin.
      unfold Auth.canAccessInvestment. now rewrite Hfind, R.
  - intros Hx. split.
    + unfold Investments.post_root.
      destruct (Auth.validateInvestmentAmount user body) as [e|[]];
        [apply fails_fail|]. cbn [bind].
      destruct (over_bound_rejected body E Hx) as (errors & -> & _).
      apply fails_fail.
    + unfold Investments.put_by_id.
      destruct (Auth.canAccessInvestment user id st) as [e|stored];
        [apply fails_fail|]. cbn [bind].
      destruct (Auth.validateInvestmentAmount user body) as [e|[]];
        [apply fails_fail|]. cbn [bind].
      destruct (over_bound_rejected body E Hx) as (errors & -> & _).
      apply fails_fail.
Qed.

Lemma sample_owner_active :
  existing_active (users Sample.store) [2%N].
Proof.
  split.
  - repeat constructor. intros [].
  - intros o [<-|[]]. exists Sample.viewerUser. cbn. tauto.
Qed.

Lemma sample_users_distinct : NoDup (map User._id (users Sample.store)).
Proof. cbn. repeat constructor; cbn; intuition discriminate. Qed.

Lemma overCap_passes :
  passes Sample.overCap "Large Investment" "Startup" 1000001 1100000
         [Owner.hex 2%N].
Proof. constructor; reflexivity. Qed.

Lemma investment_cap_witness :
  Investments.post_root Sample.today Sample.viewerUser Sample.overCap Sample.store
  = fail InvestmentCapExceeded
  /\ Investments.put_by_id true Sample.today Sample.viewerUser 11%N Sample.overCap
       Sample.store
     = fail InvestmentCapExceeded
  /\ succeeds
       (Investments.post_root Sample.today Sample.adminUser Sample.overCap
          Sample.store)
  /\ succeeds
       (Investments.put_by_id true Sample.today Sample.adminUser 11%N Sample.overCap
          Sample.store)
  /\ fails
       (Investments.post_root Sample.today Sample.adminUser Sample.overBound
          Sample.store)
  /\ fails
       (Investments.put_by_id true Sample.today Sample.adminUser 11%N
          Sample.overBound Sample.store).
Proof.
  destruct (@investment_cap true Sample.today Sample.viewerUser 11%N Sample.overCap
              Sample.store 1000001 eq_refl) as (V & _ & _).
  destruct (V eq_refl (Qeq_refl _)) as (V1 & _ & _ & _ & V2).
  destruct (@investment_cap true Sample.today Sample.adminUser 11%N Sample.overCap
              Sample.store 1000001 eq_refl) as (_ & A & _).
  destruct (A eq_refl (Qeq_refl _) _ _ _ _ [2%N] Sample.today overCap_passes eq_refl
              sample_users_distinct sample_owner_active eq_refl) as [A1 A2].
  destruct (@investment_cap true Sample.today Sample.adminUser 11%N
              Sample.overBound Sample.store 2000000000 eq_refl) as (_ & _ & B).
  destruct (B eq_refl) as [B1 B2].
  exact (conj V1 (conj (V2 11%N Sample.cryptoB eq_refl eq_refl (or_introl eq_refl))
           (conj A1 (conj (A2 11%N Sample.cryptoB eq_refl eq_refl) (conj B1 B2))))).
Defined.

(** ** The owner rule on create *)

Lemma cap_error (user : User.t) (body : Body.t) (e : Error) :
  Auth.validateInvestmentAmount user body = fail e -> e = InvestmentCapExceeded.
Proof.
  unfold Auth.validateInvestmentAmount.
  destruct (_ && _); [|discriminate]. intros H. now injection H.
Qed.

(** What [POST /] answers to a viewer whose id, as a text, is not among
    the owners of the body: the owner rule is the last of four checks. *)
Lemma post_root_excluded now user body st owners :
  User.role user = viewer ->
  Body.owners body = Some owners ->
  ~ In (Owner.hex (User._id user)) owners ->
  Investments.post_root now user body st
  = match Auth.validateInvestmentAmount user body with
    | inl _ => fail InvestmentCapExceeded
    | inr _ =>
        match Investments.investmentValidation body with
        | [] =>
            match Owner.castAll owners with
            | None => fail InternalError
            | Some ids =>
                if List.length (Investments.findOwners ids (users st))
                   =? List.length owners
                then fail ForbiddenOwnerSet
                else fail InvalidOwners
            end
        | errors => fail (ValidationError errors)
        end
    end.
Proof.
  intros R E Hnot.
  destruct (Auth.validateInvestmentAmount user body) as [e|[]] eqn:Hcap.
  { unfold Investments.post_root. now rewrite Hcap, (cap_error _ _ Hcap). }
  destruct (Investments.investmentValidation body) as [|p errors] eqn:V.
  2: { unfold Investments.post_root, Investments.validationResult.
       now rewrite Hcap, V. }
  destruct (investmentValidation_passes _ V) as (a & b & x & y & o & P).
  rewrite (@post_root_validated now user body st a b x y o P Hcap).
  pose proof (has_owners P) as Eo. rewrite E in Eo. injection Eo as <-.
  destruct (Owner.castAll owners) as [ids|]; [|reflexivity].
  destruct (_ =? _); cbn [negb]; [|reflexivity].
  unfold owner_rule. apply Owner_includes_false in Hnot. now rewrite R, Hnot.
Qed.

(** X16.  A viewer whose id, as the text that [toString()] gives, is not
    among the owners of the body never creates an investment, whatever
    else the body holds and whatever the store. *)
Lemma viewer_excluding_self_never_creates now user body st owners :
  User.role user = viewer ->
  Body.owners body = Some owners ->
  ~ In (Owner.hex (User._id user)) owners ->
  fails (Investments.post_root now user body st).
Proof.
  intros R E Hnot.
  rewrite (@post_root_excluded now user body st owners R E Hnot).
  destruct (Auth.validateInvestmentAmount user body); [apply fails_fail|].
  destruct (Investments.investmentValidation body); [|apply fails_fail].
  destruct (Owner.castAll owners); [|apply fails_fail].
  destruct (_ =? _); apply fails_fail.
Qed.

(** C5, amended.  A viewer's create with owners that do not contain the
    text of the viewer's id always fails.  It fails with
    [ForbiddenOwnerSet] exactly when the checks that run before the
    owner rule pass, and with the error of the first of them that does
    not pass otherwise: [InvestmentCapExceeded] of the cap, the
    validation error of the chain, an internal error on an owner that
    cannot be cast, [InvalidOwners] of the owner lookup.  An admin's
    create succeeds whatever the owners, when the body passes the chain,
    the owners are cast to distinct ids of active users and the date, if
    there is one, can be cast. *)
Theorem create_owner_rule (now : Date) (user : User.t) (body : Body.t) (st : Store) :
  (User.role user = viewer ->
   forall owners,
     Body.owners body = Some owners ->
     ~ In (Owner.hex (User._id user)) owners ->
     let passed :=
       Auth.validateInvestmentAmount user body = next tt
       /\ Investments.investmentValidation body = []
       /\ exists ids,
           Owner.castAll owners = Some ids
           /\ List.length (Investments.findOwners ids (users st))
              = List.length owners in
     fails (Investments.post_root now user body st)
     /\ (Investments.post_root now user body st = fail ForbiddenOwnerSet
         <-> passed)
     /\ (Auth.validateInvestmentAmount user body <> next tt ->
         Investments.post_root now user body st = fail InvestmentCapExceeded)
     /\ (Auth.validateInvestmentAmount user body = next tt ->
         Investments.investmentValidation body <> [] ->
         Investments.post_root now user body st
         = fail (ValidationError (Investments.investmentValidation body)))
     /\ (Auth.validateInvestmentAmount user body = next tt ->
         Investments.investmentValidation body = [] ->
         Owner.castAll owners = None ->
         Investments.post_root now user body st = fail InternalError)
     /\ (Auth.validateInvestmentAmount user body = next tt ->
         Investments.investmentValidation body = [] ->
         forall ids,
           Owner.castAll owners = Some ids ->
           List.length (Investments.findOwners ids (users st))
           <> List.length owners ->
           Investments.post_root now user body st = fail InvalidOwners))
  /\ (User.role user = admin ->
      forall assetName assetType investedAmount currentValue owners ids
             investmentDate,
        passes body assetName assetType investedAmount currentValue owners ->
        Owner.castAll owners = Some ids ->
        NoDup (map User._id (users st)) ->
        existing_active (users st) ids ->
        Investments.dateOrNow now (Body.investmentDate body) = Some investmentDate ->
        exists investment,
          Investments.post_root now user body st
          = next ({| users := users st;
                     investments := investments st ++ [investment] |}, investment)
          /\ Investment.owners investment = ids
          /\ Investment.isActive investment = true).
Proof.
  split.
  - intros R owners E Hnot passed. subst passed.
    pose proof (@post_root_excluded now user body st owners R E Hnot) as Q.
    split.
    { rewrite Q.
      destruct (Auth.validateInvestmentAmount user body); [apply fails_fail|].
      destruct (Investments.investmentValidation body); [|apply fails_fail].
      destruct (Owner.castAll owners); [|apply fails_fail].
      destruct (_ =? _); apply fails_fail. }
    split; [|split; [|split; [|split]]].
    + rewrite Q. split.
      * destruct (Auth.validateInvestmentAmount user body) as [e|[]];
          [discriminate|].
        destruct (Investments.investmentValidation body); [|discriminate].
        destruct (Owner.castAll owners) as [ids|]; [|discriminate].
        destruct (_ =? _) eqn:L; [|discriminate]. intros _.
        split; [reflexivity|]. split; [reflexivity|].
        exists ids. split; [reflexivity|]. now apply Nat.eqb_eq.
      * intros (-> & -> & ids & -> & ->). now rewrite Nat.eqb_refl.
    + intros N. rewrite Q.
      destruct (Auth.validateInvestmentAmount user body) as [e|[]];
        [reflexivity | now elim N].
    + intros Hcap N. rewrite Q, Hcap.
      destruct (Investments.investmentValidation body); [now elim N | reflexivity].
    + intros Hcap V C. now rewrite Q, Hcap, V, C.
    + intros Hcap V ids C L. rewrite Q, Hcap, V, C.
      apply Nat.eqb_neq in L. now rewrite L.
  - intros R assetName assetType investedAmount currentValue owners ids
           investmentDate P Hids Hus Hex Hdate.
    eexists. split; [|split].
    + apply (@post_root_accepts now user body st assetName assetType
               investedAmount currentValue owners ids investmentDate P
               (cap_admin user body R) Hids
               (@findOwners_cast_length (users st) owners ids Hus Hids Hex)).
      * unfold owner_rule. now rewrite R.
      * exact Hdate.
    + reflexivity.
    + reflexivity.
Qed.

Lemma notMine_passes :
  passes Sample.notMine "Test Investment" "Startup" 100000 110000 [Owner.hex 1%N].
Proof. constructor; reflexivity. Qed.

Lemma sample_admin_active : existing_active (users Sample.store) [1%N].
Proof.
  split.
  - repeat constructor. intros [].
  - intros o [<-|[]]. exists Sample.adminUser. cbn. tauto.
Qed.

Lemma create_owner_rule_witness :
  Investments.post_root Sample.today Sample.viewerUser Sample.notMine Sample.store
  = fail ForbiddenOwnerSet
  /\ succeeds
       (Investments.post_root Sample.today Sample.adminUser Sample.notMine
          Sample.store).
Proof.
  split.
  - refine (proj2 (proj1 (proj2
              (proj1 (@create_owner_rule Sample.today Sample.viewerUser
                        Sample.notMine Sample.store)
                     eq_refl [Owner.hex 1%N] eq_refl _))) _).
    + cbn. intros [H|[]]. discriminate H.
    + split; [reflexivity|]. split; [reflexivity|].
      exists [1%N]. split; reflexivity.
  - destruct (proj2 (@create_owner_rule Sample.today Sample.adminUser
                       Sample.notMine Sample.store)
                    eq_refl _ _ _ _ _ [1%N] Sample.today notMine_passes eq_refl
                    sample_users_distinct sample_admin_active eq_refl)
      as (investment & H & _).
    eexists. exact H.
Defined.

(** A viewer's body that names only the admin as owner and carries an
    amount above the cap, and one that leaves out the asset name. *)
Definition notMineOverCap : Body.t :=
  {| Body.assetName := Some "Test Investment"%string;
     Body.assetType := Some "Startup"%string;
     Body.investedAmount := Some 2000000%Q;
     Body.currentValue := Some 110000%Q;
     Body.investmentDate := None;
     Body.description := None;
     Body.notes := None;
     Body.owners := Some [Owner.hex 1%N] |}.

Definition notMineUnnamed : Body.t :=
  {| Body.assetName := None;
     Body.assetType := Some "Startup"%string;
     Body.investedAmount := Some 100000%Q;
     Body.currentValue := Some 110000%Q;
     Body.investmentDate := None;
     Body.description := None;
     Body.notes := None;
     Body.owners := Some [Owner.hex 1%N] |}.

(** The claim C5 as it stands does not hold of every create by a viewer
    who is left out of the owners: the cap and the chain run before the
    owner rule, and their errors are answered first. *)
Lemma owner_rule_behind_cap_and_chain :
  User.role Sample.viewerUser = viewer
  /\ ~ In (Owner.hex (User._id Sample.viewerUser)) [Owner.hex 1%N]
  /\ Investments.post_root Sample.today Sample.viewerUser notMineOverCap
       Sample.store
     = fail InvestmentCapExceeded
  /\ Investments.post_root Sample.today Sample.viewerUser notMineUnnamed
       Sample.store
     = fail (ValidationError ["assetName"%string])
  /\ @fail (Store * Investment.t) InvestmentCapExceeded <> fail ForbiddenOwnerSet.
Proof.
  split; [reflexivity|]. split; [|split; [reflexivity|split; [reflexivity|]]].
  - intros [H|[]]. discriminate H.
  - discriminate.
Qed.

(** ** Soft delete *)

Section Collection.

Implicit Types (coll : list Investment.t) (d : Investment.t) (id : ObjectId).

Lemma findById_Some id coll d :
  Investment.findById id coll = Some d -> In d coll /\ Investment._id d = id.
Proof.
  intros H. apply find_some in H. destruct H as [H E].
  apply N.eqb_eq in E. now split.
Qed.

Lemma findById_present id coll :
  In id (map Investment._id coll) ->
  exists d, Investment.findById id coll = Some d.
Proof.
  intros H. apply in_map_iff in H. destruct H as (d & E & Hd).
  destruct (Investment.findById id coll) as [d'|] eqn:F; [now exists d'|].
  exfalso. pose proof (find_none _ _ F d Hd) as N. cbn in N.
  rewrite E, N.eqb_refl in N. discriminate.
Qed.

Lemma findById_app id coll d d' :
  Investment.findById id coll = Some d ->
  Investment.findById id (coll ++ [d']) = Some d.
Proof.
  unfold Investment.findById. induction coll as [|e coll IH]; cbn; [discriminate|].
  destruct (Investment._id e =? id)%N; [trivial | exact IH].
Qed.

Lemma findById_unique id coll d :
  NoDup (map Investment._id coll) ->
  In d coll -> Investment._id d = id ->
  Investment.findById id coll = Some d.
Proof.
  unfold Investment.findById.
  induction coll as [|e coll IH]; cbn; [easy|]. intros ND [->|Hd] E.
  - now rewrite E, N.eqb_refl.
  - inversion ND as [|? ? Hn ND']; subst.
    destruct (Investment._id e =? Investment._id d)%N eqn:X; [|now apply IH].
    apply N.eqb_eq in X. exfalso. apply Hn. rewrite X. now apply in_map.
Qed.

Lemma replace_first_In id d' coll e :
  In e (Investment.replace_first id d' coll) -> e = d' \/ In e coll.
Proof.
  induction coll as [|c coll IH]; cbn; [tauto|].
  destruct (Investment._id c =? id)%N; cbn; intuition.
Qed.

Lemma replace_first_ids id d' coll :
  Investment._id d' = id ->
  map Investment._id (Investment.replace_first id d' coll)
  = map Investment._id coll.
Proof.
  intros E. induction coll as [|c coll IH]; cbn; [reflexivity|].
  destruct (Investment._id c =? id)%N eqn:X; cbn.
  - apply N.eqb_eq in X. now rewrite E, X.
  - now rewrite IH.
Qed.

Lemma replace_first_findById id d d' coll :
  Investment.findById id coll = Some d ->
  Investment._id d' = id ->
  Investment.findById id (Investment.replace_first id d' coll) = Some d'.
Proof.
  unfold Investment.findById. intros F E.
  induction coll as [|c coll IH]; cbn in *; [discriminate|].
  destruct (Investment._id c =? id)%N eqn:X; cbn.
  - now rewrite E, N.eqb_refl.
  - rewrite X. now apply IH.
Qed.

(** Under distinct ids the replacement is the only document that
    carries the id afterwards. *)
Lemma replace_first_only id d' coll e :
  NoDup (map Investment._id coll) ->
  In e (Investment.replace_first id d' coll) ->
  Investment._id e = id -> e = d'.
Proof.
  induction coll as [|c coll IH]; cbn; [easy|]. intros ND He E.
  inversion ND as [|? ? Hn ND']; subst.
  destruct (Investment._id c =? Investment._id e)%N eqn:X; cbn in He.
  - destruct He as [->|He]; [reflexivity|].
    apply N.eqb_eq in X. exfalso. apply Hn. rewrite X. now apply in_map.
  - destruct He as [->|He]; [|now apply IH].
    rewrite N.eqb_refl in X. discriminate.
Qed.

Lemma fresh_id_above coll d :
  In d coll -> (Investment._id d < Investment.fresh_id coll)%N.
Proof.
  unfold Investment.fresh_id. induction coll as [|c coll IH]; cbn; [easy|].
  intros [->|Hd]; [lia|]. specialize (IH Hd). lia.
Qed.

End Collection.

(** What each writing handler does to the store when it succeeds. *)

Lemma post_root_store now user body st st' investment :
  Investments.post_root now user body st = next (st', investment) ->
  users st' = users st
  /\ investments st' = investments st ++ [investment]
  /\ Investment._id investment = Investment.fresh_id (investments st)
  /\ Investment.isActive investment = true
  /\ Investment.validate investment = true.
Proof.
  unfold Investments.post_root, Investments.validationResult, Investments.defined,
    Investment.save, Auth.validateInvestmentAmount, bind, fail, next.
  intros H. chain_cases; unpack; repeat split; assumption.
Qed.

(** A successful [PUT /:id] puts in place of the stored document the
    result of an update that passed the update validators, carries both
    amounts and leaves [isActive] alone. *)
Lemma put_by_id_store omitUndefined now user (id : Param.t) body st st' result :
  Investments.put_by_id omitUndefined now user id body st = next (st', result) ->
  users st' = users st
  /\ exists i d u,
      id = Param.id i
      /\ Investment.findById i (investments st) = Some d
      /\ investments st'
         = Investment.replace_first i
             (Investment.apply_update omitUndefined now u d) (investments st)
      /\ result = Some (Investment.apply_update omitUndefined now u d)
      /\ Investment.Update.isActive u = None
      /\ Investment.validate_update u = true
      /\ Investment.Update.investedAmount u <> None
      /\ Investment.Update.currentValue u <> None.
Proof.
  intros H. destruct id as [i|]; [|discriminate H].
  pose proof (canAccessInvestment_cases user i st) as C.
  destruct (Auth.canAccessInvestment user i st) as [e|stored] eqn:Hacc;
    [unfold Investments.put_by_id in H; rewrite Hacc in H; discriminate H|].
  destruct C as [F _].
  destruct (Auth.validateInvestmentAmount user body) as [e|[]] eqn:Hcap;
    [unfold Investments.put_by_id in H; rewrite Hacc, Hcap in H; discriminate H|].
  destruct (Investments.investmentValidation body) as [|p errors] eqn:V.
  2: { unfold Investments.put_by_id, Investments.validationResult in H.
       rewrite Hacc, Hcap, V in H. discriminate H. }
  destruct (investmentValidation_passes _ V) as (a & b & x & y & o & P).
  rewrite (@put_by_id_validated omitUndefined now user i body st stored a b x y o
             Hacc P Hcap) in H.
  destruct (Owner.castAll o) as [ids|]; [|discriminate H].
  destruct (negb _); [discriminate H|].
  destruct (owner_rule user o); [discriminate H|].
  destruct (Investments.dateOrNow now (Body.investmentDate body)) as [date|];
    [|discriminate H].
  cbv zeta in H. injection H as <- <-.
  split; [reflexivity|]. exists i, stored, (replacement body a b x y date ids).
  split; [reflexivity|]. split; [exact F|]. split; [reflexivity|].
  split; [reflexivity|]. split; [reflexivity|].
  split; [now apply replacement_valid with o|]. split; discriminate.
Qed.

Lemma delete_by_id_store omitUndefined now user (id : Param.t) st st' :
  Investments.delete_by_id omitUndefined now user id st = next (st', tt) ->
  users st' = users st
  /\ exists i d,
      id = Param.id i
      /\ Auth.canAccessInvestment user id st = next d
      /\ Investment.findById i (investments st) = Some d
      /\ investments st'
         = Investment.replace_first i
             (Investment.apply_update omitUndefined now Investments.deactivate d)
             (investments st).
Proof.
  intros H. destruct id as [i|]; [|discriminate H].
  unfold Investments.delete_by_id in H.
  pose proof (canAccessInvestment_cases user i st) as C.
  destruct (Auth.canAccessInvestment user i st) as [e|stored]; [discriminate|].
  destruct C as [F _].
  unfold Investment.findByIdAndUpdate, bind, fail, next in H.
  rewrite F in H. cbn in H. injection H as <-.
  split; [reflexivity|]. now exists i, stored.
Qed.

(** [d] as [DELETE /:id] at time [now] leaves it: [isActive] false, a
    new [updatedAt], every other field as it was. *)
Definition deactivated (now : Date) (d : Investment.t) : Investment.t :=
  {| Investment._id := Investment._id d;
     Investment.assetName := Investment.assetName d;
     Investment.assetType := Investment.assetType d;
     Investment.investedAmount := Investment.investedAmount d;
     Investment.currentValue := Investment.currentValue d;
     Investment.investmentDate := Investment.investmentDate d;
     Investment.owners := Investment.owners d;
     Investment.description := Investment.description d;
     Investment.notes := Investment.notes d;
     Investment.isActive := false;
     Investment.createdAt := Investment.createdAt d;
     Investment.updatedAt := now |}.

Lemma deactivate_frame omitUndefined now d :
  Investment.apply_update omitUndefined now Investments.deactivate d
  = deactivated now d.
Proof. reflexivity. Qed.

(** The state of a soft-deleted id: some document carries it, and every
    document that carries it is inactive. *)
Definition deleted (id : ObjectId) (coll : list Investment.t) : Prop :=
  In id (map Investment._id coll)
  /\ forall d, In d coll -> Investment._id d = id -> Investment.isActive d = false.

Lemma deleted_replace_first x id d d' coll :
  Investment.findById id coll = Some d ->
  Investment._id d' = id ->
  (Investment.isActive d = false -> Investment.isActive d' = false) ->
  deleted x coll -> deleted x (Investment.replace_first id d' coll).
Proof.
  intros F E Hkeep [Hin Hall]. split.
  - now rewrite replace_first_ids.
  - intros e He Ex. apply replace_first_In in He. destruct He as [->|He].
    + apply Hkeep. destruct (findById_Some _ _ F) as [Hd Ed].
      apply Hall; [exact Hd | congruence].
    + now apply Hall.
Qed.

Lemma deleted_app x d' coll :
  Investment._id d' = Investment.fresh_id coll ->
  deleted x coll -> deleted x (coll ++ [d']).
Proof.
  intros E [Hin Hall]. split.
  - rewrite map_app, in_app_iff. now left.
  - intros e He Ex. apply in_app_iff in He. destruct He as [He|[<-|[]]].
    + now apply Hall.
    + exfalso. apply in_map_iff in Hin. destruct Hin as (c & Ec & Hc).
      pose proof (fresh_id_above _ _ Hc) as L. rewrite <- E, Ex, <- Ec in L.
      now apply N.lt_irrefl in L.
Qed.

Lemma step_keeps_deleted omitUndefined x st c :
  deleted x (investments st) ->
  deleted x (investments (step omitUndefined st c)).
Proof.
  intros D. unfold step, store_after. destruct (request c); try exact D.
  - destruct (Investments.post_root _ _ _ _) as [e|[st' investment]] eqn:P;
      [exact D|].
    apply post_root_store in P. destruct P as (_ & -> & E & _).
    now apply deleted_app.
  - destruct (Investments.put_by_id _ _ _ _ _ _) as [e|[st' result]] eqn:P;
      [exact D|].
    apply put_by_id_store in P. destruct P as (_ & i & d & u & _ & F & -> & _ & A & _).
    destruct (findById_Some _ _ F) as [_ E].
    apply (deleted_replace_first _ F); [exact E | | exact D].
    cbn. now rewrite A.
  - destruct (Investments.delete_by_id _ _ _ _ _) as [e|[st' []]] eqn:P;
      [exact D|].
    apply delete_by_id_store in P. destruct P as (_ & i & d & _ & _ & F & ->).
    apply (deleted_replace_first _ F); [|reflexivity|exact D].
    now destruct (findById_Some _ _ F).
Qed.

Lemma run_keeps_deleted omitUndefined x calls st :
  deleted x (investments st) ->
  deleted x (investments (run omitUndefined st calls)).
Proof.
  revert st. induction calls as [|c calls IH]; intros st D; [exact D|].
  cbn. apply IH. now apply step_keeps_deleted.
Qed.

(** *** The bounds of the schema are an invariant of the service *)

Definition within_bounds (d : Investment.t) : Prop :=
  Investment.in_range (Investment.investedAmount d) = true
  /\ Investment.in_range (Investment.currentValue d) = true.

Lemma in_range_bounds (x : Q) :
  Investment.in_range x = true <-> 0 <= x /\ x <= 1000000000.
Proof.
  unfold Investment.in_range. now rewrite andb_true_iff, !Qle_bool_iff.
Qed.

Lemma validate_within_bounds (d : Investment.t) :
  Investment.validate d = true -> within_bounds d.
Proof.
  unfold Investment.validate. rewrite !andb_true_iff.
  intros (((((_ & _) & H1) & H2) & _) & _). now split.
Qed.

Lemma Forall_replace_first (P : Investment.t -> Prop) id d' coll :
  P d' -> Forall P coll -> Forall P (Investment.replace_first id d' coll).
Proof.
  intros Hd H. induction H as [|c coll Hc H IH]; cbn; [constructor|].
  destruct (Investment._id c =? id)%N; constructor; assumption.
Qed.

Lemma step_keeps_bounds omitUndefined st c :
  Forall within_bounds (investments st) ->
  Forall within_bounds (investments (step omitUndefined st c)).
Proof.
  intros B. unfold step, store_after. destruct (request c); try exact B.
  - destruct (Investments.post_root _ _ _ _) as [e|[st' investment]] eqn:P;
      [exact B|].
    apply post_root_store in P. destruct P as (_ & -> & _ & _ & V).
    apply Forall_app. split; [exact B|]. constructor; [|constructor].
    now apply validate_within_bounds.
  - destruct (Investments.put_by_id _ _ _ _ _ _) as [e|[st' result]] eqn:P;
      [exact B|].
    apply put_by_id_store in P.
    destruct P as (_ & i & d & u & _ & F & -> & _ & _ & V & Hx & Hy).
    apply Forall_replace_first; [|exact B].
    unfold Investment.validate_update in V. rewrite !andb_true_iff in V.
    destruct V as (((((_ & _) & V1) & V2) & _) & _).
    unfold within_bounds. cbn.
    destruct (Investment.Update.investedAmount u); [|now elim Hx].
    destruct (Investment.Update.currentValue u); [|now elim Hy].
    now split.
  - destruct (Investments.delete_by_id _ _ _ _ _) as [e|[st' []]] eqn:P;
      [exact B|].
    apply delete_by_id_store in P. destruct P as (_ & i & d & _ & _ & F & ->).
    apply Forall_replace_first; [|exact B].
    destruct (findById_Some _ _ F) as [Hd _].
    rewrite Forall_forall in B. exact (B d Hd).
Qed.

(** Every store the service reaches from one within the bounds is
    within them, so the amounts that an aggregation sums are never
    negative. *)
Lemma run_keeps_bounds omitUndefined calls st :
  Forall within_bounds (investments st) ->
  Forall within_bounds (investments (run omitUndefined st calls)).
Proof.
  revert st. induction calls as [|c calls IH]; intros st B; [exact B|].
  cbn. apply IH. now apply step_keeps_bounds.
Qed.

Lemma bounds_nonnegative (q : Investment.Query) (coll : list Investment.t) :
  Forall within_bounds coll ->
  Forall (fun d => 0 <= Investment.investedAmount d) (Investment.find q coll).
Proof.
  rewrite !Forall_forall. intros B d Hd. apply find_In in Hd.
  destruct (B d (proj1 Hd)) as [H _]. now apply in_range_bounds in H.
Qed.

(** The store with every document of the given id taken out. *)
Definition without (id : ObjectId) (st : Store) : Store :=
  {| users := users st;
     investments :=
       filter (fun d => negb (Investment._id d =? id)%N) (investments st) |}.

Lemma deleted_not_matched x q coll d :
  deleted x coll ->
  Investment.q_isActive q = Some true ->
  In d coll -> Investment.matches q d = true -> Investment._id d <> x.
Proof.
  intros [_ Hall] Hq Hd Hm E. unfold Investment.matches in Hm.
  rewrite Hq, (Hall d Hd E) in Hm. discriminate.
Qed.

Lemma deleted_find x q coll :
  deleted x coll ->
  Investment.q_isActive q = Some true ->
  Investment.find q (filter (fun d => negb (Investment._id d =? x)%N) coll)
  = Investment.find q coll.
Proof.
  intros D Hq. unfold Investment.find.
  assert (H : forall d, In d coll -> Investment.matches q d = true ->
                        negb (Investment._id d =? x)%N = true).
  { intros d Hd Hm. apply negb_true_iff, N.eqb_neq.
    eapply deleted_not_matched; eassumption. }
  clear D. induction coll as [|c coll IH]; cbn; [reflexivity|].
  assert (IH' := IH (fun d Hd => H d (or_intror Hd))).
  destruct (Investment.matches q c) eqn:Mc.
  - rewrite (H c (or_introl eq_refl) Mc). cbn. rewrite Mc. now f_equal.
  - destruct (negb _); cbn; [rewrite Mc|]; exact IH'.
Qed.

Lemma deleted_summary x actor st :
  deleted x (investments st) ->
  Investments.get_portfolio_summary actor st
  = Investments.get_portfolio_summary actor (without x st).
Proof.
  intros D. unfold Investments.get_portfolio_summary, Investment.getPortfolioTotals,
    Investment.getAllocationByType, without. cbn [investments].
  now rewrite deleted_find by (exact D || reflexivity).
Qed.

Lemma deleted_list x actor st d :
  deleted x (investments st) ->
  In d (Investments.get_root actor st) -> Investment._id d <> x.
Proof.
  intros D Hd. unfold Investments.get_root in Hd.
  apply DateSort_In, find_In in Hd. destruct Hd as [Hd Hm].
  eapply deleted_not_matched; try eassumption. reflexivity.
Qed.

Lemma deleted_get x actor st :
  deleted x (investments st) ->
  User.role actor = admin ->
  exists d, Investments.get_by_id actor x st = next d
            /\ Investment._id d = x /\ Investment.isActive d = false.
Proof.
  intros [Hin Hall] R. destruct (findById_present _ _ Hin) as [d F].
  destruct (findById_Some _ _ F) as [Hd E]. exists d.
  unfold Investments.get_by_id, Auth.canAccessInvestment. rewrite F, R.
  cbn. repeat split; [exact E | now apply Hall].
Qed.

(** C6.  [DELETE /:id] by an actor who passes the access check, on a
    store with distinct ids: the stored investment keeps every field
    but [isActive], now false, and [updatedAt]; an admin's [GET /:id]
    returns that document; and after any further calls the id is in no
    list, counts in no portfolio summary, and is still returned to an
    admin with [isActive] false. *)
Theorem softDelete_hides_and_keeps (omitUndefined : bool) (now : Date)
        (user : User.t) (id : ObjectId) (st : Store) (x : Investment.t) :
  NoDup (map Investment._id (investments st)) ->
  Auth.canAccessInvestment user id st = next x ->
  exists st1,
    Investments.delete_by_id omitUndefined now user id st = next (st1, tt)
    /\ users st1 = users st
    /\ investments st1
       = Investment.replace_first id (deactivated now x) (investments st)
    /\ (forall actor, User.role actor = admin ->
                      Investments.get_by_id actor id st1 = next (deactivated now x))
    /\ forall calls actor,
        let st2 := run omitUndefined st1 calls in
        (forall d, In d (Investments.get_root actor st2) -> Investment._id d <> id)
        /\ Investments.get_portfolio_summary actor st2
           = Investments.get_portfolio_summary actor (without id st2)
        /\ (User.role actor = admin ->
            exists d, Investments.get_by_id actor id st2 = next d
                      /\ Investment._id d = id
                      /\ Investment.isActive d = false).
Proof.
  intros ND Hacc.
  pose proof (canAccessInvestment_cases user id st) as C. rewrite Hacc in C.
  destruct C as [F _]. destruct (findById_Some _ _ F) as [Hx Ex].
  set (st1 := {| users := users st;
                 investments := Investment.replace_first id (deactivated now x)
                                  (investments st) |}).
  assert (F1 : Investment.findById id (investments st1) = Some (deactivated now x)).
  { apply (replace_first_findById _ _ F). exact Ex. }
  assert (D : deleted id (investments st1)).
  { split.
    - cbn [st1 investments]. rewrite replace_first_ids by exact Ex.
      rewrite <- Ex. now apply in_map.
    - intros e He Ee. cbn [st1 investments] in He.
      now rewrite (replace_first_only _ _ _ ND He Ee). }
  exists st1. repeat split.
  - unfold Investments.delete_by_id, Investment.findByIdAndUpdate.
    rewrite Hacc. cbn [bind next andb]. rewrite F. reflexivity.
  - intros actor R. unfold Investments.get_by_id, Auth.canAccessInvestment.
    rewrite F1, R. reflexivity.
  - intros d. apply deleted_list. now apply run_keeps_deleted.
  - apply deleted_summary. now apply run_keeps_deleted.
  - apply deleted_get. now apply run_keeps_deleted.
Qed.

Lemma sample_ids_distinct : NoDup (map Investment._id (investments Sample.store)).
Proof. cbn. repeat constructor; cbn; intuition discriminate. Qed.

Lemma softDelete_hides_and_keeps_witness :
  exists st1,
    Investments.delete_by_id true Sample.today Sample.viewerUser 11%N Sample.store
    = next (st1, tt)
    /\ map Investment._id (Investments.get_root Sample.adminUser st1) = [12%N; 10%N]
    /\ Investments.get_by_id Sample.adminUser 11%N st1
       = next (deactivated Sample.today Sample.cryptoB).
Proof.
  destruct (softDelete_hides_and_keeps true Sample.today Sample.viewerUser 11%N
              Sample.store sample_ids_distinct eq_refl)
    as (st1 & H1 & H2 & H3 & H4 & H5).
  exists st1. split; [exact H1|]. split; [|exact (H4 Sample.adminUser eq_refl)].
  destruct st1 as [us coll]. cbn in H2, H3. subst us coll. reflexivity.
Defined.

(** ** Allocation by asset type *)

Section Allocation.

Import Investment.

Implicit Types (d : Investment.t) (e : Alloc.t) (acc : list Alloc.t)
         (docs : list Investment.t).

Lemma sumQ_app (l l' : list Q) : sumQ (l ++ l') == sumQ l + sumQ l'.
Proof.
  unfold sumQ. induction l as [|x l IH]; cbn [app fold_right]; [ring|].
  rewrite IH. ring.
Qed.

(** The documents of the type of an entry. *)
Definition of_type (ty : string) (docs : list Investment.t) : list Investment.t :=
  filter (fun d => String.eqb (assetType d) ty) docs.

(** An entry that stands for the documents of its type: there are
    some, and the entry carries their sums and their number. *)
Definition entry_of (docs : list Investment.t) (e : Alloc.t) : Prop :=
  of_type (Alloc._id e) docs <> []
  /\ Alloc.totalInvested e
     == sumQ (map investedAmount (of_type (Alloc._id e) docs))
  /\ Alloc.totalCurrentValue e
     == sumQ (map currentValue (of_type (Alloc._id e) docs))
  /\ Alloc.count e = List.length (of_type (Alloc._id e) docs).

Lemma of_type_snoc ty docs d :
  of_type ty (docs ++ [d])
  = of_type ty docs ++ (if String.eqb (assetType d) ty then [d] else []).
Proof. unfold of_type. now rewrite filter_app. Qed.

Lemma entry_of_other docs d e :
  Alloc._id e <> assetType d -> entry_of docs e -> entry_of (docs ++ [d]) e.
Proof.
  intros N. unfold entry_of. rewrite of_type_snoc.
  destruct (String.eqb_spec (assetType d) (Alloc._id e)) as [E|_];
    [now elim N|].
  now rewrite app_nil_r.
Qed.

Lemma entry_of_add docs d e :
  Alloc._id e = assetType d -> entry_of docs e ->
  entry_of (docs ++ [d]) (alloc_add e d).
Proof.
  intros E (_ & H1 & H2 & H3). unfold entry_of, alloc_add.
  cbn [Alloc._id Alloc.totalInvested Alloc.totalCurrentValue Alloc.count].
  rewrite of_type_snoc, E, String.eqb_refl, <- E.
  rewrite !map_app, !sumQ_app, length_app, H1, H2, H3. cbn -[Qplus].
  repeat split; try ring. intros C. now apply app_eq_nil in C.
Qed.

Lemma entry_of_new docs d :
  ~ In (assetType d) (map assetType docs) ->
  entry_of (docs ++ [d]) (alloc_add (alloc_empty (assetType d)) d).
Proof.
  intros N. unfold entry_of, alloc_add, alloc_empty.
  cbn [Alloc._id Alloc.totalInvested Alloc.totalCurrentValue Alloc.count].
  rewrite of_type_snoc, String.eqb_refl.
  assert (Z : of_type (assetType d) docs = []).
  { unfold of_type. induction docs as [|c docs IH]; cbn; [reflexivity|].
    destruct (String.eqb_spec (assetType c) (assetType d)) as [E|_].
    - elim N. left. exact E.
    - apply IH. intros H. apply N. now right. }
  rewrite Z. cbn -[Qplus]. repeat split; try ring. discriminate.
Qed.

Lemma alloc_upsert_ids d acc :
  map Alloc._id (alloc_upsert d acc)
  = if in_dec string_dec (assetType d) (map Alloc._id acc)
    then map Alloc._id acc
    else map Alloc._id acc ++ [assetType d].
Proof.
  induction acc as [|e acc IH]; cbn [alloc_upsert map]; [reflexivity|].
  destruct (String.eqb_spec (Alloc._id e) (assetType d)) as [E|N].
  - cbn [map alloc_add Alloc._id]. clear IH.
    destruct (in_dec string_dec (assetType d) (Alloc._id e :: map Alloc._id acc))
      as [_|C]; [reflexivity|]. elim C. now left.
  - cbn [map]. rewrite IH. clear IH.
    destruct (in_dec string_dec (assetType d) (map Alloc._id acc)) as [I|I];
      destruct (in_dec string_dec (assetType d) (Alloc._id e :: map Alloc._id acc))
      as [J|J]; try reflexivity.
    + elim J. now right.
    + destruct J as [J|J]; [now elim N | now elim I].
Qed.

Lemma alloc_upsert_In d acc e :
  NoDup (map Alloc._id acc) ->
  In e (alloc_upsert d acc) ->
  (In e acc /\ Alloc._id e <> assetType d)
  \/ (exists e0, In e0 acc /\ Alloc._id e0 = assetType d /\ e = alloc_add e0 d)
  \/ (~ In (assetType d) (map Alloc._id acc)
      /\ e = alloc_add (alloc_empty (assetType d)) d).
Proof.
  induction acc as [|c acc IH]; cbn [alloc_upsert map]; intros ND He.
  - destruct He as [<-|[]]. right. right. split; [easy | reflexivity].
  - inversion ND as [|? ? Hn ND']; subst.
    destruct (String.eqb_spec (Alloc._id c) (assetType d)) as [E|N].
    + destruct He as [<-|He].
      * right. left. exists c. repeat split; [now left | exact E].
      * left. split; [now right|]. intros X. apply Hn. rewrite E, <- X.
        now apply in_map.
    + destruct He as [<-|He]; [left; split; [now left | exact N]|].
      destruct (IH ND' He) as [[H1 H2]|[(e0 & H1 & H2 & H3)|[H1 H2]]].
      * left. split; [now right | exact H2].
      * right. left. exists e0. repeat split; [now right | exact H2 | exact H3].
      * right. right. split; [|exact H2]. intros [X|X]; [now elim N | now elim H1].
Qed.

Lemma group_by_type_snoc docs d :
  group_by_type (docs ++ [d]) = alloc_upsert d (group_by_type docs).
Proof. unfold group_by_type. now rewrite fold_left_app. Qed.

(** The group stage: one entry for each type that occurs, none for
    any other, each entry with the sums and the count of its type. *)
Lemma group_by_type_spec docs :
  NoDup (map Alloc._id (group_by_type docs))
  /\ (forall ty, In ty (map Alloc._id (group_by_type docs))
                 <-> In ty (map assetType docs))
  /\ (forall e, In e (group_by_type docs) -> entry_of docs e).
Proof.
  induction docs as [|d docs (ND & Hids & Hent)] using rev_ind.
  - cbn. repeat split; try easy. constructor.
  - rewrite group_by_type_snoc. split; [|split].
    + rewrite alloc_upsert_ids.
      destruct (in_dec string_dec (assetType d)
                       (map Alloc._id (group_by_type docs))) as [I|I];
        [exact ND|].
      apply Permutation_NoDup
        with (l := assetType d :: map Alloc._id (group_by_type docs)).
      * apply Permutation_cons_append.
      * now constructor.
    + intros ty. rewrite alloc_upsert_ids, map_app, in_app_iff. cbn [map In].
      destruct (in_dec string_dec (assetType d)
                       (map Alloc._id (group_by_type docs))) as [I|I].
      * rewrite Hids. split; [tauto|]. intros [H|[<-|[]]]; [exact H|].
        now apply Hids.
      * rewrite in_app_iff, Hids. cbn. tauto.
    + intros e He.
      destruct (alloc_upsert_In _ _ _ ND He)
        as [[H1 H2]|[(e0 & H1 & H2 & ->)|[H1 ->]]].
      * apply entry_of_other; [exact H2 | now apply Hent].
      * apply entry_of_add; [exact H2 | now apply Hent].
      * apply entry_of_new. now rewrite <- Hids.
Qed.

End Allocation.

(** Descending by [totalCurrentValue]. *)
Definition value_descending (l : list Investment.Alloc.t) : Prop :=
  StronglySorted
    (fun a b => Investment.Alloc.totalCurrentValue b
                <= Investment.Alloc.totalCurrentValue a) l.

Lemma AllocSort_descending (l : list Investment.Alloc.t) :
  value_descending (Investment.AllocSort.sort l).
Proof.
  unfold value_descending.
  assert (T : Transitive (fun a b => is_true (Investment.ByCurrentValueDesc.leb a b))).
  { intros a b c.
    unfold Investment.ByCurrentValueDesc.leb, Investment.value_desc_leb, is_true.
    rewrite !Qle_bool_iff. intros H1 H2. eapply Qle_trans; eassumption. }
  pose proof (Investment.AllocSort.StronglySorted_sort l T) as S.
  induction S as [|a l' _ IH Hall]; constructor.
  - exact IH.
  - eapply Forall_impl; [|exact Hall].
    intros b Hb. now apply Qle_bool_iff.
Qed.

(** X1.  The static [getAllocationByType] does what the specification asks
    of the allocation: over the documents its match stage lets through
    there is exactly one entry for each asset type that occurs and none
    for a type that does not, each entry carries the sums and the count
    of its type, and the entries descend by [totalCurrentValue]. *)
Lemma getAllocationByType_spec (userId : option ObjectId)
      (coll : list Investment.t) :
  let docs := Investment.find (Investment.matchStage userId) coll in
  let allocation := Investment.getAllocationByType userId coll in
  NoDup (map Investment.Alloc._id allocation)
  /\ (forall ty, In ty (map Investment.Alloc._id allocation)
                 <-> In ty (map Investment.assetType docs))
  /\ (forall e, In e allocation -> entry_of docs e)
  /\ value_descending allocation.
Proof.
  intros docs allocation. subst allocation. unfold Investment.getAllocationByType.
  fold docs. destruct (group_by_type_spec docs) as (ND & Hids & Hent).
  pose proof (Investment.AllocSort.Permuted_sort (Investment.group_by_type docs)) as P.
  split; [|split; [|split]].
  - eapply Permutation_NoDup; [|exact ND]. now apply Permutation_map.
  - intros ty. rewrite <- Hids. split; apply Permutation_in.
    + apply Permutation_sym. now apply Permutation_map.
    + now apply Permutation_map.
  - intros e He. apply Hent. eapply Permutation_in; [|exact He].
    now apply Permutation_sym.
  - apply AllocSort_descending.
Qed.

(** The dashboard builds the same entries, in the order in which the
    types are first met, and leaves them in that order. *)
Lemma allocation_step_upsert (d : Investment.t) (acc : list Investment.Alloc.t) :
  Dashboard.allocation_step d acc = Investment.alloc_upsert d acc.
Proof. induction acc as [|e acc IH]; cbn; [reflexivity|]. now rewrite IH. Qed.

Lemma dashboard_allocation_unsorted_group (user : User.t) (st : Store) :
  Dashboard.allocation (Dashboard.get_root user st)
  = Investment.group_by_type
      (Investment.find (Investment.matchStage None) (investments st)).
Proof.
  unfold Dashboard.get_root, Investment.group_by_type, Investment.matchStage.
  cbn [Dashboard.allocation].
  generalize (@nil Investment.Alloc.t).
  induction (Investment.find _ (investments st)) as [|d l IH]; intros acc;
    [reflexivity|].
  cbn [fold_left]. rewrite allocation_step_upsert. apply IH.
Qed.

(** C7, on the dashboard.  On the fixtures of the dashboard tests the
    allocation of [GET /api/dashboard] lists Startup (120000), Crypto
    Fund (45000), Farmland (220000) in that order, which does not
    descend by [totalCurrentValue]; [getAllocationByType] on the same
    store returns Farmland, Startup, Crypto Fund. *)
Theorem dashboard_allocation_not_sorted :
  map (fun e => (Investment.Alloc._id e, Investment.Alloc.totalCurrentValue e))
      (Dashboard.allocation (Dashboard.get_root Sample.adminUser Sample.store))
  = [("Startup"%string, 120000); ("Crypto Fund"%string, 45000);
     ("Farmland"%string, 220000)]
  /\ ~ value_descending
       (Dashboard.allocation (Dashboard.get_root Sample.adminUser Sample.store))
  /\ map Investment.Alloc._id
         (Investment.getAllocationByType None (investments Sample.store))
     = ["Farmland"; "Startup"; "Crypto Fund"]%string.
Proof.
  split; [reflexivity|]. split; [|reflexivity].
  intros S. vm_compute in S.
  inversion S as [|a l S1 F1]; subst. inversion S1 as [|b l' S2 F2]; subst.
  inversion F2 as [|c l'' L _]; subst. vm_compute in L. now apply L.
Qed.

(** ** Update *)

(** C8, on the code.  The request of the test "should update investment
    as admin" carries only [assetName] and [currentValue]; [PUT /:id]
    answers it with a validation error that names the paths left out,
    and stores nothing. *)
Theorem update_rejects_partial_body :
  Investments.put_by_id true Sample.today Sample.adminUser 10%N Sample.partialUpdate
    Sample.store
  = fail (ValidationError ["assetType"; "investedAmount"; "owners"]%string)
  /\ Investments.put_by_id false Sample.today Sample.adminUser 10%N
       Sample.partialUpdate Sample.store
     = fail (ValidationError ["assetType"; "investedAmount"; "owners"]%string)
  /\ step true Sample.store
       {| at_time := Sample.today; actor := Sample.adminUser;
          request := UpdateInvestment 10%N Sample.partialUpdate |}
     = Sample.store.
Proof. repeat split; reflexivity. Qed.

(** X14.  No update goes through without every required path: the rules of
    the chain are applied to the body alone, not to the body merged
    into the stored document. *)
Lemma update_requires_every_path omitUndefined now user id body st :
  Body.assetName body = None \/ Body.assetType body = None
  \/ Body.investedAmount body = None \/ Body.currentValue body = None
  \/ Body.owners body = None ->
  fails (Investments.put_by_id omitUndefined now user id body st).
Proof.
  intros H. unfold Investments.put_by_id.
  destruct (Auth.canAccessInvestment user id st) as [e|stored];
    [apply fails_fail|]. cbn [bind].
  destruct (Auth.validateInvestmentAmount user body) as [e|[]];
    [apply fails_fail|]. cbn [bind].
  apply fails_bind_l. unfold Investments.validationResult.
  destruct (Investments.investmentValidation body) eqn:V; [|apply fails_fail].
  exfalso. apply investmentValidation_passes in V.
  destruct V as (a & b & c & d & e & [E1 E2 E3 E4 E5 _ _ _ _ _ _ _]).
  intuition congruence.
Qed.

(** X15.  Within the conventions of the model on texts and amounts, an
    update that passes the access check, the cap, the chain, the cast
    and the lookup of its owners, the owner rule and the cast of its
    date goes through, and the paths of the body replace the
    stored values: the amounts, the owners as cast, the date as cast;
    an [investmentDate] left out is not retained but set to the time of
    the request, and a [description] left out is kept or cleared as the
    driver treats [undefined]. *)
Lemma update_replaces omitUndefined now user (id : ObjectId) body st stored
      assetName assetType investedAmount currentValue owners ids investmentDate :
  Auth.canAccessInvestment user id st = next stored ->
  passes body assetName assetType investedAmount currentValue owners ->
  Auth.validateInvestmentAmount user body = next tt ->
  Owner.castAll owners = Some ids ->
  List.length (Investments.findOwners ids (users st)) = List.length owners ->
  owner_rule user owners = false ->
  Investments.dateOrNow now (Body.investmentDate body) = Some investmentDate ->
  exists st' updated,
    Investments.put_by_id omitUndefined now user id body st
    = next (st', Some updated)
    /\ Investment.investedAmount updated = investedAmount
    /\ Investment.owners updated = ids
    /\ Investment.isActive updated = Investment.isActive stored
    /\ Investment.investmentDate updated = investmentDate
    /\ (Body.investmentDate body = None -> Investment.investmentDate updated = now)
    /\ (Body.description body = None ->
        Investment.description updated
        = if omitUndefined then Investment.description stored else None).
Proof.
  intros Hacc P Hcap Hids Hlen Hrule Hdate. eexists _, _. split.
  - eapply put_by_id_accepts; eassumption.
  - cbn. split; [reflexivity|]. split; [reflexivity|]. split; [reflexivity|].
    split; [reflexivity|]. split.
    + intros E. rewrite E in Hdate. cbn in Hdate. now injection Hdate.
    + intros ->. reflexivity.
Qed.

(** The merge that the specification describes, for comparison: the
    body with the paths it leaves out filled in from the stored
    document, the date and the owners in the text form of a body. *)
Definition merged (stored : Investment.t) (body : Body.t) : Body.t :=
  let or_stored {A} (x : option A) (old : A) : option A :=
    match x with
    | Some v => Some v
    | None => Some old
    end in
  {| Body.assetName := or_stored (Body.assetName body) (Investment.assetName stored);
     Body.assetType := or_stored (Body.assetType body) (Investment.assetType stored);
     Body.investedAmount :=
       or_stored (Body.investedAmount body) (Investment.investedAmount stored);
     Body.currentValue :=
       or_stored (Body.currentValue body) (Investment.currentValue stored);
     Body.investmentDate :=
       or_stored (Body.investmentDate body)
                 (DateString.iso (Investment.investmentDate stored));
     Body.description :=
       match Body.description body with
       | Some v => Some v
       | None => Investment.description stored
       end;
     Body.notes :=
       match Body.notes body with
       | Some v => Some v
       | None => Investment.notes stored
       end;
     Body.owners :=
       or_stored (Body.owners body) (map Owner.hex (Investment.owners stored)) |}.

(** Sent merged, the request of the test is accepted and does what the
    test expects: the two paths it names are replaced and the others
    keep their stored values. *)
Lemma merged_partial_update_accepted :
  exists st' updated,
    Investments.put_by_id true Sample.today Sample.adminUser 10%N
      (merged Sample.startupA Sample.partialUpdate) Sample.store
    = next (st', Some updated)
    /\ Investment.assetName updated = "Updated Investment"%string
    /\ Investment.currentValue updated = 120000
    /\ Investment.assetType updated = Investment.assetType Sample.startupA
    /\ Investment.investedAmount updated = Investment.investedAmount Sample.startupA
    /\ Investment.investmentDate updated = Investment.investmentDate Sample.startupA
    /\ Investment.owners updated = Investment.owners Sample.startupA
    /\ Investment.description updated = Investment.description Sample.startupA.
Proof. eexists _, _. split; [reflexivity|]. repeat split. Qed.

(** ** The dashboard *)

Lemma find_active (coll : list Investment.t) :
  Investment.find {| Investment.q_isActive := Some true;
                     Investment.q_owners := None |} coll
  = filter Investment.isActive coll.
Proof.
  unfold Investment.find. apply filter_ext. intros d. unfold Investment.matches.
  cbn. now destruct (Investment.isActive d).
Qed.

Lemma summary_fold_spec (l : list Investment.t) (acc : Investment.Totals.t) :
  let r := fold_left Dashboard.summary_step l acc in
  Investment.Totals.totalInvested r
  == Investment.Totals.totalInvested acc + sumQ (map Investment.investedAmount l)
  /\ Investment.Totals.totalCurrentValue r
     == Investment.Totals.totalCurrentValue acc
        + sumQ (map Investment.currentValue l)
  /\ Investment.Totals.totalGain r
     == Investment.Totals.totalGain acc + sumQ (map Investment.absoluteGain l)
  /\ Investment.Totals.investmentCount r = Investment.Totals.investmentCount acc
  /\ Investment.Totals.totalRoi r = Investment.Totals.totalRoi acc.
Proof.
  revert acc. induction l as [|d l IH]; intros acc; cbn -[Qplus Qminus].
  - repeat split; ring.
  - destruct (IH (Dashboard.summary_step acc d)) as (H1 & H2 & H3 & H4 & H5).
    cbn -[Qplus Qminus] in *. rewrite H1, H2, H3, H4, H5.
    unfold Investment.absoluteGain, sumQ in *. repeat split; ring.
Qed.

(** C10.  [GET /api/dashboard] answers any two actors alike: the
    investments returned are all the active investments of the store,
    whoever owns them, and the summary and the allocation are computed
    over exactly those. *)
Theorem dashboard_same_for_every_actor (user user' : User.t) (st : Store) :
  let active := filter Investment.isActive (investments st) in
  let data := Dashboard.get_root user st in
  Dashboard.get_root user st = Dashboard.get_root user' st
  /\ Dashboard.investments_of data = active
  /\ Dashboard.allocation data = Investment.group_by_type active
  /\ Investment.Totals.investmentCount (Dashboard.summary data) = List.length active
  /\ Investment.Totals.totalInvested (Dashboard.summary data)
     == sumQ (map Investment.investedAmount active)
  /\ Investment.Totals.totalCurrentValue (Dashboard.summary data)
     == sumQ (map Investment.currentValue active)
  /\ Investment.Totals.totalGain (Dashboard.summary data)
     == sumQ (map Investment.absoluteGain active).
Proof.
  intros active data. split; [reflexivity|]. split; [apply find_active|].
  split.
  { subst data. rewrite dashboard_allocation_unsorted_group.
    unfold Investment.matchStage. now rewrite find_active. }
  subst data. unfold Dashboard.get_root. rewrite find_active. fold active.
  cbn [Dashboard.summary].
  match goal with
  | |- context [fold_left Dashboard.summary_step active ?a] =>
      destruct (summary_fold_spec active a) as (H1 & H2 & H3 & H4 & _);
      set (r := fold_left Dashboard.summary_step active a) in *
  end.
  cbn [Investment.Totals.totalInvested Investment.Totals.totalCurrentValue
       Investment.Totals.totalGain Investment.Totals.investmentCount] in *.
  destruct (JS.gt (Investment.Totals.totalInvested r) 0);
    cbn [Investment.Totals.totalInvested Investment.Totals.totalCurrentValue
         Investment.Totals.totalGain Investment.Totals.investmentCount];
    rewrite H1, H2, H3, H4; repeat split; ring.
Qed.

(** ** The properties on the fixtures *)

Lemma roi_absoluteGain_formulas_witness :
  Investment.roi Sample.startupA = Some ((120000 - 100000) / 100000 * 100)
  /\ Investment.roi
       (Sample.investment 13%N "Gift" "Other" 0 500 Sample.today [1%N] "Free")
     = Some 0.
Proof.
  split.
  - refine (proj1 (proj1 (proj2 (proj2 (roi_absoluteGain_formulas Sample.startupA)))
                     _)).
    cbn. discriminate.
  - refine (proj1 (proj2 (roi_absoluteGain_formulas _)) _). reflexivity.
Defined.

Definition sampleTotals : Investment.Totals.t :=
  Investment.getPortfolioTotals None (investments Sample.store).

Lemma getPortfolioTotals_sums_witness :
  Investment.Totals.totalInvested sampleTotals == 350000
  /\ Investment.Totals.totalCurrentValue sampleTotals == 385000
  /\ Investment.Totals.totalGain sampleTotals == 35000
  /\ Investment.Totals.investmentCount sampleTotals = 3%nat
  /\ Investment.Totals.totalRoi sampleTotals
     = Some (Investment.Totals.totalGain sampleTotals
             / Investment.Totals.totalInvested sampleTotals * 100).
Proof.
  unfold sampleTotals.
  assert (H : Forall (fun d => 0 <= Investment.investedAmount d)
                     (Investment.find (Investment.matchStage None)
                        (investments Sample.store))).
  { cbn. repeat constructor; cbn; discriminate. }
  destruct (getPortfolioTotals_sums None (investments Sample.store) H)
    as (H1 & H2 & H3 & H4 & _ & H6 & _).
  split; [rewrite H1; reflexivity|].
  split; [rewrite H2; reflexivity|].
  split; [rewrite H3; reflexivity|].
  split; [exact H4|].
  apply H6. cbn. discriminate.
Defined.

Lemma list_viewer_owned_active_and_sorted_witness :
  Investment.isActive Sample.farmlandC = true
  /\ In (User._id Sample.viewerUser) (Investment.owners Sample.farmlandC).
Proof.
  refine (proj1 (list_viewer_owned_active_and_sorted Sample.viewerUser Sample.store)
                eq_refl Sample.farmlandC _).
  vm_compute. left. reflexivity.
Defined.

Lemma not_found_precedes_forbidden_witness :
  Investments.get_by_id Sample.viewerUser 99%N Sample.store = fail NotFound
  /\ Investments.put_by_id true Sample.today Sample.viewerUser 99%N Sample.overCap
       Sample.store
     = fail NotFound
  /\ Investments.delete_by_id true Sample.today Sample.viewerUser 99%N Sample.store
     = fail NotFound.
Proof.
  exact (proj1 (@not_found_precedes_forbidden true Sample.today Sample.viewerUser
                  99%N Sample.overCap Sample.store) 99%N eq_refl eq_refl).
Defined.

(** The claim C9 as it stands does not hold of an id that cannot be
    cast to an ObjectId: no investment has such an id, and the three
    handlers answer it with an internal error, not with [NotFound]. *)
Lemma uncastable_id_is_an_internal_error :
  Investments.get_by_id Sample.viewerUser Param.uncastable Sample.store
  = fail InternalError
  /\ Investments.put_by_id true Sample.today Sample.viewerUser Param.uncastable
       Sample.overCap Sample.store
     = fail InternalError
  /\ Investments.delete_by_id true Sample.today Sample.viewerUser Param.uncastable
       Sample.store
     = fail InternalError
  /\ status InternalError = 500%nat
  /\ @fail Investment.t InternalError <> fail NotFound.
Proof. repeat split; try reflexivity. discriminate. Qed.

(** A viewer who owns nothing is shown the whole portfolio by the
    dashboard, and nothing by the list. *)
Example dashboard_shows_all_to_a_stranger :
  let stranger := {| User._id := 3%N; User.role := viewer; User.isActive := true |} in
  map Investment._id (Dashboard.investments_of (Dashboard.get_root stranger Sample.store))
  = [10%N; 11%N; 12%N]
  /\ Investments.get_root stranger Sample.store = [].
Proof. split; reflexivity. Qed.

(** * Further properties of the model *)

(** ** How the aggregations fit together *)

Lemma sumQ_Permutation (l l' : list Q) : Permutation l l' -> sumQ l == sumQ l'.
Proof.
  unfold sumQ. induction 1 as [|x l l' _ IH|x y l|l l' l'' _ IH1 _ IH2];
    cbn [fold_right].
  - reflexivity.
  - now rewrite IH.
  - ring.
  - now rewrite IH1.
Qed.

Lemma list_sum_Permutation (l l' : list nat) :
  Permutation l l' -> list_sum l = list_sum l'.
Proof. unfold list_sum. induction 1; cbn [fold_right]; lia. Qed.

Lemma alloc_upsert_sums (d : Investment.t) (acc : list Investment.Alloc.t) :
  sumQ (map Investment.Alloc.totalInvested (Investment.alloc_upsert d acc))
  == sumQ (map Investment.Alloc.totalInvested acc) + Investment.investedAmount d
  /\ sumQ (map Investment.Alloc.totalCurrentValue (Investment.alloc_upsert d acc))
     == sumQ (map Investment.Alloc.totalCurrentValue acc)
        + Investment.currentValue d
  /\ list_sum (map Investment.Alloc.count (Investment.alloc_upsert d acc))
     = (list_sum (map Investment.Alloc.count acc) + 1)%nat.
Proof.
  unfold sumQ, list_sum. induction acc as [|e acc (IH1 & IH2 & IH3)];
    cbn [Investment.alloc_upsert].
  - cbn. repeat split; ring.
  - destruct (String.eqb (Investment.Alloc._id e) (Investment.assetType d)).
    + cbn [map fold_right Investment.alloc_add
           Investment.Alloc.totalInvested Investment.Alloc.totalCurrentValue
           Investment.Alloc.count].
      repeat split; solve [ring | lia].
    + cbn [map fold_right]. rewrite IH1, IH2, IH3.
      repeat split; solve [ring | lia].
Qed.

Lemma group_by_type_sums (docs : list Investment.t) :
  sumQ (map Investment.Alloc.totalInvested (Investment.group_by_type docs))
  == sumQ (map Investment.investedAmount docs)
  /\ sumQ (map Investment.Alloc.totalCurrentValue (Investment.group_by_type docs))
     == sumQ (map Investment.currentValue docs)
  /\ list_sum (map Investment.Alloc.count (Investment.group_by_type docs))
     = List.length docs.
Proof.
  induction docs as [|d docs (IH1 & IH2 & IH3)] using rev_ind.
  - cbn. repeat split; reflexivity.
  - rewrite group_by_type_snoc.
    destruct (alloc_upsert_sums d (Investment.group_by_type docs)) as (H1 & H2 & H3).
    rewrite H1, H2, H3, IH1, IH2, IH3, !map_app, !sumQ_app, length_app.
    cbn. repeat split; solve [ring | lia].
Qed.

(** X3.  The allocation adds up to the totals: over the same documents, the
    entries of [getAllocationByType] sum to the [totalInvested] and the
    [totalCurrentValue] of [getPortfolioTotals], and their counts to its
    [investmentCount]. *)
Theorem allocation_adds_up_to_totals (userId : option ObjectId)
        (coll : list Investment.t) :
  sumQ (map Investment.Alloc.totalInvested
            (Investment.getAllocationByType userId coll))
  == Investment.Totals.totalInvested (Investment.getPortfolioTotals userId coll)
  /\ sumQ (map Investment.Alloc.totalCurrentValue
               (Investment.getAllocationByType userId coll))
     == Investment.Totals.totalCurrentValue
          (Investment.getPortfolioTotals userId coll)
  /\ list_sum (map Investment.Alloc.count
                   (Investment.getAllocationByType userId coll))
     = Investment.Totals.investmentCount
         (Investment.getPortfolioTotals userId coll).
Proof.
  unfold Investment.getAllocationByType, Investment.getPortfolioTotals.
  set (docs := Investment.find (Investment.matchStage userId) coll).
  pose proof (Investment.AllocSort.Permuted_sort (Investment.group_by_type docs))
    as P.
  destruct (group_by_type_sums docs) as (G1 & G2 & G3).
  rewrite <- (sumQ_Permutation (Permutation_map Investment.Alloc.totalInvested P)).
  rewrite <- (sumQ_Permutation
                (Permutation_map Investment.Alloc.totalCurrentValue P)).
  assert (C : list_sum (map Investment.Alloc.count
                            (Investment.AllocSort.sort
                               (Investment.group_by_type docs)))
              = List.length docs).
  { rewrite <- G3. symmetry. apply list_sum_Permutation.
    now apply Permutation_map. }
  rewrite G1, G2, C.
  destruct (group_fold_spec docs Investment.group_init) as (H1 & H2 & _ & H4).
  remember (fold_left Investment.group_step docs Investment.group_init) as r eqn:Er.
  unfold Investment.group_init in H1, H2, H4.
  cbn [Investment.Group.totalInvested Investment.Group.totalCurrentValue
       Investment.Group.investmentCount] in H1, H2, H4.
  clearbody docs. destruct docs as [|d docs']; [cbn; repeat split; reflexivity|].
  unfold Investment.group_null. rewrite <- Er.
  cbn [Investment.Totals.totalInvested Investment.Totals.totalCurrentValue
       Investment.Totals.investmentCount].
  rewrite H1, H2, H4. repeat split; solve [ring | lia].
Qed.

Lemma listQuery_matchStage (user : User.t) :
  Investments.listQuery user
  = Investment.matchStage
      match User.role user with
      | admin => None
      | viewer => Some (User._id user)
      end.
Proof. reflexivity. Qed.

Lemma getAllocationByType_types (userId : option ObjectId)
      (coll : list Investment.t) (ty : string) :
  In ty (map Investment.Alloc._id (Investment.getAllocationByType userId coll))
  <-> In ty (map Investment.assetType
                 (Investment.find (Investment.matchStage userId) coll)).
Proof.
  unfold Investment.getAllocationByType.
  set (docs := Investment.find (Investment.matchStage userId) coll).
  destruct (group_by_type_spec docs) as (_ & Hids & _).
  pose proof (Investment.AllocSort.Permuted_sort (Investment.group_by_type docs)) as P.
  rewrite <- Hids. split; apply Permutation_in.
  - apply Permutation_sym. now apply Permutation_map.
  - now apply Permutation_map.
Qed.

(** X4.  The portfolio summary aggregates exactly what the list shows: for
    one actor and one store, [GET /portfolio/summary] counts as many
    investments as [GET /] returns, its totals are the sums over those
    investments, and its allocation has an entry for the asset type of
    each of them and for no other type. *)
Theorem summary_aggregates_the_list (user : User.t) (st : Store) :
  let listed := Investments.get_root user st in
  let totals := fst (Investments.get_portfolio_summary user st) in
  let allocation := snd (Investments.get_portfolio_summary user st) in
  Investment.Totals.investmentCount totals = List.length listed
  /\ Investment.Totals.totalInvested totals
     == sumQ (map Investment.investedAmount listed)
  /\ Investment.Totals.totalCurrentValue totals
     == sumQ (map Investment.currentValue listed)
  /\ Investment.Totals.totalGain totals
     == sumQ (map Investment.absoluteGain listed)
  /\ forall ty, In ty (map Investment.Alloc._id allocation)
                <-> In ty (map Investment.assetType listed).
Proof.
  intros listed totals allocation. subst listed totals allocation.
  unfold Investments.get_root, Investments.get_portfolio_summary.
  rewrite listQuery_matchStage. cbn [fst snd].
  set (userId := match User.role user with
                 | admin => None
                 | viewer => Some (User._id user)
                 end).
  set (docs := Investment.find (Investment.matchStage userId) (investments st)).
  pose proof (Investment.DateSort.Permuted_sort docs) as P.
  rewrite <- (Permutation_length P).
  rewrite <- (sumQ_Permutation (Permutation_map Investment.investedAmount P)).
  rewrite <- (sumQ_Permutation (Permutation_map Investment.currentValue P)).
  rewrite <- (sumQ_Permutation (Permutation_map Investment.absoluteGain P)).
  split; [|split; [|split; [|split]]].
  5: { intros ty.
       rewrite (getAllocationByType_types userId (investments st) ty). fold docs. split; apply Permutation_in.
       - now apply Permutation_map.
       - apply Permutation_sym. now apply Permutation_map. }
  all: unfold Investment.getPortfolioTotals; fold docs;
    destruct (group_fold_spec docs Investment.group_init) as (H1 & H2 & H3 & H4);
    remember (fold_left Investment.group_step docs Investment.group_init) as r
      eqn:Er;
    unfold Investment.group_init in H1, H2, H3, H4;
    cbn [Investment.Group.totalInvested Investment.Group.totalCurrentValue
         Investment.Group.totalGain Investment.Group.investmentCount]
      in H1, H2, H3, H4;
    clearbody docs; destruct docs as [|d docs']; [reflexivity|];
    unfold Investment.group_null; rewrite <- Er;
    cbn [Investment.Totals.totalInvested Investment.Totals.totalCurrentValue
         Investment.Totals.totalGain Investment.Totals.investmentCount].
  - exact H4.
  - rewrite H1. ring.
  - rewrite H2. ring.
  - rewrite H3. ring.
Qed.

(** ** The dashboard and the portfolio summary *)

Lemma dashboard_fold (l : list Investment.t) (g : Investment.Group.t)
      (s : Investment.Totals.t) :
  Investment.Totals.totalInvested s = Investment.Group.totalInvested g ->
  Investment.Totals.totalCurrentValue s = Investment.Group.totalCurrentValue g ->
  Investment.Totals.totalGain s = Investment.Group.totalGain g ->
  let g' := fold_left Investment.group_step l g in
  let s' := fold_left Dashboard.summary_step l s in
  Investment.Totals.totalInvested s' = Investment.Group.totalInvested g'
  /\ Investment.Totals.totalCurrentValue s' = Investment.Group.totalCurrentValue g'
  /\ Investment.Totals.totalGain s' = Investment.Group.totalGain g'
  /\ Investment.Totals.totalRoi s' = Investment.Totals.totalRoi s
  /\ Investment.Totals.investmentCount s' = Investment.Totals.investmentCount s
  /\ Investment.Group.investmentCount g'
     = (Investment.Group.investmentCount g + List.length l)%nat.
Proof.
  revert g s. induction l as [|d l IH]; intros g s E1 E2 E3; cbn [fold_left].
  - cbn. repeat split; try assumption. lia.
  - destruct (IH (Investment.group_step g d) (Dashboard.summary_step s d))
      as (H1 & H2 & H3 & H4 & H5 & H6).
    + cbn. now rewrite E1.
    + cbn. now rewrite E2.
    + cbn. unfold Investment.absoluteGain. now rewrite E3.
    + cbn zeta. rewrite H1, H2, H3, H4, H5, H6. cbn. repeat split. lia.
Qed.

(** X5.  What the dashboard shows to anyone is what the portfolio summary
    shows to an admin: the same summary, field for field, and the same
    allocation entries, which the dashboard leaves in the order of first
    occurrence. *)
Theorem dashboard_is_the_admin_summary (user : User.t) (st : Store) :
  Dashboard.summary (Dashboard.get_root user st)
  = Investment.getPortfolioTotals None (investments st)
  /\ Permutation (Dashboard.allocation (Dashboard.get_root user st))
                 (Investment.getAllocationByType None (investments st)).
Proof.
  split.
  - unfold Dashboard.get_root, Investment.getPortfolioTotals, Investment.matchStage.
    cbn [Dashboard.summary].
    set (docs := Investment.find _ (investments st)).
    match goal with
    | |- context [fold_left Dashboard.summary_step docs ?s0] =>
        destruct (dashboard_fold docs Investment.group_init s0 eq_refl eq_refl
                    eq_refl) as (H1 & H2 & H3 & H4 & H5 & H6);
        remember (fold_left Dashboard.summary_step docs s0) as s eqn:Es
    end.
    remember (fold_left Investment.group_step docs Investment.group_init) as g
      eqn:Eg.
    cbn [Investment.Totals.totalRoi Investment.Totals.investmentCount
         Investment.group_init Investment.Group.investmentCount] in H4, H5, H6.
    clearbody docs. destruct docs as [|d docs'].
    + cbn in Es. subst s. reflexivity.
    + unfold Investment.group_null. rewrite <- Eg. rewrite H1.
      destruct s as [a b c r n]. cbn in H1, H2, H3, H4, H5. subst a b c r n.
      rewrite H6. destruct (JS.gt (Investment.Group.totalInvested g) 0);
        reflexivity.
  - rewrite dashboard_allocation_unsorted_group.
    apply Investment.AllocSort.Permuted_sort.
Qed.

(** ** What the writing handlers answer *)

(** The answers of [POST /], case by case. *)
Inductive post_answer (now : Date) (user : User.t) (body : Body.t) (st : Store)
  : M (Store * Investment.t) -> Prop :=
| post_cap :
    post_answer now user body st (fail InvestmentCapExceeded)
| post_invalid errors :
    errors = Investments.investmentValidation body -> errors <> [] ->
    post_answer now user body st (fail (ValidationError errors))
| post_uncast assetName assetType investedAmount currentValue owners :
    passes body assetName assetType investedAmount currentValue owners ->
    Owner.castAll owners = None ->
    post_answer now user body st (fail InternalError)
| post_owners assetName assetType investedAmount currentValue owners ids :
    passes body assetName assetType investedAmount currentValue owners ->
    Owner.castAll owners = Some ids ->
    List.length (Investments.findOwners ids (users st)) <> List.length owners ->
    post_answer now user body st (fail InvalidOwners)
| post_forbidden assetName assetType investedAmount currentValue owners :
    passes body assetName assetType investedAmount currentValue owners ->
    owner_rule user owners = true ->
    post_answer now user body st (fail ForbiddenOwnerSet)
| post_undated assetName assetType investedAmount currentValue owners :
    passes body assetName assetType investedAmount currentValue owners ->
    Investments.dateOrNow now (Body.investmentDate body) = None ->
    post_answer now user body st (fail InternalError)
| post_created assetName assetType investedAmount currentValue owners ids
               investmentDate :
    passes body assetName assetType investedAmount currentValue owners ->
    Auth.validateInvestmentAmount user body = next tt ->
    Owner.castAll owners = Some ids ->
    List.length (Investments.findOwners ids (users st)) = List.length owners ->
    owner_rule user owners = false ->
    Investments.dateOrNow now (Body.investmentDate body) = Some investmentDate ->
    post_answer now user body st
      (let investment :=
         created now body assetName assetType investedAmount currentValue
                 investmentDate ids (investments st) in
       next ({| users := users st;
                investments := investments st ++ [investment] |}, investment)).

Lemma post_root_answer now user body st :
  post_answer now user body st (Investments.post_root now user body st).
Proof.
  destruct (Auth.validateInvestmentAmount user body) as [e|[]] eqn:Hcap.
  { unfold Investments.post_root. rewrite Hcap, (cap_error _ _ Hcap).
    constructor. }
  destruct (Investments.investmentValidation body) as [|p errors] eqn:V.
  2: { unfold Investments.post_root, Investments.validationResult.
       rewrite Hcap, V. cbn [bind]. constructor; [now rewrite V | discriminate]. }
  destruct (investmentValidation_passes _ V) as (a & b & x & y & o & P).
  rewrite (@post_root_validated now user body st a b x y o P Hcap).
  destruct (Owner.castAll o) as [ids|] eqn:C; [|eapply post_uncast; eassumption].
  destruct (List.length (Investments.findOwners ids (users st)) =? List.length o)
    eqn:L; cbn [negb].
  - destruct (owner_rule user o) eqn:R; [eapply post_forbidden; eassumption|].
    apply Nat.eqb_eq in L.
    destruct (Investments.dateOrNow now (Body.investmentDate body)) as [date|]
      eqn:D; [|eapply post_undated; eassumption].
    now apply post_created with o.
  - apply Nat.eqb_neq in L. eapply post_owners; eassumption.
Qed.

(** The answers of [PUT /:id], case by case. *)
Inductive put_answer (omitUndefined : bool) (now : Date) (user : User.t)
          (id : Param.t) (body : Body.t) (st : Store)
  : M (Store * option Investment.t) -> Prop :=
| put_uncastable :
    id = Param.uncastable ->
    put_answer omitUndefined now user id body st (fail InternalError)
| put_not_found i :
    id = Param.id i ->
    Investment.findById i (investments st) = None ->
    put_answer omitUndefined now user id body st (fail NotFound)
| put_stranger i :
    id = Param.id i ->
    stranger user i st ->
    put_answer omitUndefined now user id body st (fail Forbidden)
| put_cap stored :
    Auth.canAccessInvestment user id st = next stored ->
    put_answer omitUndefined now user id body st (fail InvestmentCapExceeded)
| put_invalid stored errors :
    Auth.canAccessInvestment user id st = next stored ->
    errors = Investments.investmentValidation body -> errors <> [] ->
    put_answer omitUndefined now user id body st (fail (ValidationError errors))
| put_uncast stored assetName assetType investedAmount currentValue owners :
    Auth.canAccessInvestment user id st = next stored ->
    passes body assetName assetType investedAmount currentValue owners ->
    Owner.castAll owners = None ->
    put_answer omitUndefined now user id body st (fail InternalError)
| put_owners stored assetName assetType investedAmount currentValue owners ids :
    Auth.canAccessInvestment user id st = next stored ->
    passes body assetName assetType investedAmount currentValue owners ->
    Owner.castAll owners = Some ids ->
    List.length (Investments.findOwners ids (users st)) <> List.length owners ->
    put_answer omitUndefined now user id body st (fail InvalidOwners)
| put_removal stored assetName assetType investedAmount currentValue owners ids :
    Auth.canAccessInvestment user id st = next stored ->
    passes body assetName assetType investedAmount currentValue owners ->
    Auth.validateInvestmentAmount user body = next tt ->
    Owner.castAll owners = Some ids ->
    List.length (Investments.findOwners ids (users st)) = List.length owners ->
    owner_rule user owners = true ->
    put_answer omitUndefined now user id body st (fail ForbiddenOwnerRemoval)
| put_undated stored assetName assetType investedAmount currentValue owners :
    Auth.canAccessInvestment user id st = next stored ->
    passes body assetName assetType investedAmount currentValue owners ->
    Investments.dateOrNow now (Body.investmentDate body) = None ->
    put_answer omitUndefined now user id body st (fail InternalError)
| put_updated i stored assetName assetType investedAmount currentValue owners ids
              investmentDate :
    id = Param.id i ->
    Auth.canAccessInvestment user id st = next stored ->
    passes body assetName assetType investedAmount currentValue owners ->
    Auth.validateInvestmentAmount user body = next tt ->
    Owner.castAll owners = Some ids ->
    List.length (Investments.findOwners ids (users st)) = List.length owners ->
    owner_rule user owners = false ->
    Investments.dateOrNow now (Body.investmentDate body) = Some investmentDate ->
    put_answer omitUndefined now user id body st
      (let updated :=
         Investment.apply_update omitUndefined now
           (replacement body assetName assetType investedAmount currentValue
                        investmentDate ids) stored in
       next ({| users := users st;
                investments :=
                  Investment.replace_first i updated (investments st) |},
             Some updated)).

Lemma put_by_id_answer omitUndefined now user id body st :
  put_answer omitUndefined now user id body st
    (Investments.put_by_id omitUndefined now user id body st).
Proof.
  destruct id as [i|]; [|now apply put_uncastable].
  pose proof (canAccessInvestment_cases user i st) as C.
  destruct (Auth.canAccessInvestment user i st) as [e|stored] eqn:Hacc.
  { unfold Investments.put_by_id. rewrite Hacc. cbn [bind].
    destruct C as [[-> F]|[-> S]];
      [now apply put_not_found with i | now apply put_stranger with i]. }
  destruct (Auth.validateInvestmentAmount user body) as [e|[]] eqn:Hcap.
  { unfold Investments.put_by_id. rewrite Hacc, Hcap, (cap_error _ _ Hcap).
    cbn [bind]. now apply put_cap with stored. }
  destruct (Investments.investmentValidation body) as [|p errors] eqn:V.
  2: { unfold Investments.put_by_id, Investments.validationResult.
       rewrite Hacc, Hcap, V. cbn [bind].
       apply put_invalid with stored; [exact Hacc | now rewrite V | discriminate]. }
  destruct (investmentValidation_passes _ V) as (a & b & x & y & o & P).
  rewrite (@put_by_id_validated omitUndefined now user i body st stored a b x y o
             Hacc P Hcap).
  destruct (Owner.castAll o) as [ids|] eqn:Cast; [|eapply put_uncast; eassumption].
  destruct (List.length (Investments.findOwners ids (users st)) =? List.length o)
    eqn:L; cbn [negb].
  - apply Nat.eqb_eq in L.
    destruct (owner_rule user o) eqn:R; [eapply put_removal; eassumption|].
    destruct (Investments.dateOrNow now (Body.investmentDate body)) as [date|]
      eqn:D; [|eapply put_undated; eassumption].
    now apply put_updated with o.
  - apply Nat.eqb_neq in L. eapply put_owners; eassumption.
Qed.

(** A body that passes the chain with a date that cannot be cast, as a
    week date is. *)
Definition weekDated : Body.t :=
  {| Body.assetName := Some "Test Investment"%string;
     Body.assetType := Some "Startup"%string;
     Body.investedAmount := Some 100000%Q;
     Body.currentValue := Some 110000%Q;
     Body.investmentDate :=
       Some {| DateString.isISO8601 := true; DateString.cast := None |};
     Body.description := None;
     Body.notes := None;
     Body.owners := Some [Owner.hex 1%N] |}.

(** X6.  A cast that fails is answered with an internal error, status
    500.  [GET], [PUT] and [DELETE] answer so on an id that cannot be
    cast, whoever asks.  [POST] and [PUT] answer so, once the cap and
    the chain have passed (and the access check, for [PUT]), on an
    owner that cannot be cast, and on a date that cannot be cast when
    the owner lookup and the owner rule have passed too; the store is
    left as it was. *)
Theorem cast_failures_are_internal_errors (omitUndefined : bool) (now : Date)
        (user : User.t) (body : Body.t) (st : Store) :
  status InternalError = 500%nat
  /\ (Investments.get_by_id user Param.uncastable st = fail InternalError
      /\ Investments.put_by_id omitUndefined now user Param.uncastable body st
         = fail InternalError
      /\ Investments.delete_by_id omitUndefined now user Param.uncastable st
         = fail InternalError)
  /\ (forall assetName assetType investedAmount currentValue owners,
         passes body assetName assetType investedAmount currentValue owners ->
         Auth.validateInvestmentAmount user body = next tt ->
         let internal :=
           Investments.post_root now user body st = fail InternalError
           /\ step omitUndefined st
                {| at_time := now; actor := user;
                   request := CreateInvestment body |} = st
           /\ forall (id : ObjectId) stored,
               Auth.canAccessInvestment user id st = next stored ->
               Investments.put_by_id omitUndefined now user id body st
               = fail InternalError
               /\ step omitUndefined st
                    {| at_time := now; actor := user;
                       request := UpdateInvestment id body |} = st in
         (Owner.castAll owners = None -> internal)
         /\ (forall ids,
               Owner.castAll owners = Some ids ->
               List.length (Investments.findOwners ids (users st))
               = List.length owners ->
               owner_rule user owners = false ->
               Investments.dateOrNow now (Body.investmentDate body) = None ->
               internal)).
Proof.
  split; [reflexivity|]. split; [repeat split|].
  intros a b x y owners P Hcap internal. subst internal.
  pose proof (@post_root_validated now user body st a b x y owners P Hcap) as Q.
  split.
  - intros C. rewrite C in Q. split; [exact Q|].
    split; [unfold step; cbn [request at_time actor]; now rewrite Q|].
    intros id stored Hacc.
    pose proof (@put_by_id_validated omitUndefined now user id body st stored
                  a b x y owners Hacc P Hcap) as Q'.
    rewrite C in Q'. split; [exact Q'|].
    unfold step. cbn [request at_time actor]. now rewrite Q'.
  - intros ids C L R D. rewrite C, L, Nat.eqb_refl, R, D in Q.
    split; [exact Q|].
    split; [unfold step; cbn [request at_time actor]; now rewrite Q|].
    intros id stored Hacc.
    pose proof (@put_by_id_validated omitUndefined now user id body st stored
                  a b x y owners Hacc P Hcap) as Q'.
    rewrite C, L, Nat.eqb_refl, R, D in Q'. split; [exact Q'|].
    unfold step. cbn [request at_time actor]. now rewrite Q'.
Qed.

Lemma weekDated_passes :
  passes weekDated "Test Investment" "Startup" 100000 110000 [Owner.hex 1%N].
Proof. constructor; reflexivity. Qed.

Lemma cast_failures_are_internal_errors_witness :
  Investments.post_root Sample.today Sample.adminUser weekDated Sample.store
  = fail InternalError
  /\ Investments.put_by_id true Sample.today Sample.adminUser 10%N weekDated
       Sample.store
     = fail InternalError.
Proof.
  destruct (proj2 (proj2 (proj2 (@cast_failures_are_internal_errors true
                                   Sample.today Sample.adminUser weekDated
                                   Sample.store))
                         _ _ _ _ _ weekDated_passes eq_refl)
                  [1%N] eq_refl eq_refl eq_refl eq_refl) as (H1 & _ & H2).
  exact (conj H1 (proj1 (H2 10%N Sample.startupA eq_refl))).
Defined.

(** X13.  The two ways in which [PUT /:id] answers 403, and no other:
    the access check turns away with [Forbidden] an actor who is
    neither an admin nor an owner of the investment, which exists; and
    the owner rule turns away with [ForbiddenOwnerRemoval] a viewer who
    has passed the access check, the cap, the chain and the owner
    lookup, and whose id, as a text, is not among the owners of the
    body. *)
Lemma put_by_id_403 (omitUndefined : bool) (now : Date) (user : User.t)
      (id : Param.t) (body : Body.t) (st : Store) (e : Error) :
  Investments.put_by_id omitUndefined now user id body st = fail e
  /\ status e = 403%nat
  <-> (e = Forbidden /\ exists i, id = Param.id i /\ stranger user i st)
      \/ (e = ForbiddenOwnerRemoval
          /\ User.role user = viewer
          /\ (exists stored, Auth.canAccessInvestment user id st = next stored)
          /\ Auth.validateInvestmentAmount user body = next tt
          /\ Investments.investmentValidation body = []
          /\ exists owners ids,
              Body.owners body = Some owners
              /\ Owner.castAll owners = Some ids
              /\ List.length (Investments.findOwners ids (users st))
                 = List.length owners
              /\ ~ In (Owner.hex (User._id user)) owners).
Proof.
  split.
  - intros [H S].
    pose proof (put_by_id_answer omitUndefined now user id body st) as A.
    rewrite H in A.
    inversion A as [U|i Ei F|i Ei St|stored Hacc|stored errors Hacc Ee Hn
                   |stored a b x y o Hacc P C|stored a b x y o ids Hacc P C L
                   |stored a b x y o ids Hacc P Hcap C L R
                   |stored a b x y o Hacc P D|]; subst e; try discriminate S.
    + left. split; [reflexivity|]. now exists i.
    + right. split; [reflexivity|].
      unfold owner_rule in R. apply andb_true_iff in R. destruct R as [R1 R2].
      split; [destruct (User.role user); [discriminate R1 | reflexivity]|].
      split; [now exists stored|]. split; [exact Hcap|].
      split; [exact (passes_investmentValidation P)|].
      exists o, ids. split; [exact (has_owners P)|]. split; [exact C|].
      split; [exact L|]. apply Owner_includes_false. now apply negb_true_iff.
  - intros [[-> (i & -> & St)]|(-> & R & (stored & Hacc) & Hcap & V & o & ids & Eo
                                & C & L & Hnot)].
    + split; [|reflexivity]. unfold Investments.put_by_id.
      now rewrite (canAccessInvestment_stranger St).
    + split; [|reflexivity]. destruct id as [i|]; [|discriminate Hacc].
      destruct (investmentValidation_passes _ V) as (a & b & x & y & o' & P).
      pose proof (has_owners P) as Eo'. rewrite Eo in Eo'. injection Eo' as <-.
      rewrite (@put_by_id_validated omitUndefined now user i body st stored
                 a b x y o Hacc P Hcap).
      rewrite C, L, Nat.eqb_refl. cbn [negb]. unfold owner_rule.
      apply Owner_includes_false in Hnot. now rewrite R, Hnot.
Qed.

Lemma put_by_id_403_witness :
  Investments.put_by_id true Sample.today Sample.viewerUser 11%N Sample.notMine
    Sample.store
  = fail ForbiddenOwnerRemoval
  /\ Investments.put_by_id true Sample.today Sample.viewerUser 10%N Sample.notMine
       Sample.store
     = fail Forbidden.
Proof.
  split.
  - refine (proj1 (proj2 (@put_by_id_403 true Sample.today Sample.viewerUser 11%N
                            Sample.notMine Sample.store ForbiddenOwnerRemoval) _)).
    right. split; [reflexivity|]. split; [reflexivity|].
    split; [now exists Sample.cryptoB|]. split; [reflexivity|].
    split; [reflexivity|]. exists [Owner.hex 1%N], [1%N].
    split; [reflexivity|]. split; [reflexivity|]. split; [reflexivity|].
    cbn. intros [H|[]]. discriminate H.
  - refine (proj1 (proj2 (@put_by_id_403 true Sample.today Sample.viewerUser 10%N
                            Sample.notMine Sample.store Forbidden) _)).
    left. split; [reflexivity|]. exists 10%N. split; [reflexivity|].
    exists Sample.startupA. split; [reflexivity|]. split; [discriminate|].
    cbn. intros [H|[]]. discriminate H.
Defined.

(** ** The owner lookup *)

Lemma findOwners_length_inv (us : list User.t) (owners : list ObjectId) :
  NoDup (map User._id us) ->
  List.length (Investments.findOwners owners us) = List.length owners ->
  existing_active us owners.
Proof.
  intros Hus L.
  assert (ND : NoDup (map User._id (Investments.findOwners owners us)))
    by now apply filter_keeps_ids_distinct.
  assert (I : incl (map User._id (Investments.findOwners owners us)) owners).
  { intros o Ho. apply in_map_iff in Ho. destruct Ho as (u & <- & Hu).
    apply filter_In in Hu. destruct Hu as [_ Hu].
    apply andb_true_iff in Hu. now apply includes_In. }
  assert (Le : (List.length owners
                <= List.length (map User._id (Investments.findOwners owners us)))%nat)
    by (rewrite length_map; lia).
  split.
  - exact (NoDup_incl_NoDup ND Le I).
  - intros o Ho. pose proof (NoDup_length_incl ND Le I o Ho) as Hin.
    apply in_map_iff in Hin. destruct Hin as (u & E & Hu).
    apply filter_In in Hu. destruct Hu as [Hu Hb].
    apply andb_true_iff in Hb. exists u. tauto.
Qed.

(** X7.  Over users with distinct ids, the owner lookup of create and update
    lets through exactly the lists of distinct ids of active users: an
    id named twice is refused like an id that no active user has. *)
Theorem owner_lookup_exact (us : list User.t) (owners : list ObjectId) :
  NoDup (map User._id us) ->
  List.length (Investments.findOwners owners us) = List.length owners
  <-> existing_active us owners.
Proof.
  intros Hus. split; [now apply findOwners_length_inv | now apply findOwners_length].
Qed.

Lemma owner_lookup_exact_witness :
  List.length (Investments.findOwners [1%N; 1%N] (users Sample.store)) <> 2%nat
  /\ existing_active (users Sample.store) [2%N; 1%N].
Proof.
  split.
  - cbn. discriminate.
  - apply (proj1 (@owner_lookup_exact (users Sample.store) [2%N; 1%N]
                    sample_users_distinct)).
    reflexivity.
Defined.

(** ** The access check and [canUserModify] *)

(** For an investment that exists, the middleware decides as the method
    of the model does. *)
Lemma canAccessInvestment_found (user : User.t) (id : ObjectId)
      (st : Store) (d : Investment.t) :
  Investment.findById id (investments st) = Some d ->
  Auth.canAccessInvestment user id st
  = if Investment.canUserModify d (User._id user) (User.role user)
    then next d else fail Forbidden.
Proof.
  intros F. unfold Auth.canAccessInvestment, Investment.canUserModify.
  rewrite F. destruct (User.role user); [reflexivity|].
  now destruct (JS.includes (Investment.owners d) (User._id user)).
Qed.

(** ** Writes and the reads that follow them *)

Lemma findById_snoc_fresh (coll : list Investment.t) (d : Investment.t) :
  Investment._id d = Investment.fresh_id coll ->
  Investment.findById (Investment._id d) (coll ++ [d]) = Some d.
Proof.
  intros E.
  assert (H : forall c, In c coll -> Investment._id c <> Investment._id d).
  { intros c Hc Ec. pose proof (fresh_id_above _ _ Hc) as L.
    rewrite Ec, E in L. now apply N.lt_irrefl in L. }
  clear E. unfold Investment.findById.
  induction coll as [|c coll IH]; cbn.
  - now rewrite N.eqb_refl.
  - destruct (Investment._id c =? Investment._id d)%N eqn:X.
    + apply N.eqb_eq in X. elim (H c (or_introl eq_refl) X).
    + apply IH. intros c' Hc'. apply H. now right.
Qed.

Lemma owner_rule_access (user : User.t) (owners : list Owner.t)
      (ids : list ObjectId) :
  Owner.castAll owners = Some ids ->
  owner_rule user owners = false ->
  User.role user = admin \/ In (User._id user) ids.
Proof.
  intros C. unfold owner_rule. destruct (User.role user); [now left|]. cbn.
  rewrite negb_false_iff. intros H. right. now apply Owner_includes_cast with owners.
Qed.

(** X8.  A successful create can be read back: the new investment is active,
    has an id that no stored investment had, is what [GET /:id] returns
    to its creator and is in the creator's list; every investment that
    was stored is still found under its id, unchanged. *)
Theorem create_then_read (now : Date) (user : User.t) (body : Body.t)
        (st st' : Store) (investment : Investment.t) :
  Investments.post_root now user body st = next (st', investment) ->
  Investment.isActive investment = true
  /\ Investment.findById (Investment._id investment) (investments st) = None
  /\ Investments.get_by_id user (Investment._id investment) st' = next investment
  /\ In investment (Investments.get_root user st')
  /\ forall id d, Investment.findById id (investments st) = Some d ->
                  Investment.findById id (investments st') = Some d.
Proof.
  intros H. pose proof (post_root_answer now user body st) as A.
  rewrite H in A.
  inversion A as [| | | | | |a b x y o ids date P Hcap Hids Hlen Hrule Hdate E].
  clear E.
  set (inv := created now body a b x y date ids (investments st)).
  assert (Eid : Investment._id inv = Investment.fresh_id (investments st))
    by reflexivity.
  assert (F : Investment.findById (Investment._id inv) (investments st ++ [inv])
              = Some inv) by now apply findById_snoc_fresh.
  assert (Acc : Investment.canUserModify inv (User._id user) (User.role user)
                = true).
  { unfold Investment.canUserModify.
    destruct (@owner_rule_access user o ids Hids Hrule) as [->|Hin];
      [reflexivity|].
    destruct (User.role user); [reflexivity|]. now apply includes_In. }
  split; [reflexivity|]. split; [|split; [|split]].
  - destruct (Investment.findById _ (investments st)) as [c|] eqn:Fc;
      [|reflexivity].
    destruct (findById_Some _ _ Fc) as [Hc Ec].
    pose proof (fresh_id_above _ _ Hc) as L. rewrite Ec, Eid in L.
    now apply N.lt_irrefl in L.
  - unfold Investments.get_by_id.
    rewrite (@canAccessInvestment_found user (Investment._id inv)
               {| users := users st; investments := investments st ++ [inv] |}
               inv F).
    rewrite Acc. cbn [bind investments]. now rewrite F.
  - unfold Investments.get_root. apply DateSort_In, find_In. cbn [investments].
    split; [apply in_app_iff; right; now left|].
    unfold Investment.matches, Investments.listQuery. cbn.
    unfold Investment.canUserModify in Acc.
    destruct (User.role user); [reflexivity|]. exact Acc.
  - intros id d Fd. cbn [investments]. now apply findById_app.
Qed.

Lemma create_then_read_witness :
  exists st' investment,
    Investments.post_root Sample.today Sample.adminUser Sample.notMine Sample.store
    = next (st', investment)
    /\ Investments.get_by_id Sample.adminUser (Investment._id investment) st'
       = next investment.
Proof.
  eexists _, _. split; [reflexivity|].
  exact (proj1 (proj2 (proj2 (@create_then_read Sample.today Sample.adminUser
                                 Sample.notMine Sample.store _ _ eq_refl)))).
Defined.

Lemma replace_first_findById_other id id' d' coll :
  id' <> id -> Investment._id d' = id ->
  Investment.findById id' (Investment.replace_first id d' coll)
  = Investment.findById id' coll.
Proof.
  intros N E. unfold Investment.findById.
  induction coll as [|c coll IH]; cbn; [reflexivity|].
  destruct (Investment._id c =? id)%N eqn:X; cbn.
  - apply N.eqb_eq in X. rewrite E, X.
    destruct (id =? id')%N eqn:Y; [|reflexivity].
    apply N.eqb_eq in Y. now elim N.
  - destruct (Investment._id c =? id')%N; [reflexivity | exact IH].
Qed.

(** X9.  A successful update can be read back: the answer carries the
    document that is stored under the id afterwards, which keeps the
    id, [createdAt] and [isActive] of the document it replaces, is
    stamped with the time of the request, has the owners of the body as
    the query cast them, and is what [GET /:id] returns to the actor
    who sent the update. *)
Theorem update_then_read (omitUndefined : bool) (now : Date) (user : User.t)
        (id : ObjectId) (body : Body.t) (st st' : Store)
        (result : option Investment.t) :
  Investments.put_by_id omitUndefined now user id body st = next (st', result) ->
  exists stored updated,
    Investment.findById id (investments st) = Some stored
    /\ result = Some updated
    /\ Investment.findById id (investments st') = Some updated
    /\ Investment._id updated = id
    /\ Investment.createdAt updated = Investment.createdAt stored
    /\ Investment.isActive updated = Investment.isActive stored
    /\ Investment.updatedAt updated = now
    /\ (exists owners,
          Body.owners body = Some owners
          /\ Owner.castAll owners = Some (Investment.owners updated))
    /\ Investments.get_by_id user id st' = next updated.
Proof.
  intros H. pose proof (put_by_id_answer omitUndefined now user id body st) as A.
  rewrite H in A.
  inversion A as [| | | | | | | | |i stored a b x y o ids date Ei Hacc P Hcap Hids
                                    Hlen Hrule Hdate E].
  clear E. injection Ei as <-.
  pose proof (canAccessInvestment_cases user id st) as C. rewrite Hacc in C.
  destruct C as [F _]. destruct (findById_Some _ _ F) as [_ Eid].
  set (updated := Investment.apply_update omitUndefined now
                    (replacement body a b x y date ids) stored).
  assert (F' : Investment.findById id
                 (Investment.replace_first id updated (investments st))
               = Some updated)
    by (apply (replace_first_findById _ _ F); exact Eid).
  exists stored, updated.
  split; [exact F|]. split; [reflexivity|]. split; [exact F'|].
  split; [exact Eid|]. split; [reflexivity|]. split; [reflexivity|].
  split; [reflexivity|]. split; [exists o; split; [exact (has_owners P)|exact Hids]|].
  unfold Investments.get_by_id.
  rewrite (@canAccessInvestment_found user id
             {| users := users st;
                investments :=
                  Investment.replace_first id updated (investments st) |}
             updated F').
  replace (Investment.canUserModify updated (User._id user) (User.role user))
    with true.
  - cbn [bind investments]. now rewrite F'.
  - symmetry. unfold Investment.canUserModify.
    destruct (@owner_rule_access user o ids Hids Hrule) as [->|Hin];
      [reflexivity|].
    destruct (User.role user); [reflexivity|]. now apply includes_In.
Qed.

Definition fullUpdate : Body.t :=
  merged Sample.startupA Sample.partialUpdate.

Lemma update_then_read_witness :
  exists st' updated,
    Investments.put_by_id true Sample.today Sample.adminUser 10%N fullUpdate
      Sample.store
    = next (st', Some updated)
    /\ Investments.get_by_id Sample.adminUser 10%N st' = next updated.
Proof.
  eexists _, _. split; [reflexivity|].
  destruct (@update_then_read true Sample.today Sample.adminUser 10%N fullUpdate
              Sample.store _ _ eq_refl)
    as (stored & updated & _ & E & _ & _ & _ & _ & _ & _ & G).
  injection E as <-. exact G.
Defined.

(** ** What a call leaves alone *)

(** The id a call addresses, if it addresses one. *)
Definition target (c : Call) : option Param.t :=
  match request c with
  | UpdateInvestment id _ | DeleteInvestment id => Some id
  | _ => None
  end.

(** X10.  A call changes no investment but the one it addresses, and never
    the users: every other investment is found under its id as before,
    whatever the call and whether it succeeds or not. *)
Theorem call_touches_its_target_only (omitUndefined : bool) (st : Store) (c : Call)
        (id : ObjectId) :
  target c <> Some (Param.id id) ->
  users (step omitUndefined st c) = users st
  /\ forall d, Investment.findById id (investments st) = Some d ->
               Investment.findById id (investments (step omitUndefined st c))
               = Some d.
Proof.
  unfold target, step, store_after. intros T.
  destruct (request c) as [| |body|id' body|id'| |]; try (split; [reflexivity|tauto]).
  - destruct (Investments.post_root _ _ _ _) as [e|[st' investment]] eqn:P;
      [split; [reflexivity|tauto]|].
    apply post_root_store in P. destruct P as (U & -> & _). split; [exact U|].
    intros d F. now apply findById_app.
  - destruct (Investments.put_by_id _ _ _ _ _ _) as [e|[st' result]] eqn:P;
      [split; [reflexivity|tauto]|].
    apply put_by_id_store in P. destruct P as (U & i & d0 & u & -> & F0 & -> & _).
    split; [exact U|]. intros d F. rewrite replace_first_findById_other; trivial.
    + intros E. apply T. now rewrite E.
    + now destruct (findById_Some _ _ F0).
  - destruct (Investments.delete_by_id _ _ _ _ _) as [e|[st' []]] eqn:P;
      [split; [reflexivity|tauto]|].
    apply delete_by_id_store in P. destruct P as (U & i & d0 & -> & _ & F0 & ->).
    split; [exact U|]. intros d F. rewrite replace_first_findById_other; trivial.
    + intros E. apply T. now rewrite E.
    + now destruct (findById_Some _ _ F0).
Qed.

Lemma call_touches_its_target_only_witness :
  Investment.findById 12%N
    (investments
       (step true Sample.store
             {| at_time := Sample.today; actor := Sample.adminUser;
                request := DeleteInvestment 10%N |}))
  = Some Sample.farmlandC.
Proof.
  refine (proj2 (@call_touches_its_target_only true Sample.store _ 12%N _)
                Sample.farmlandC eq_refl).
  cbn. discriminate.
Defined.

(** ** Invariants of the store *)

(** What the schema and the handlers keep true of every stored
    investment, given the users of the store: the amounts are within
    the bounds, and there is at least one owner. *)
Definition well_formed (d : Investment.t) : Prop :=
  within_bounds d /\ Investment.owners d <> [].

Definition store_ok (st : Store) : Prop :=
  NoDup (map Investment._id (investments st))
  /\ Forall well_formed (investments st).

Lemma fresh_id_not_in (coll : list Investment.t) :
  ~ In (Investment.fresh_id coll) (map Investment._id coll).
Proof.
  intros H. apply in_map_iff in H. destruct H as (d & E & Hd).
  pose proof (fresh_id_above _ _ Hd) as L. rewrite E in L.
  now apply N.lt_irrefl in L.
Qed.

Lemma step_keeps_store_ok omitUndefined st c :
  store_ok st -> store_ok (step omitUndefined st c).
Proof.
  intros [ND W]. unfold step, store_after, store_ok.
  destruct (request c) as [| |body|id body|id| |]; try (now split).
  - pose proof (post_root_answer (at_time c) (actor c) body st) as A.
    destruct (Investments.post_root _ _ _ _) as [e|[st' investment]];
      [now split|].
    inversion A as [| | | | | |a b x y o ids date P Hcap Hids Hlen Hrule Hdate E].
    clear E. unfold store_ok. cbn [investments].
    assert (Hne : ids <> []).
    { pose proof (ok_owners P) as L. pose proof (castAll_length _ Hids) as Li.
      destruct ids; [cbn in Li; lia | discriminate]. }
    split.
    + rewrite map_app. cbn [map].
      apply Permutation_NoDup
        with (l := Investment.fresh_id (investments st)
                   :: map Investment._id (investments st)).
      * apply Permutation_cons_append.
      * constructor; [apply fresh_id_not_in | exact ND].
    + apply Forall_app. split; [exact W|]. constructor; [|constructor]. split.
      * apply validate_within_bounds. now apply created_valid with o.
      * exact Hne.
  - pose proof (put_by_id_answer omitUndefined (at_time c) (actor c) id body st)
      as A.
    destruct (Investments.put_by_id _ _ _ _ _ _) as [e|[st' result]];
      [now split|].
    inversion A as [| | | | | | | | |i stored a b x y o ids date Ei Hacc P Hcap Hids
                                      Hlen Hrule Hdate E].
    clear E. subst id. unfold store_ok. cbn [investments].
    assert (Hne : ids <> []).
    { pose proof (ok_owners P) as L. pose proof (castAll_length _ Hids) as Li.
      destruct ids; [cbn in Li; lia | discriminate]. }
    pose proof (canAccessInvestment_cases (actor c) i st) as C.
    rewrite Hacc in C. destruct C as [F _].
    destruct (findById_Some _ _ F) as [_ Eid]. split.
    + rewrite replace_first_ids; [exact ND | exact Eid].
    + apply Forall_replace_first; [|exact W]. split.
      * split; cbn; [exact (ok_investedAmount P) | exact (ok_currentValue P)].
      * exact Hne.
  - destruct (Investments.delete_by_id _ _ _ _ _) as [e|[st' []]] eqn:P;
      [now split|].
    apply delete_by_id_store in P. destruct P as (_ & i & d & _ & _ & F & ->).
    destruct (findById_Some _ _ F) as [Hd Eid]. unfold store_ok.
    cbn [investments]. split.
    + rewrite replace_first_ids; [exact ND | exact Eid].
    + apply Forall_replace_first; [|exact W].
      rewrite Forall_forall in W. exact (W d Hd).
Qed.

(** X11.  The service keeps its store in order: starting from a store whose
    investments have distinct ids, amounts within the bounds of the
    schema and at least one owner each, every sequence of calls, by
    whatever actors, ends in such a store. *)
Theorem service_keeps_store_in_order (omitUndefined : bool) (calls : list Call)
        (st : Store) :
  store_ok st -> store_ok (run omitUndefined st calls).
Proof.
  revert st. induction calls as [|c calls IH]; intros st H; [exact H|].
  cbn. apply IH. now apply step_keeps_store_ok.
Qed.

Lemma sample_store_ok : store_ok Sample.store.
Proof.
  split; [apply sample_ids_distinct|].
  repeat constructor; cbn; discriminate.
Qed.

Lemma service_keeps_store_in_order_witness :
  store_ok
    (run true Sample.store
         [ {| at_time := Sample.today; actor := Sample.adminUser;
              request := CreateInvestment Sample.notMine |};
           {| at_time := Sample.today; actor := Sample.viewerUser;
              request := DeleteInvestment 11%N |} ]).
Proof. exact (service_keeps_store_in_order true _ sample_store_ok). Defined.

(** ** What a successful write stores *)

Lemma cap_passed (user : User.t) (body : Body.t) (x : Q) :
  User.role user = viewer ->
  Body.investedAmount body = Some x ->
  Auth.validateInvestmentAmount user body = next tt ->
  x <= 1000000.
Proof.
  intros R E H. unfold Auth.validateInvestmentAmount in H. rewrite R, E in H.
  cbn in H. destruct (JS.gt x 1000000) eqn:G; [discriminate|].
  apply Qnot_lt_le. intros L. apply gt_true_iff in L. congruence.
Qed.

(** X12.  Whatever a create or an update stores respects the rules on owners
    and on the cap: over users with distinct ids, the owners stored are
    distinct ids of users who are active at the time of the write, and
    when the writer is a viewer the viewer is one of them and the
    invested amount stored is at most 1,000,000. *)
Theorem writes_respect_owner_rules_and_cap (omitUndefined : bool) (now : Date)
        (user : User.t) (id : ObjectId) (body : Body.t) (st : Store) :
  NoDup (map User._id (users st)) ->
  let ok (d : Investment.t) :=
    existing_active (users st) (Investment.owners d)
    /\ (User.role user = viewer ->
        In (User._id user) (Investment.owners d)
        /\ Investment.investedAmount d <= 1000000) in
  (forall st' d,
      Investments.post_root now user body st = next (st', d) -> ok d)
  /\ (forall st' d,
         Investments.put_by_id omitUndefined now user id body st
         = next (st', Some d) -> ok d).
Proof.
  intros Hus ok. subst ok. split; intros st' d H.
  - pose proof (post_root_answer now user body st) as A. rewrite H in A.
    inversion A as [| | | | | |a b x y o ids date P Hcap Hids Hlen Hrule Hdate E].
    clear E. cbn. rewrite <- (castAll_length _ Hids) in Hlen. split.
    + now apply findOwners_length_inv.
    + intros R. split.
      * destruct (@owner_rule_access user o ids Hids Hrule) as [C|C];
          [congruence | exact C].
      * exact (cap_passed user body R (has_investedAmount P) Hcap).
  - pose proof (put_by_id_answer omitUndefined now user id body st) as A.
    rewrite H in A.
    inversion A as [| | | | | | | | |i stored a b x y o ids date Ei Hacc P Hcap Hids
                                      Hlen Hrule Hdate E].
    clear E. cbn. rewrite <- (castAll_length _ Hids) in Hlen. split.
    + now apply findOwners_length_inv.
    + intros R. split.
      * destruct (@owner_rule_access user o ids Hids Hrule) as [C|C];
          [congruence | exact C].
      * exact (cap_passed user body R (has_investedAmount P) Hcap).
Qed.

(** A viewer's complete body that keeps the viewer among the owners. *)
Definition viewerUpdate : Body.t :=
  {| Body.assetName := Some "Crypto Fund B"%string;
     Body.assetType := Some "Crypto Fund"%string;
     Body.investedAmount := Some 50000;
     Body.currentValue := Some 47000;
     Body.investmentDate := None;
     Body.description := None;
     Body.notes := None;
     Body.owners := Some [Owner.hex 2%N; Owner.hex 1%N] |}.

Lemma writes_respect_owner_rules_and_cap_witness :
  exists st' d,
    Investments.put_by_id true Sample.today Sample.viewerUser 11%N viewerUpdate
      Sample.store
    = next (st', Some d)
    /\ existing_active (users Sample.store) (Investment.owners d)
    /\ In (User._id Sample.viewerUser) (Investment.owners d).
Proof.
  eexists _, _. split; [reflexivity|].
  destruct (proj2 (@writes_respect_owner_rules_and_cap true Sample.today
                     Sample.viewerUser 11%N viewerUpdate Sample.store
                     sample_users_distinct) _ _ eq_refl) as [H1 H2].
  split; [exact H1 | exact (proj1 (H2 eq_refl))].
Defined.

(** ** Witnesses on the fixtures *)

Lemma update_requires_every_path_witness :
  fails (Investments.put_by_id true Sample.today Sample.adminUser 10%N
           Sample.partialUpdate Sample.store).
Proof.
  apply update_requires_every_path. right. left. reflexivity.
Defined.

Lemma update_replaces_witness :
  exists st' updated,
    Investments.put_by_id true Sample.today Sample.viewerUser 11%N viewerUpdate
      Sample.store
    = next (st', Some updated)
    /\ Investment.investmentDate updated = Sample.today
    /\ Investment.owners updated = [2%N; 1%N]
    /\ Investment.description updated = Investment.description Sample.cryptoB.
Proof.
  assert (P : passes viewerUpdate "Crypto Fund B" "Crypto Fund" 50000 47000
                     [Owner.hex 2%N; Owner.hex 1%N])
    by (constructor; try reflexivity; cbn; lia).
  destruct (@update_replaces true Sample.today Sample.viewerUser 11%N viewerUpdate
              Sample.store Sample.cryptoB _ _ _ _ _ [2%N; 1%N] Sample.today
              eq_refl P eq_refl eq_refl eq_refl eq_refl eq_refl)
    as (st' & updated & H & _ & Ho & _ & _ & Hd & Hx).
  exists st', updated. split; [exact H|]. split; [exact (Hd eq_refl)|].
  split; [exact Ho | exact (Hx eq_refl)].
Defined.

Lemma viewer_excluding_self_never_creates_witness :
  fails (Investments.post_root Sample.today Sample.viewerUser Sample.notMine
           Sample.store).
Proof.
  apply (@viewer_excluding_self_never_creates Sample.today Sample.viewerUser
           Sample.notMine Sample.store [Owner.hex 1%N] eq_refl eq_refl).
  cbn. intros [H|[]]. discriminate H.
Defined.

(** * The simulation and the analytics routes *)

(** A reply of a handler that has messages of its own: the status and
    the [error] of the JSON it sends, or the data. *)
Definition Reply (A : Type) : Type := (nat * string + A)%type.

(** Numbers that may not be finite.  Once a value is [Infinity] or [NaN]
    it stays so under the operations used below: the difference with
    any number, the product with a constant, the quotient by a non-zero
    constant and [Math.round]. *)
Module Num.

Definition t : Type := option Q.

Definition map (f : Q -> Q) (x : t) : t :=
  match x with
  | Some q => Some (f q)
  | None => None
  end.

(** [x - y] *)
Definition minus (x y : t) : t :=
  match x, y with
  | Some a, Some b => Some (a - b)%Q
  | _, _ => None
  end.

(** [Math.round(q)]: the nearest integer, halves upwards. *)
Definition round (q : Q) : Q := inject_Z (Qfloor (q + (1 # 2))).

(** [Math.round(q * 100) / 100] *)
Definition round2 (q : Q) : Q := (round (q * 100) / 100)%Q.

End Num.

(** ** middleware/auth.js: [requireAdmin] *)

Definition requireAdmin (user : User.t) : Reply unit :=
  match User.role user with
  | admin => inr tt
  | viewer => inl (403%nat, "Access denied. Admin role required."%string)
  end.

(** ** routes/dashboard.js: [POST /simulate] *)

Module Simulate.

(** [req.body]; [investmentId] is [None] when it is absent or falsy. *)
Record Body := mkBody
  { investmentId : option Param.t;
    newValue : option Q;
    simulationType : option string }.

Record Result := mkResult
  { r_investmentId : ObjectId;
    assetName : string;
    originalValue : Q;
    simulatedValue : Q;
    changePercent : Num.t;
    newRoi : Num.t;
    newGain : Q }.

Record Impact := mkImpact
  { totalOriginalValue : Q;
    totalSimulatedValue : Q;
    portfolioChangePercent : Num.t }.

Record Data := mkData
  { simulationResults : list Result;
    portfolioImpact : Impact;
    r_simulationType : string }.

(** [Investment.find({ _id: investmentId, isActive: true })], and
    [Investment.find({ isActive: true })] when the body names no id;
    [None] when the query throws, on an id that cannot be cast. *)
Definition selected (investmentId : option Param.t) (coll : list Investment.t)
  : option (list Investment.t) :=
  match investmentId with
  | Some (Param.id id) =>
      Some (filter (fun d => (Investment._id d =? id)%N && Investment.isActive d)
                   coll)
  | Some Param.uncastable => None
  | None => Some (filter Investment.isActive coll)
  end.

(** [investmentId === investment._id]: the left side is the string of the
    JSON body and the right side an ObjectId object of the driver, and
    [===] holds of no string and object. *)
Definition strictly_equal (investmentId : option Param.t) (_id : ObjectId)
  : bool :=
  false.

(** [newValue] as a condition: absent and zero are falsy. *)
Definition truthy (newValue : option Q) : bool :=
  match newValue with
  | Some v => negb (Qeq_bool v 0)
  | None => false
  end.

(** The value simulated for one investment, with the number of calls of
    [Math.random] made so far; [random i] is the result of call [i]. *)
Definition simulate_value (random : nat -> Q) (body : Body) (i : nat)
           (investment : Investment.t) : Q * nat :=
  if truthy (newValue body)
     && strictly_equal (investmentId body) (Investment._id investment)
  then (match newValue body with Some v => v | None => 0 end, i)
  else
    let changePercent := ((random i - (1 # 2)) * (1 # 10))%Q in
    ((Investment.currentValue investment * (1 + changePercent))%Q, S i).

(** The entry pushed for one investment. *)
Definition result_of (investment : Investment.t) (simulatedValue : Q) : Result :=
  let newRoi :=
    JS.times (JS.div (simulatedValue - Investment.investedAmount investment)
                     (Investment.investedAmount investment)) 100 in
  let newGain := (simulatedValue - Investment.investedAmount investment)%Q in
  {| r_investmentId := Investment._id investment;
     assetName := Investment.assetName investment;
     originalValue := Investment.currentValue investment;
     simulatedValue := Num.round2 simulatedValue;
     changePercent :=
       JS.times (JS.div (simulatedValue - Investment.currentValue investment)
                        (Investment.currentValue investment)) 100;
     newRoi := Num.map (fun q => q / 100) (Num.map Num.round (JS.times newRoi 100));
     newGain := Num.round2 newGain |}.

(** The [for ... of] loop. *)
Fixpoint results (random : nat -> Q) (body : Body) (i : nat)
         (investments : list Investment.t) : list Result :=
  match investments with
  | [] => []
  | investment :: rest =>
      let (simulatedValue, i') := simulate_value random body i investment in
      result_of investment simulatedValue :: results random body i' rest
  end.

(** The handler, after [authenticateToken]. *)
Definition post_simulate (random : nat -> Q) (user : User.t) (body : Body)
           (st : Store) : Reply Data :=
  match requireAdmin user with
  | inl e => inl e
  | inr _ =>
      match selected (investmentId body) (investments st) with
      | None => inl (500%nat, "Failed to run simulation"%string)
      | Some investments =>
          let simulationResults := results random body 0 investments in
          let totalOriginalValue :=
            fold_left (fun sum inv => (sum + Investment.currentValue inv)%Q)
                      investments 0%Q in
          let totalSimulatedValue :=
            fold_left (fun sum result => (sum + simulatedValue result)%Q)
                      simulationResults 0%Q in
          let portfolioChangePercent :=
            JS.times (JS.div (totalSimulatedValue - totalOriginalValue)
                             totalOriginalValue) 100 in
          inr {| simulationResults := simulationResults;
                 portfolioImpact :=
                   {| totalOriginalValue := Num.round2 totalOriginalValue;
                      totalSimulatedValue := Num.round2 totalSimulatedValue;
                      portfolioChangePercent :=
                        Num.map (fun q => q / 100)
                                (Num.map Num.round
                                         (JS.times portfolioChangePercent 100)) |};
                 r_simulationType :=
                   match simulationType body with
                   | Some s => if String.eqb s "" then "random"%string else s
                   | None => "random"%string
                   end |}
      end
  end.

End Simulate.

(** ** Properties of the simulation *)

Lemma round2_near (q : Q) :
  q - (1 # 200) <= Num.round2 q /\ Num.round2 q <= q + (1 # 200).
Proof.
  unfold Num.round2, Num.round.
  pose proof (Qfloor_le (q * 100 + (1 # 2))) as Lo.
  pose proof (Qlt_floor (q * 100 + (1 # 2))) as Hi.
  rewrite inject_Z_plus in Hi.
  set (f := inject_Z (Qfloor (q * 100 + (1 # 2)))) in *.
  change (inject_Z 1) with 1 in Hi.
  split.
  - apply Qle_shift_div_l; [reflexivity|]. lra.
  - apply Qle_shift_div_r; [reflexivity|]. lra.
Qed.




Lemma fold_left_sum {A} (f : A -> Q) (l : list A) (a : Q) :
  fold_left (fun sum x => sum + f x) l a == a + sumQ (List.map f l).
Proof.
  unfold sumQ. revert a. induction l as [|x l IH]; intros a; cbn [fold_left List.map fold_right].
  - ring.
  - rewrite IH. ring.
Qed.

Lemma simulate_value_random random body i investment :
  Simulate.simulate_value random body i investment
  = ((Investment.currentValue investment
      * (1 + (random i - (1 # 2)) * (1 # 10)))%Q, S i).
Proof.
  unfold Simulate.simulate_value, Simulate.strictly_equal.
  now rewrite andb_false_r.
Qed.

(** One result for each investment selected, in their order. *)
Lemma results_follow random body (l : list Investment.t) : forall i,
  Forall2 (fun d r =>
             exists k, r = Simulate.result_of d
                             (Investment.currentValue d
                              * (1 + (random k - (1 # 2)) * (1 # 10))))
          l (Simulate.results random body i l).
Proof.
  induction l as [|d l IH]; intros i; cbn [Simulate.results]; [constructor|].
  rewrite simulate_value_random. constructor; [now exists i | apply IH].
Qed.

(** X17.  [POST /api/dashboard/simulate] refuses a viewer with 403, and
    answers an admin who names an id that cannot be cast with 500.  To
    any other request of an admin it answers with one result for each
    investment selected, in their order, and when every draw of
    [Math.random] is in [0, 1) and no current value is negative, every
    simulated value is within five percent of the investment's current
    value, up to the rounding to cents: this holds whatever [newValue]
    the request carries, which the handler never uses. *)
Theorem simulation_within_five_percent (random : nat -> Q) (user : User.t)
        (body : Simulate.Body) (st : Store) :
  (forall i, 0 <= random i /\ random i < 1) ->
  Forall (fun d => 0 <= Investment.currentValue d) (investments st) ->
  match Simulate.post_simulate random user body st with
  | inl (status, _) =>
      (User.role user = viewer /\ status = 403%nat)
      \/ (User.role user = admin
          /\ Simulate.investmentId body = Some Param.uncastable
          /\ status = 500%nat)
  | inr data =>
      User.role user = admin
      /\ exists selected,
          Simulate.selected (Simulate.investmentId body) (investments st)
          = Some selected
          /\ Forall2 (fun d r =>
                        Simulate.r_investmentId r = Investment._id d
                        /\ Simulate.originalValue r = Investment.currentValue d
                        /\ Simulate.originalValue r * (95 # 100) - (1 # 200)
                           <= Simulate.simulatedValue r
                        /\ Simulate.simulatedValue r
                           <= Simulate.originalValue r * (105 # 100) + (1 # 200))
                     selected (Simulate.simulationResults data)
  end.
Proof.
  intros Hr Hcv. unfold Simulate.post_simulate, requireAdmin.
  destruct (User.role user); [|left; now split].
  destruct (Simulate.selected (Simulate.investmentId body) (investments st))
    as [selected|] eqn:S.
  2: { right. split; [reflexivity|]. split; [|reflexivity].
       unfold Simulate.selected in S.
       destruct (Simulate.investmentId body) as [[i|]|]; try discriminate S.
       reflexivity. }
  split; [reflexivity|]. exists selected. split; [reflexivity|].
  cbn [Simulate.simulationResults].
  assert (Hsel : Forall (fun d => 0 <= Investment.currentValue d) selected).
  { unfold Simulate.selected in S. rewrite Forall_forall in *.
    destruct (Simulate.investmentId body) as [[i|]|]; try discriminate S;
      injection S as <-; intros d Hd; apply filter_In in Hd; now apply Hcv. }
  pose proof (results_follow random body selected 0) as F.
  clear S. induction F as [|d r l rs (k & ->) _ IH]; [constructor|].
  inversion Hsel as [|? ? Hd Hl]; subst. constructor; [|now apply IH].
  cbn [Simulate.result_of Simulate.r_investmentId Simulate.originalValue
       Simulate.simulatedValue].
  split; [reflexivity|]. split; [reflexivity|].
  set (cv := Investment.currentValue d) in *.
  destruct (Hr k) as [R0 R1].
  set (sv := cv * (1 + (random k - (1 # 2)) * (1 # 10))).
  destruct (round2_near sv) as [N1 N2].
  assert (P0 : 0 <= cv * random k) by now apply Qmult_le_0_compat.
  assert (P1 : cv * random k <= cv).
  { rewrite <- (Qmult_1_r cv) at 2.
    destruct (Qeq_dec cv 0) as [Z|NZ].
    - rewrite Z. lra.
    - apply Qmult_le_l; [|now apply Qlt_le_weak].
      apply Qle_lt_or_eq in Hd. destruct Hd as [L|E]; [exact L|].
      elim NZ. now symmetry. }
  assert (Esv : sv == cv * (95 # 100) + cv * random k * (1 # 10))
    by (unfold sv; ring).
  split; lra.
Qed.

Definition quarter (i : nat) : Q := 1 # 4.

Definition manual : Simulate.Body :=
  {| Simulate.investmentId := Some (Param.id 10%N);
     Simulate.newValue := Some 120000;
     Simulate.simulationType := Some "manual"%string |}.

Lemma simulation_within_five_percent_witness :
  exists data,
    Simulate.post_simulate quarter Sample.adminUser manual Sample.store = inr data
    /\ Forall2 (fun d r =>
                  Simulate.r_investmentId r = Investment._id d
                  /\ Simulate.originalValue r = Investment.currentValue d
                  /\ Simulate.originalValue r * (95 # 100) - (1 # 200)
                     <= Simulate.simulatedValue r
                  /\ Simulate.simulatedValue r
                     <= Simulate.originalValue r * (105 # 100) + (1 # 200))
               [Sample.startupA] (Simulate.simulationResults data).
Proof.
  assert (Hr : forall i, 0 <= quarter i /\ quarter i < 1)
    by (intros i; unfold quarter; split; [discriminate | reflexivity]).
  assert (Hcv : Forall (fun d => 0 <= Investment.currentValue d)
                       (investments Sample.store))
    by (repeat constructor; cbn; discriminate).
  pose proof (@simulation_within_five_percent quarter Sample.adminUser manual
                Sample.store Hr Hcv) as H.
  destruct (Simulate.post_simulate quarter Sample.adminUser manual Sample.store)
    as [[status message]|data] eqn:E; [discriminate E|].
  exists data. split; [reflexivity|].
  destruct H as (_ & selected & S & F). injection S as <-. exact F.
Defined.




(** ** The analytics router: [GET /performance] and [POST /simulate] *)

Module Analytics.

(** Comparisons of two [roi]s.  The virtual is always finite, so [None]
    does not arise in them; on it they answer false, as they do on
    [NaN]. *)
Definition gt (x y : option Q) : bool :=
  match x, y with
  | Some a, Some b => JS.gt a b
  | _, _ => false
  end.

Definition strict_eq (x y : option Q) : bool :=
  match x, y with
  | Some a, Some b => Qeq_bool a b
  | _, _ => false
  end.

(** [array.reduce(f)] without an initial value, on an array that is not
    empty. *)
Definition reduce1 {A} (f : A -> A -> A) (first : A) (rest : list A) : A :=
  fold_left f rest first.

Record Summary := mkSummary
  { totalInvested : Q;
    totalCurrentValue : Q;
    totalGain : Q;
    overallRoi : option Q;
    investmentCount : nat }.

Record Performance := mkPerformance
  { positivePerformers : nat;
    negativePerformers : nat;
    neutralPerformers : nat;
    bestPerformer : option Investment.t;
    worstPerformer : option Investment.t }.

(** The investments [GET /performance] works on. *)
Definition visible (user : User.t) (st : Store) : list Investment.t :=
  let userId :=
    match User.role user with
    | admin => None
    | viewer => Some (User._id user)
    end in
  Investment.find {| Investment.q_isActive := Some true;
                     Investment.q_owners := userId |} (investments st).

(** [GET /performance] *)
Definition get_performance (user : User.t) (st : Store) : Summary * Performance :=
  let investments := visible user st in
  let totalInvested :=
    fold_left (fun sum inv => (sum + Investment.investedAmount inv)%Q)
              investments 0%Q in
  let totalCurrentValue :=
    fold_left (fun sum inv => (sum + Investment.currentValue inv)%Q)
              investments 0%Q in
  let totalGain := (totalCurrentValue - totalInvested)%Q in
  let overallRoi :=
    if JS.gt totalInvested 0
    then JS.times (JS.div totalGain totalInvested) 100
    else Some 0%Q in
  let positivePerformers :=
    List.length (filter (fun inv => gt (Investment.roi inv) (Some 0%Q)) investments) in
  let negativePerformers :=
    List.length (filter (fun inv => gt (Some 0%Q) (Investment.roi inv)) investments) in
  let neutralPerformers :=
    List.length (filter (fun inv => strict_eq (Investment.roi inv) (Some 0%Q))
                        investments) in
  let bestPerformer :=
    match investments with
    | [] => None
    | first :: rest =>
        Some (reduce1 (fun best current =>
                         if gt (Investment.roi current) (Investment.roi best)
                         then current else best) first rest)
    end in
  let worstPerformer :=
    match investments with
    | [] => None
    | first :: rest =>
        Some (reduce1 (fun worst current =>
                         if gt (Investment.roi worst) (Investment.roi current)
                         then current else worst) first rest)
    end in
  ({| totalInvested := totalInvested;
      totalCurrentValue := totalCurrentValue;
      totalGain := totalGain;
      overallRoi := overallRoi;
      investmentCount := List.length investments |},
   {| positivePerformers := positivePerformers;
      negativePerformers := negativePerformers;
      neutralPerformers := neutralPerformers;
      bestPerformer := bestPerformer;
      worstPerformer := worstPerformer |}).

(** [req.body]; a path is [None] when it is absent or falsy, but for
    the value zero of [newValue]. *)
Record SimulateBody := mkSimulateBody
  { investmentId : option Param.t;
    newValue : option Q;
    simulationType : option string }.

Record Simulation := mkSimulation
  { s_investmentId : Param.t;
    assetName : string;
    oldValue : Q;
    s_newValue : Q;
    valueChange : Q;
    oldRoi : Num.t;
    newRoi : Num.t;
    roiChange : Num.t;
    s_simulationType : string;
    timestamp : Date }.

(** [POST /simulate] at time [now].  An absent value and the value zero
    are both falsy; on an id that cannot be cast [findById] throws. *)
Definition post_simulate (now : Date) (user : User.t) (body : SimulateBody)
           (st : Store) : Reply Simulation :=
  match investmentId body, newValue body with
  | Some investmentId, Some newValue =>
      if Qeq_bool newValue 0
      then inl (400%nat, "Investment ID and new value are required."%string)
      else
        match investmentId with
        | Param.uncastable => inl (500%nat, "Internal server error."%string)
        | Param.id id =>
            match Investment.findById id (investments st) with
            | None => inl (404%nat, "Investment not found."%string)
            | Some investment =>
                if negb (Role_eqb (User.role user) admin)
                   && negb (JS.includes (Investment.owners investment)
                                        (User._id user))
                then inl (403%nat,
                          "Access denied. You do not own this investment."%string)
                else
                  let oldValue := Investment.currentValue investment in
                  let investedAmount := Investment.investedAmount investment in
                  let oldRoi :=
                    JS.times (JS.div (oldValue - investedAmount) investedAmount)
                             100 in
                  let newRoi :=
                    JS.times (JS.div (newValue - investedAmount) investedAmount)
                             100 in
                  let valueChange := (newValue - oldValue)%Q in
                  let roiChange := Num.minus newRoi oldRoi in
                  inr {| s_investmentId := investmentId;
                         assetName := Investment.assetName investment;
                         oldValue := oldValue;
                         s_newValue := newValue;
                         valueChange := valueChange;
                         oldRoi := oldRoi;
                         newRoi := newRoi;
                         roiChange := roiChange;
                         s_simulationType :=
                           match simulationType body with
                           | Some s =>
                               if String.eqb s "" then "manual"%string else s
                           | None => "manual"%string
                           end;
                         timestamp := now |}
            end
        end
  | _, _ => inl (400%nat, "Investment ID and new value are required."%string)
  end.

End Analytics.

(** ** Properties of the analytics *)

(** The value of the [roi] virtual, which is always finite. *)
Definition roi_value (d : Investment.t) : Q :=
  if Qeq_bool (Investment.investedAmount d) 0 then 0
  else (Investment.currentValue d - Investment.investedAmount d)
       / Investment.investedAmount d * 100.

Lemma roi_is_roi_value (d : Investment.t) : Investment.roi d = Some (roi_value d).
Proof.
  unfold Investment.roi, roi_value.
  destruct (Qeq_bool (Investment.investedAmount d) 0) eqn:E; [reflexivity|].
  now rewrite (div_nonzero _ (Qeq_bool_neq _ _ E)).
Qed.

Lemma sign_cases (r : Q) :
  (JS.gt r 0 = true /\ JS.gt 0 r = false /\ Qeq_bool r 0 = false)
  \/ (JS.gt r 0 = false /\ JS.gt 0 r = true /\ Qeq_bool r 0 = false)
  \/ (JS.gt r 0 = false /\ JS.gt 0 r = false /\ Qeq_bool r 0 = true).
Proof.
  assert (F : forall a b, JS.gt a b = false <-> a <= b).
  { intros a b. unfold JS.gt. rewrite negb_false_iff. apply Qle_bool_iff. }
  destruct (Q_dec r 0) as [[L|G]|E].
  - right. left. repeat split.
    + apply F. now apply Qlt_le_weak.
    + now apply gt_true_iff.
    + apply Qeq_bool_false_neq. intros E. rewrite E in L.
      now apply Qlt_irrefl in L.
  - left. repeat split.
    + now apply gt_true_iff.
    + apply F. now apply Qlt_le_weak.
    + apply Qeq_bool_false_neq. intros E. rewrite E in G.
      now apply Qlt_irrefl in G.
  - right. right. repeat split.
    + apply F. rewrite E. apply Qle_refl.
    + apply F. rewrite E. apply Qle_refl.
    + now apply Qeq_bool_iff.
Qed.

(** X19.  [GET /performance] sorts every investment it works on into exactly
    one of its three classes: the numbers of positive, negative and
    neutral performers add up to the number of investments. *)
Theorem performers_add_up (user : User.t) (st : Store) :
  let (summary, performance) := Analytics.get_performance user st in
  (Analytics.positivePerformers performance
   + Analytics.negativePerformers performance
   + Analytics.neutralPerformers performance)%nat
  = Analytics.investmentCount summary
  /\ Analytics.investmentCount summary = List.length (Investments.get_root user st).
Proof.
  unfold Analytics.get_performance.
  cbn [Analytics.positivePerformers Analytics.negativePerformers
       Analytics.neutralPerformers Analytics.investmentCount].
  split.
  - induction (Analytics.visible user st) as [|d l IH]; [reflexivity|].
    cbn [filter]. rewrite roi_is_roi_value.
    cbn [Analytics.gt Analytics.strict_eq] in *.
    destruct (sign_cases (roi_value d))
      as [(-> & -> & ->)|[(-> & -> & ->)|(-> & -> & ->)]];
      cbn [List.length] in *; lia.
  - unfold Investments.get_root. symmetry. apply Permutation_length.
    apply Permutation_sym, Investment.DateSort.Permuted_sort.
Qed.

Lemma reduce_best (first : Investment.t) (rest : list Investment.t) :
  let best :=
    Analytics.reduce1
      (fun best current =>
         if Analytics.gt (Investment.roi current) (Investment.roi best)
         then current else best) first rest in
  In best (first :: rest)
  /\ forall d, In d (first :: rest) -> roi_value d <= roi_value best.
Proof.
  unfold Analytics.reduce1. revert first.
  induction rest as [|c rest IH]; intros first; cbn [fold_left].
  - split; [now left|]. intros d [<-|[]]. apply Qle_refl.
  - rewrite !roi_is_roi_value. cbn [Analytics.gt].
    destruct (JS.gt (roi_value c) (roi_value first)) eqn:G.
    + destruct (IH c) as [H1 H2]. apply gt_true_iff in G. split.
      * destruct H1 as [<-|H1]; [right; now left | right; now right].
      * intros d [<-|Hd]; [|now apply H2].
        eapply Qle_trans; [apply Qlt_le_weak, G | apply H2; now left].
    + destruct (IH first) as [H1 H2]. split.
      * destruct H1 as [<-|H1]; [now left | right; now right].
      * intros d [<-|[<-|Hd]].
        -- apply H2. now left.
        -- unfold JS.gt in G. apply negb_false_iff, Qle_bool_iff in G.
           eapply Qle_trans; [exact G | apply H2; now left].
        -- apply H2. now right.
Qed.

Lemma reduce_worst (first : Investment.t) (rest : list Investment.t) :
  let worst :=
    Analytics.reduce1
      (fun worst current =>
         if Analytics.gt (Investment.roi worst) (Investment.roi current)
         then current else worst) first rest in
  In worst (first :: rest)
  /\ forall d, In d (first :: rest) -> roi_value worst <= roi_value d.
Proof.
  unfold Analytics.reduce1. revert first.
  induction rest as [|c rest IH]; intros first; cbn [fold_left].
  - split; [now left|]. intros d [<-|[]]. apply Qle_refl.
  - rewrite !roi_is_roi_value. cbn [Analytics.gt].
    destruct (JS.gt (roi_value first) (roi_value c)) eqn:G.
    + destruct (IH c) as [H1 H2]. apply gt_true_iff in G. split.
      * destruct H1 as [<-|H1]; [right; now left | right; now right].
      * intros d [<-|Hd]; [|now apply H2].
        eapply Qle_trans; [apply H2; now left | apply Qlt_le_weak, G].
    + destruct (IH first) as [H1 H2]. split.
      * destruct H1 as [<-|H1]; [now left | right; now right].
      * intros d [<-|[<-|Hd]].
        -- apply H2. now left.
        -- unfold JS.gt in G. apply negb_false_iff, Qle_bool_iff in G.
           eapply Qle_trans; [apply H2; now left | exact G].
        -- apply H2. now right.
Qed.

(** X20.  The best and the worst performer of [GET /performance] are what
    their names say: each is one of the investments the actor sees,
    none of which has a higher (lower) [roi]; both are [null] exactly
    when the actor sees no investment. *)
Theorem best_and_worst_performer (user : User.t) (st : Store) :
  let performance := snd (Analytics.get_performance user st) in
  let seen := Analytics.visible user st in
  match Analytics.bestPerformer performance, Analytics.worstPerformer performance with
  | Some best, Some worst =>
      In best seen /\ In worst seen
      /\ forall d, In d seen ->
                   roi_value worst <= roi_value d /\ roi_value d <= roi_value best
  | None, None => seen = []
  | _, _ => False
  end.
Proof.
  unfold Analytics.get_performance.
  cbn [snd Analytics.bestPerformer Analytics.worstPerformer].
  destruct (Analytics.visible user st) as [|first rest]; [reflexivity|].
  destruct (reduce_best first rest) as [B1 B2].
  destruct (reduce_worst first rest) as [W1 W2].
  split; [exact B1|]. split; [exact W1|]. intros d Hd. split; auto.
Qed.

(** Two numbers that are both finite and equal, or both not finite. *)
Definition same_num (x y : option Q) : Prop :=
  match x, y with
  | Some a, Some b => a == b
  | None, None => True
  | _, _ => False
  end.

Lemma guarded_ratio_compat (g g' a a' : Q) :
  g == g' -> a == a' ->
  same_num (if JS.gt a 0 then JS.times (JS.div g a) 100 else Some 0)
           (if JS.gt a' 0 then JS.times (JS.div g' a') 100 else Some 0).
Proof.
  intros Eg Ea.
  assert (G : JS.gt a 0 = JS.gt a' 0).
  { destruct (JS.gt a 0) eqn:X; symmetry.
    - apply gt_true_iff. apply gt_true_iff in X. now rewrite <- Ea.
    - destruct (JS.gt a' 0) eqn:Y; [|reflexivity].
      apply gt_true_iff in Y. rewrite <- Ea in Y. apply gt_true_iff in Y.
      congruence. }
  rewrite <- G. destruct (JS.gt a 0) eqn:X; [|cbn; reflexivity].
  apply gt_true_iff in X.
  assert (Na : ~ a == 0) by (intros Z; rewrite Z in X; now apply Qlt_irrefl in X).
  assert (Na' : ~ a' == 0) by now rewrite <- Ea.
  rewrite (div_nonzero _ Na), (div_nonzero _ Na'). cbn. now rewrite Eg, Ea.
Qed.

(** X21.  [GET /performance] and [GET /portfolio/summary] tell one actor the
    same about the portfolio: the same number of investments, the same
    totals invested and of current value, the same gain (computed as
    the difference of the totals by the one and as the sum of the gains
    by the other) and the same overall return. *)
Theorem performance_agrees_with_summary (user : User.t) (st : Store) :
  let summary := fst (Analytics.get_performance user st) in
  let totals := fst (Investments.get_portfolio_summary user st) in
  Analytics.investmentCount summary = Investment.Totals.investmentCount totals
  /\ Analytics.totalInvested summary == Investment.Totals.totalInvested totals
  /\ Analytics.totalCurrentValue summary
     == Investment.Totals.totalCurrentValue totals
  /\ Analytics.totalGain summary == Investment.Totals.totalGain totals
  /\ same_num (Analytics.overallRoi summary) (Investment.Totals.totalRoi totals).
Proof.
  unfold Analytics.get_performance, Investments.get_portfolio_summary,
    Investment.getPortfolioTotals, Analytics.visible, Investment.matchStage.
  cbn [fst Analytics.investmentCount Analytics.totalInvested
       Analytics.totalCurrentValue Analytics.totalGain Analytics.overallRoi].
  set (docs := Investment.find _ (investments st)).
  pose proof (fold_left_sum Investment.investedAmount docs 0) as S1.
  pose proof (fold_left_sum Investment.currentValue docs 0) as S2.
  destruct (group_fold_spec docs Investment.group_init) as (H1 & H2 & H3 & H4).
  remember (fold_left Investment.group_step docs Investment.group_init) as r eqn:Er.
  unfold Investment.group_init in H1, H2, H3, H4.
  cbn [Investment.Group.totalInvested Investment.Group.totalCurrentValue
       Investment.Group.totalGain Investment.Group.investmentCount]
    in H1, H2, H3, H4.
  set (a := fold_left _ docs 0) in *.
  set (c := fold_left _ docs 0) in S2 |- *.
  assert (G : sumQ (List.map Investment.absoluteGain docs)
              == sumQ (List.map Investment.currentValue docs)
                 - sumQ (List.map Investment.investedAmount docs)).
  { clear. unfold sumQ, Investment.absoluteGain.
    induction docs as [|d l IH]; cbn [List.map fold_right]; [ring|].
    rewrite IH. ring. }
  clearbody docs. destruct docs as [|d docs'].
  - cbn in *. subst a c. cbn. repeat split; reflexivity.
  - unfold Investment.group_null. rewrite <- Er.
    cbn [Investment.Totals.totalInvested Investment.Totals.totalCurrentValue
         Investment.Totals.totalGain Investment.Totals.investmentCount
         Investment.Totals.totalRoi].
    assert (Ea : a == Investment.Group.totalInvested r) by (rewrite S1, H1; ring).
    assert (Ec : c == Investment.Group.totalCurrentValue r)
      by (rewrite S2, H2; ring).
    assert (Eg : c - a == Investment.Group.totalGain r)
      by (rewrite S1, S2, H3, G; ring).
    split; [now rewrite H4|]. split; [exact Ea|]. split; [exact Ec|].
    split; [exact Eg|]. now apply guarded_ratio_compat.
Qed.



